(** * Real-time connection, presence and message fan-out

    A shallow embedding of the Socket.IO handler of the chat server
    ([src/server.js], function [socketHandler]) together with the
    document methods it calls ([src/models/message.js],
    [src/models/chat.js], the GroupChat and Notification models).

    Every event handler is a computation in a small monad [M] that threads
    the process-wide state (the [activeUsers] map, the room subscriptions
    kept by Socket.IO and the database collections), accumulates the
    events handed to Socket.IO, and may throw.  Each [await] on the
    database is a labelled point that the environment may make reject.
    A handler runs atomically: interleaving at [await] is not modelled.
    The handlers for typing-end, mark-all-as-read and
    friend-request-accepted are left out. *)

From Stdlib Require Import ZArith.
From stdpp Require Import base option list gmap sets strings pretty.

Local Open Scope Z_scope.
Local Open Scope string_scope.
Local Open Scope stdpp_scope.
Local Open Scope list_scope.

(** ** Documents

    Identifiers (ObjectId values, socket ids, room names) are strings:
    the source compares them through [toString()]. Dates are
    milliseconds. A JavaScript string is a [string] whose characters stand
    for its code units. *)

Record UserDoc := {
  username : string;
  status : string;
  lastSeen : Z;
  socketId : option string;
}.

Record ChatDoc := {
  chat_id : string;
  participants : list string;
  chat_lastActivity : Z;
}.

Record MemberDoc := {
  member_user : string;
  member_role : string;
}.

Record GroupChatDoc := {
  group_id : string;
  group_name : string;
  members : list MemberDoc;
  group_lastActivity : Z;
}.

Record ReadDoc := {
  read_user : string;
  readAt : Z;
}.

Record MessageDoc := {
  message_id : string;
  sender : string;
  content : string;
  chatId : string;
  chatType : string;
  messageType : string;
  mediaUrl : option string;
  readBy : list ReadDoc;
}.

Record NotificationDoc := {
  notification_id : string;
  recipient : string;
  notification_sender : string;
  notification_type : string;
  notification_content : string;
  relatedChatId : string;
  relatedChatType : string;
  relatedMessageId : string;
  isRead : bool;
  notification_readAt : option Z;
}.

Record FriendshipDoc := {
  requester : string;
  friendship_recipient : string;
  friendship_status : string;
}.

(** ** Process state *)

Record World := {
  (** [const activeUsers = new Map()]: userId to socketId. *)
  activeUsers : gmap string string;
  (** Socket.IO's bookkeeping: the connected sockets and, for each, the
      rooms it has joined. A socket is always in the room named by its
      own id. *)
  rooms : gmap string (gset string);
  users : gmap string UserDoc;
  chats : list ChatDoc;
  groups : list GroupChatDoc;
  messages : list MessageDoc;
  notifications : list NotificationDoc;
  friendships : list FriendshipDoc;
}.

Definition set_activeUsers (f : gmap string string → gmap string string) (w : World) : World :=
  {| activeUsers := f (activeUsers w); rooms := rooms w; users := users w;
     chats := chats w; groups := groups w; messages := messages w;
     notifications := notifications w; friendships := friendships w |}.

Definition set_rooms (f : gmap string (gset string) → gmap string (gset string)) (w : World) : World :=
  {| activeUsers := activeUsers w; rooms := f (rooms w); users := users w;
     chats := chats w; groups := groups w; messages := messages w;
     notifications := notifications w; friendships := friendships w |}.

Definition set_users (f : gmap string UserDoc → gmap string UserDoc) (w : World) : World :=
  {| activeUsers := activeUsers w; rooms := rooms w; users := f (users w);
     chats := chats w; groups := groups w; messages := messages w;
     notifications := notifications w; friendships := friendships w |}.

Definition set_chats (f : list ChatDoc → list ChatDoc) (w : World) : World :=
  {| activeUsers := activeUsers w; rooms := rooms w; users := users w;
     chats := f (chats w); groups := groups w; messages := messages w;
     notifications := notifications w; friendships := friendships w |}.

Definition set_groups (f : list GroupChatDoc → list GroupChatDoc) (w : World) : World :=
  {| activeUsers := activeUsers w; rooms := rooms w; users := users w;
     chats := chats w; groups := f (groups w); messages := messages w;
     notifications := notifications w; friendships := friendships w |}.

Definition set_messages (f : list MessageDoc → list MessageDoc) (w : World) : World :=
  {| activeUsers := activeUsers w; rooms := rooms w; users := users w;
     chats := chats w; groups := groups w; messages := f (messages w);
     notifications := notifications w; friendships := friendships w |}.

Definition set_notifications (f : list NotificationDoc → list NotificationDoc) (w : World) : World :=
  {| activeUsers := activeUsers w; rooms := rooms w; users := users w;
     chats := chats w; groups := groups w; messages := messages w;
     notifications := f (notifications w); friendships := friendships w |}.

(** ** Emitted events *)

Inductive Target :=
  | IoTo (room : string)                    (* io.to(room).emit *)
  | SocketTo (sid : string) (room : string) (* socket.to(room).emit *)
  | SocketEmit (sid : string).              (* socket.emit *)

Inductive Payload :=
  | PStatusChange (userId uname st : string) (seen : option Z)
  | PActiveFriends (ids : list string)
  | PCount (n : nat)
  | PPrivateMessage (message : MessageDoc) (chat : string) (parts : list string)
  | PGroupMessage (message : MessageDoc) (group gname : string)
  | PMessageSent (message : MessageDoc) (chat : string)
  | PError (error : string)
  | PErrorMessage (message : string)
  | PTyping (chat userId uname : string)
  | PMessageRead (messageId userId uname : string) (at_ : Z)
  | PGroupId (groupId : string).

Record Emit := {
  target : Target;
  event : string;
  payload : Payload;
}.

(** Sockets that receive an emit, given the room subscriptions. *)
Definition in_room (rs : gmap string (gset string)) (room sid : string) : bool :=
  match rs !! sid with
  | Some joined => bool_decide (room = sid ∨ room ∈ joined)
  | None => false
  end.

Definition delivered (rs : gmap string (gset string)) (t : Target) (sid : string) : bool :=
  match t with
  | IoTo room => in_room rs room sid
  | SocketTo from room => in_room rs room sid && negb (String.eqb from sid)
  | SocketEmit s => String.eqb s sid && bool_decide (is_Some (rs !! sid))
  end.

(** Does socket [sid] receive an event named [ev] among [es]? *)
Definition receives (rs : gmap string (gset string)) (es : list Emit) (ev sid : string) : bool :=
  existsb (λ e, String.eqb (event e) ev && delivered rs (target e) sid) es.

(** ** Environment

    What a handler invocation cannot decide for itself: the clock, the
    identifiers Mongoose assigns to new documents, and which database
    calls reject. *)

Inductive DbOp :=
  | UserFindByIdAndUpdate | GroupChatFind | FriendshipFind
  | NotificationCountDocuments | ChatFindOne | ChatFindById | ChatSave
  | MessageSave | MessagePopulate | MessageFindById
  | NotificationSave | NotificationInsertMany | NotificationFindByIdAndUpdate
  | GroupChatFindById | GroupChatSave.

Record Env := {
  now : Z;
  newChatId : string;
  newMessageId : string;
  newNotificationId : nat → string;
  rejects : DbOp → bool;
  (** how many documents a rejecting [insertMany] wrote before it failed *)
  insertedBeforeReject : nat;
}.

(** ** The handler monad *)

Definition M (A : Type) : Type := World → World * list Emit * option A.

Definition ret {A} (a : A) : M A := λ w, (w, [], Some a).

Definition bind {A B} (m : M A) (k : A → M B) : M B := λ w,
  match m w with
  | (w1, es1, Some a) =>
      match k a w1 with (w2, es2, r) => (w2, es1 ++ es2, r) end
  | (w1, es1, None) => (w1, es1, None)
  end.

Definition throw {A} : M A := λ w, (w, [], None).

Definition try_catch (m : M unit) (handler : M unit) : M unit := λ w,
  match m w with
  | (w1, es1, Some _) => (w1, es1, Some tt)
  | (w1, es1, None) =>
      match handler w1 with (w2, es2, r) => (w2, es1 ++ es2, r) end
  end.

Definition gets {A} (f : World → A) : M A := λ w, (w, [], Some (f w)).
Definition modify (f : World → World) : M unit := λ w, (f w, [], Some tt).
Definition emit (t : Target) (ev : string) (p : Payload) : M unit :=
  λ w, (w, [ {| target := t; event := ev; payload := p |} ], Some tt).
Definition when (b : bool) (m : M unit) : M unit := if b then m else ret tt.

Fixpoint forEach {A} (l : list A) (f : A → M unit) : M unit :=
  match l with
  | [] => ret tt
  | x :: l' => bind (f x) (λ _, forEach l' f)
  end.

(** [await op m]: the database call [op], which rejects when the
    environment says so and otherwise behaves as [m]. *)
Definition await {A} (env : Env) (op : DbOp) (m : M A) : M A :=
  if rejects env op then throw else m.

(** What a handler leaves behind: the new state and the emitted events.
    An exception that escapes a handler is dropped. *)
Definition run (m : M unit) (w : World) : World * list Emit :=
  match m w with (w', es, _) => (w', es) end.

Declare Scope handler_scope.
Delimit Scope handler_scope with handler.
Notation "'let*' x ':=' m 'in' k" := (bind m (λ x, k))
  (at level 10, x name, m at level 100, k at level 200, only parsing) : handler_scope.
Notation "m ';;' k" := (bind m (λ _, k))
  (at level 100, k at level 200, right associativity, only parsing) : handler_scope.
Local Open Scope handler_scope.

(** ** Document methods and query helpers *)

Definition eqs (a b : string) : bool := String.eqb a b.

(** [GroupChatSchema.methods.hasMember] *)
Definition hasMember (g : GroupChatDoc) (userId : string) : bool :=
  existsb (λ member, eqs (member_user member) userId) (members g).

(** [ChatSchema.methods.hasParticipant] *)
Definition hasParticipant (c : ChatDoc) (userId : string) : bool :=
  existsb (λ participant, eqs participant userId) (participants c).

(** [ChatSchema.methods.getOtherParticipant] *)
Definition getOtherParticipant (c : ChatDoc) (userId : string) : option string :=
  List.find (λ participant, negb (eqs participant userId)) (participants c).

(** [MessageSchema.methods.isReadBy] *)
Definition isReadBy (m : MessageDoc) (userId : string) : bool :=
  existsb (λ read, eqs (read_user read) userId) (readBy m).

Definition with_readBy (m : MessageDoc) (rb : list ReadDoc) : MessageDoc :=
  {| message_id := message_id m; sender := sender m; content := content m;
     chatId := chatId m; chatType := chatType m; messageType := messageType m;
     mediaUrl := mediaUrl m; readBy := rb |}.

(** Replace the first document selected by [p]: what saving a loaded
    document, or [findByIdAndUpdate], does to a collection. *)
Fixpoint update_first {A} (p : A → bool) (f : A → A) (l : list A) : list A :=
  match l with
  | [] => []
  | x :: l' => if p x then f x :: l' else x :: update_first p f l'
  end.

(** JavaScript truthiness of a looked-up socket id: [undefined] and the
    empty string are falsy. *)
Definition truthy (o : option string) : bool :=
  match o with
  | Some s => negb (eqs s "")
  | None => false
  end.

(** [a || b] on an optional string *)
Definition or_else (a : option string) (b : string) : string :=
  match a with
  | Some s => if eqs s "" then b else s
  | None => b
  end.

(** An optional string as a condition, and [a || null]: [undefined] and
    the empty string are falsy. *)
Definition text_of (c : option string) : option string :=
  match c with
  | Some s => if eqs s "" then None else Some s
  | None => None
  end.

(** how a template literal prints an optional string *)
Definition template (a : option string) : string :=
  match a with
  | Some s => s
  | None => "undefined"
  end.

(** [String.prototype.trim], applied by the [trim: true] option of the
    Message schema. *)
Definition is_space (c : Ascii.ascii) : bool :=
  let n := Ascii.nat_of_ascii c in
  ((9 <=? n) && (n <=? 13) || (n =? 32) || (n =? 160))%nat.

Fixpoint trim_start (s : string) : string :=
  match s with
  | String c s' => if is_space c then trim_start s' else s
  | EmptyString => EmptyString
  end.

Definition trim (s : string) : string :=
  String.rev (trim_start (String.rev (trim_start s))).

(** the [enum] of [messageType] in the Message schema *)
Definition messageTypes : list string :=
  ["text"; "image"; "audio"; "video"; "file"; "system"].

Definition valid_messageType (t : string) : bool :=
  existsb (eqs t) messageTypes.

(** The queries of the handlers on the collections. *)

(** [Chat.findOne({ participants: { $all: [a, b] } })] *)
Definition Chat_findOne (a b : string) (cs : list ChatDoc) : option ChatDoc :=
  List.find (λ c, hasParticipant c a && hasParticipant c b) cs.

Definition Chat_findById (id : string) (cs : list ChatDoc) : option ChatDoc :=
  List.find (λ c, eqs (chat_id c) id) cs.

Definition GroupChat_findById (id : string) (gs : list GroupChatDoc) : option GroupChatDoc :=
  List.find (λ g, eqs (group_id g) id) gs.

Definition Message_findById (id : string) (ms : list MessageDoc) : option MessageDoc :=
  List.find (λ m, eqs (message_id m) id) ms.

Definition Notification_findById (id : string) (ns : list NotificationDoc)
    : option NotificationDoc :=
  List.find (λ n, eqs (notification_id n) id) ns.

(** The accepted friends of [userId], as every handler computes them
    from [Friendship.find]. *)
Definition friendIdsOf (userId : string) (fs : list FriendshipDoc) : list string :=
  map (λ friendship,
         if eqs (requester friendship) userId
         then friendship_recipient friendship
         else requester friendship)
      (List.filter (λ friendship,
         (eqs (requester friendship) userId || eqs (friendship_recipient friendship) userId)
         && eqs (friendship_status friendship) "accepted") fs).

(** The text of the notification written for an absent recipient. *)
Definition ellipsis (content : string) : string :=
  if (30 <? String.length content)%nat then "..." else "".

Definition private_notification_content
    (uname : string) (content messageType : option string) : string :=
  match content with
  | Some c =>
      if eqs c "" then uname +:+ " sent you a " +:+ template messageType
      else uname +:+ " sent you a message: " +:+ String.substring 0 30 c +:+ ellipsis c
  | None => uname +:+ " sent you a " +:+ template messageType
  end.

Definition group_notification_content
    (uname gname : string) (content messageType : option string) : string :=
  match content with
  | Some c =>
      if eqs c "" then
        uname +:+ " sent a " +:+ template messageType +:+ " in " +:+ gname
      else
        uname +:+ " sent a message in " +:+ gname +:+ ": "
              +:+ String.substring 0 30 c +:+ ellipsis c
  | None => uname +:+ " sent a " +:+ template messageType +:+ " in " +:+ gname
  end.

(** The update [{ isRead: true, readAt: new Date() }] of a notification. *)
Definition read_update (env : Env) (n : NotificationDoc) : NotificationDoc :=
  {| notification_id := notification_id n; recipient := recipient n;
     notification_sender := notification_sender n;
     notification_type := notification_type n;
     notification_content := notification_content n;
     relatedChatId := relatedChatId n; relatedChatType := relatedChatType n;
     relatedMessageId := relatedMessageId n;
     isRead := true; notification_readAt := Some (now env) |}.

(** ** The handlers of [socketHandler] *)

(** The [socket] a handler closes over: its id and the user attached by
    the authentication middleware. *)
Record Socket := {
  socket_id : string;
  socket_user_id : string;
  socket_username : string;
}.

Section Handlers.
Variable env : Env.
Variable socket : Socket.

Let sid := socket_id socket.
Let me := socket_user_id socket.

(** [socket.join(room)] and [socket.leave(room)] *)
Definition join (room : string) : M unit :=
  modify (set_rooms (alter (λ joined, {[ room ]} ∪ joined) sid)).

Definition leave (room : string) : M unit :=
  modify (set_rooms (alter (λ joined, joined ∖ {[ room ]}) sid)).

(** [const s = activeUsers.get(id); if (s) { k(s) }] *)
Definition if_active (userId : string) (k : string → M unit) : M unit :=
  let* found := gets (λ w, activeUsers w !! userId) in
  match found with
  | Some s => when (truthy (Some s)) (k s)
  | None => ret tt
  end.

(** The loop that tells every reachable friend about a status. *)
Definition broadcast_status (friendIds : list string) (st : string) (seen : option Z) : M unit :=
  forEach friendIds (λ friendId,
    if_active friendId (λ friendSocketId,
      emit (IoTo friendSocketId) "user-status-change"
           (PStatusChange me (socket_username socket) st seen))).

Definition update_user (f : UserDoc → UserDoc) : M unit :=
  await env UserFindByIdAndUpdate (modify (set_users (alter f me))).

Definition find_friendIds : M (list string) :=
  await env FriendshipFind (gets (λ w, friendIdsOf me (friendships w))).

(** [io.on('connection', ...)]: Socket.IO has registered the socket
    (in the room of its own id) before the callback runs. *)
Definition on_connection : M unit :=
  modify (set_rooms (<[ sid := ∅ ]>));;
  try_catch
    (update_user (λ u, {| username := username u; status := "online";
                          lastSeen := now env; socketId := Some sid |});;
     modify (set_activeUsers (<[ me := sid ]>));;
     join me;;
     let* groupChats :=
       await env GroupChatFind
         (gets (λ w, List.filter (λ g, hasMember g me) (groups w))) in
     forEach groupChats (λ group, join ("group:" +:+ group_id group));;
     let* friendIds := find_friendIds in
     broadcast_status friendIds "online" None;;
     let* activeFriendIds :=
       gets (λ w, List.filter
                    (λ id, bool_decide (is_Some (activeUsers w !! id))) friendIds) in
     emit (SocketEmit sid) "active-friends" (PActiveFriends activeFriendIds);;
     let* unreadCount :=
       await env NotificationCountDocuments
         (gets (λ w, length (List.filter
                               (λ n, eqs (recipient n) me && negb (isRead n))
                               (notifications w)))) in
     emit (SocketEmit sid) "unread-notifications-count" (PCount unreadCount))
    (ret tt).

(** [new Message({...})] as both send handlers build it; the schema
    trims the content. The sender has read the message. *)
Definition new_message
    (content_ mediaUrl_ messageType_ : option string) (chat kind : string) : MessageDoc :=
  {| message_id := newMessageId env; sender := me;
     content := trim (or_else content_ ""); chatId := chat;
     chatType := kind; messageType := or_else messageType_ "text";
     mediaUrl := text_of mediaUrl_;
     readBy := [ {| read_user := me; readAt := now env |} ] |}.

(** [await message.save()] of a new message: the schema's [enum] on
    [messageType] is validated first. *)
Definition save_message (message : MessageDoc) : M unit :=
  await env MessageSave
    (if valid_messageType (messageType message)
     then modify (set_messages (λ ms, ms ++ [message]))
     else throw).

(** [new Notification({...})] of the private handler *)
Definition private_notification
    (recipientId : string) (content_ messageType_ : option string)
    (chat : ChatDoc) (message : MessageDoc) : NotificationDoc :=
  {| notification_id := newNotificationId env 0;
     recipient := recipientId; notification_sender := me;
     notification_type := "message";
     notification_content :=
       private_notification_content (socket_username socket) content_ messageType_;
     relatedChatId := chat_id chat; relatedChatType := "Chat";
     relatedMessageId := message_id message;
     isRead := false; notification_readAt := None |}.

(** The chat the private handler goes on with: a new one between the
    two users when none was found, else the one found; either way with
    [lastActivity] set to now. *)
Definition chat_for (recipientId : string) (found : option ChatDoc) : ChatDoc :=
  match found with
  | None => {| chat_id := newChatId env; participants := [me; recipientId];
               chat_lastActivity := now env |}
  | Some c => {| chat_id := chat_id c; participants := participants c;
                 chat_lastActivity := now env |}
  end.

(** [await chat.save()]: an insert for a new chat, an update in place
    for a loaded one. *)
Definition save_chat (found : option ChatDoc) (chat : ChatDoc)
    (cs : list ChatDoc) : list ChatDoc :=
  match found with
  | None => cs ++ [chat]
  | Some c => update_first (λ d, eqs (chat_id d) (chat_id c)) (λ _, chat) cs
  end.

(** [group.lastActivity = Date.now()] *)
Definition touch_group (g : GroupChatDoc) : GroupChatDoc :=
  {| group_id := group_id g; group_name := group_name g;
     members := members g; group_lastActivity := now env |}.

(** [socket.on('send-private-message', ...)] *)
Definition on_send_private_message
    (recipientId : string) (content mediaUrl messageType : option string) : M unit :=
  try_catch
    (let senderId := me in
     let* found :=
       await env ChatFindOne
         (gets (λ w, Chat_findOne senderId recipientId (chats w))) in
     let chat := chat_for recipientId found in
     await env ChatSave (modify (set_chats (save_chat found chat)));;
     let message := new_message content mediaUrl messageType (chat_id chat) "Chat" in
     save_message message;;
     await env MessagePopulate (ret tt);;
     let* recipientSocketId := gets (λ w, activeUsers w !! recipientId) in
     when (truthy recipientSocketId)
       (emit (IoTo (default "" recipientSocketId)) "receive-private-message"
             (PPrivateMessage message (chat_id chat) (participants chat)));;
     when (negb (truthy recipientSocketId))
       (let notification :=
          private_notification recipientId content messageType chat message in
        await env NotificationSave
          (modify (set_notifications (λ ns, ns ++ [notification]))));;
     emit (SocketEmit sid) "private-message-sent" (PMessageSent message (chat_id chat)))
    (emit (SocketEmit sid) "message-error" (PError "Failed to send message")).

(** The notification documents handed to [Notification.insertMany]. *)
Definition group_notifications
    (groupId : string) (group : GroupChatDoc) (message : MessageDoc)
    (content messageType : option string) (offlineMembers : list string)
    : list NotificationDoc :=
  imap (λ i memberId,
          {| notification_id := newNotificationId env i;
             recipient := memberId; notification_sender := me;
             notification_type := "message";
             notification_content :=
               group_notification_content (socket_username socket) (group_name group)
                                          content messageType;
             relatedChatId := groupId; relatedChatType := "GroupChat";
             relatedMessageId := message_id message;
             isRead := false; notification_readAt := None |})
       offlineMembers.

(** [group.members.filter(not the sender, not active).map(member => member.user)] *)
Definition offline_members (w : World) (group : GroupChatDoc) : list string :=
  map member_user
      (List.filter (λ member,
         negb (eqs (member_user member) me)
         && negb (bool_decide (is_Some (activeUsers w !! member_user member))))
         (members group)).

(** [socket.on('send-group-message', ...)] *)
Definition on_send_group_message
    (groupId : string) (content mediaUrl messageType : option string) : M unit :=
  try_catch
    (let senderId := me in
     let* found :=
       await env GroupChatFindById
         (gets (λ w, GroupChat_findById groupId (groups w))) in
     match found with
     | None => emit (SocketEmit sid) "message-error" (PError "Group not found")
     | Some g =>
         if negb (hasMember g senderId) then
           emit (SocketEmit sid) "message-error" (PError "Not a member of this group")
         else
           let group := touch_group g in
           await env GroupChatSave
             (modify (set_groups (update_first (λ d, eqs (group_id d) (group_id g))
                                               (λ _, group))));;
           let message := new_message content mediaUrl messageType groupId "GroupChat" in
           save_message message;;
           await env MessagePopulate (ret tt);;
           emit (IoTo ("group:" +:+ groupId)) "receive-group-message"
                (PGroupMessage message (group_id group) (group_name group));;
           let* offlineMembers := gets (λ w, offline_members w group) in
           when (0 <? length offlineMembers)%nat
             (let notifications :=
                group_notifications groupId group message content messageType
                                    offlineMembers in
              if rejects env NotificationInsertMany then
                modify (set_notifications
                          (λ ns, ns ++ take (insertedBeforeReject env) notifications));;
                throw
              else
                modify (set_notifications (λ ns, ns ++ notifications)));;
           emit (SocketEmit sid) "group-message-sent" (PMessageSent message groupId)
     end)
    (emit (SocketEmit sid) "message-error" (PError "Failed to send message")).

(** [socket.on('typing-start', ...)] *)
Definition on_typing_start (chatId_ chatType_ : string) : M unit :=
  if eqs chatType_ "Chat" then
    try_catch
      (let* found :=
         await env ChatFindById
           (gets (λ w, Chat_findById chatId_ (chats w))) in
       match found with
       | None => ret tt
       | Some chat =>
           match List.find (λ id, negb (eqs id me)) (participants chat) with
           | Some otherUserId =>
               if_active otherUserId (λ otherUserSocketId,
                 emit (IoTo otherUserSocketId) "typing"
                      (PTyping chatId_ me (socket_username socket)))
           | None => ret tt
           end
       end)
      (ret tt)
  else if eqs chatType_ "GroupChat" then
    emit (SocketTo sid ("group:" +:+ chatId_)) "typing"
         (PTyping chatId_ me (socket_username socket))
  else ret tt.

(** [socket.on('mark-as-read', ...)] *)
Definition on_mark_as_read (messageId : string) : M unit :=
  try_catch
    (let userId := me in
     let* found :=
       await env MessageFindById
         (gets (λ w, Message_findById messageId (messages w))) in
     match found with
     | None => emit (SocketEmit sid) "error" (PErrorMessage "Message not found")
     | Some message =>
         let alreadyRead :=
           existsb (λ read, eqs (read_user read) userId) (readBy message) in
         when (negb alreadyRead)
           (let message' :=
              with_readBy message
                (readBy message ++ [ {| read_user := userId; readAt := now env |} ]) in
            await env MessageSave
              (modify (set_messages
                         (update_first (λ m, eqs (message_id m) (message_id message))
                                       (λ _, message'))));;
            if_active (sender message) (λ senderSocketId,
              emit (IoTo senderSocketId) "message-read"
                   (PMessageRead messageId userId (socket_username socket) (now env))))
     end)
    (ret tt).

(** The update [{ status, lastSeen: status === 'offline' ? Date.now() :
    undefined }] applied to a user document; an [undefined] field is left
    as it is. *)
Definition status_update (status_ : string) (u : UserDoc) : UserDoc :=
  {| username := username u; status := status_;
     lastSeen := if eqs status_ "offline" then now env else lastSeen u;
     socketId := socketId u |}.

(** the statuses the handler accepts *)
Definition valid_status (status_ : string) : bool :=
  existsb (eqs status_) ["online"; "away"; "offline"].

(** [socket.on('set-status', ...)] *)
Definition on_set_status (status_ : string) : M unit :=
  try_catch
    (if negb (valid_status status_) then
       emit (SocketEmit sid) "error" (PErrorMessage "Invalid status")
     else
       update_user (status_update status_);;
       let* friendIds := find_friendIds in
       broadcast_status friendIds status_
         (if eqs status_ "offline" then Some (now env) else None))
    (ret tt).

(** [socket.on('join-group', ...)] *)
Definition on_join_group (groupId : string) : M unit :=
  try_catch
    (let* found :=
       await env GroupChatFindById
         (gets (λ w, GroupChat_findById groupId (groups w))) in
     match found with
     | None => emit (SocketEmit sid) "error" (PErrorMessage "Group not found")
     | Some group =>
         if negb (hasMember group me) then
           emit (SocketEmit sid) "error" (PErrorMessage "Not a member of this group")
         else
           join ("group:" +:+ groupId);;
           emit (SocketEmit sid) "joined-group" (PGroupId groupId)
     end)
    (emit (SocketEmit sid) "error" (PErrorMessage "Failed to join group")).

(** [socket.on('leave-group', ...)] *)
Definition on_leave_group (groupId : string) : M unit :=
  try_catch
    (leave ("group:" +:+ groupId);;
     emit (SocketEmit sid) "left-group" (PGroupId groupId))
    (ret tt).

(** [socket.on('notification-read', ...)] *)
Definition on_notification_read (notificationId : string) : M unit :=
  try_catch
    (await env NotificationFindByIdAndUpdate
       (modify (set_notifications
                  (update_first
                     (λ n, eqs (notification_id n) notificationId)
                     (read_update env)))))
    (ret tt).

(** [socket.on('disconnect', ...)]: Socket.IO has already taken the
    socket out of every room when the callback runs. *)
Definition on_disconnect : M unit :=
  modify (set_rooms (delete sid));;
  try_catch
    (update_user (λ u, {| username := username u; status := "offline";
                          lastSeen := now env; socketId := None |});;
     modify (set_activeUsers (delete me));;
     let* friendIds := find_friendIds in
     broadcast_status friendIds "offline" (Some (now env)))
    (ret tt).
End Handlers.

(** [MessageSchema.methods.markAsRead]: the document after the call, and
    whether it was saved. *)
Definition markAsRead (at_ : Z) (this : MessageDoc) (userId : string) : MessageDoc * bool :=
  let alreadyRead := existsb (λ read, eqs (read_user read) userId) (readBy this) in
  if negb alreadyRead
  then (with_readBy this (readBy this ++ [ {| read_user := userId; readAt := at_ |} ]), true)
  else (this, false).

(** ** Client events and traces *)

Inductive ClientEvent :=
  | Connection
  | SendPrivateMessage (recipientId : string) (content mediaUrl messageType : option string)
  | SendGroupMessage (groupId : string) (content mediaUrl messageType : option string)
  | TypingStart (chatId chatType : string)
  | MarkAsRead (messageId : string)
  | SetStatus (status : string)
  | JoinGroup (groupId : string)
  | LeaveGroup (groupId : string)
  | NotificationRead (notificationId : string)
  | Disconnect.

Definition handler (env : Env) (socket : Socket) (ev : ClientEvent) : M unit :=
  match ev with
  | Connection => on_connection env socket
  | SendPrivateMessage r c u t => on_send_private_message env socket r c u t
  | SendGroupMessage g c u t => on_send_group_message env socket g c u t
  | TypingStart c t => on_typing_start env socket c t
  | MarkAsRead m => on_mark_as_read env socket m
  | SetStatus s => on_set_status env socket s
  | JoinGroup g => on_join_group env socket g
  | LeaveGroup g => on_leave_group socket g
  | NotificationRead n => on_notification_read env n
  | Disconnect => on_disconnect env socket
  end.

Definition step (env : Env) (socket : Socket) (ev : ClientEvent) (w : World)
    : World * list Emit :=
  run (handler env socket ev) w.

(** Run a sequence of client events, keeping only the state. *)
Fixpoint steps (trace : list (Env * Socket * ClientEvent)) (w : World) : World :=
  match trace with
  | [] => w
  | (env, socket, ev) :: trace' => steps trace' (step env socket ev w).1
  end.

(** ** Observations on a handler run *)

Definition target_eqb (a b : Target) : bool :=
  match a, b with
  | IoTo r, IoTo r' => eqs r r'
  | SocketTo s r, SocketTo s' r' => eqs s s' && eqs r r'
  | SocketEmit s, SocketEmit s' => eqs s s'
  | _, _ => false
  end.

(** An event named [ev] was emitted with exactly the target [t]. *)
Definition emitted (es : list Emit) (ev : string) (t : Target) : bool :=
  existsb (λ e, eqs (event e) ev && target_eqb (target e) t) es.

(** An event named [ev] was emitted to the handle that [activeUsers]
    holds for [userId]. *)
Definition emitted_to_handle (w : World) (es : list Emit) (ev userId : string) : bool :=
  match activeUsers w !! userId with
  | Some s => emitted es ev (IoTo s)
  | None => false
  end.

(** An event named [ev] reaches the connection that [activeUsers] holds
    for [userId]. *)
Definition live (w : World) (es : list Emit) (ev userId : string) : bool :=
  match activeUsers w !! userId with
  | Some s => receives (rooms w) es ev s
  | None => false
  end.

(** The notifications a run added to the collection. *)
Definition new_notifications (before after : World) : list NotificationDoc :=
  drop (length (notifications before)) (notifications after).

Definition notified (before after : World) (userId : string) : bool :=
  existsb (λ n, eqs (recipient n) userId) (new_notifications before after).

(** How many read receipts of [userId] a message carries. *)
Definition count_reads (userId : string) (m : MessageDoc) : nat :=
  length (List.filter (λ read, eqs (read_user read) userId) (readBy m)).

(** [c] cut to its first 30 code units, with the ellipsis marker. *)
Definition truncated (c : string) : string :=
  String.substring 0 30 c +:+ ellipsis c.

(** ** A concrete deployment

    Four users, a group of three of them, and one friendship; used to
    run the handlers on concrete inputs. *)
Module Scenario.
(** an environment at clock [t] in which the calls selected by [bad]
    reject; a rejecting [insertMany] has written nothing *)
Definition at_time (t : Z) (bad : DbOp → bool) : Env :=
  {| now := t; newChatId := "chat1"; newMessageId := "msg1";
     newNotificationId := λ i, "notif" +:+ pretty i;
     rejects := bad; insertedBeforeReject := 0 |}.

(** no call rejects *)
Definition quiet : Env := at_time 1000 (λ _, false).

Definition notification_writes_fail (op : DbOp) : bool :=
  match op with
  | NotificationSave | NotificationInsertMany => true
  | _ => false
  end.

Definition activity_saves_fail (op : DbOp) : bool :=
  match op with
  | ChatSave | GroupChatSave => true
  | _ => false
  end.

Definition message_save_fails (op : DbOp) : bool :=
  match op with
  | MessageSave => true
  | _ => false
  end.

Definition user (name : string) : UserDoc :=
  {| username := name; status := "offline"; lastSeen := 0; socketId := None |}.

Definition team : GroupChatDoc :=
  {| group_id := "g"; group_name := "Team";
     members := [ {| member_user := "alice"; member_role := "admin" |};
                  {| member_user := "bob"; member_role := "member" |};
                  {| member_user := "carol"; member_role := "member" |} ];
     group_lastActivity := 0 |}.

Definition initial : World :=
  {| activeUsers := ∅; rooms := ∅;
     users := {[ "alice" := user "Alice"; "bob" := user "Bob";
                 "carol" := user "Carol"; "dave" := user "Dave" ]};
     chats := []; groups := [ team ]; messages := []; notifications := [];
     friendships := [ {| requester := "alice"; friendship_recipient := "bob";
                         friendship_status := "accepted" |} ] |}.

Definition alice_socket : Socket :=
  {| socket_id := "sA"; socket_user_id := "alice"; socket_username := "Alice" |}.
Definition bob_socket : Socket :=
  {| socket_id := "sB"; socket_user_id := "bob"; socket_username := "Bob" |}.
Definition bob_socket2 : Socket :=
  {| socket_id := "sB2"; socket_user_id := "bob"; socket_username := "Bob" |}.
Definition carol_socket : Socket :=
  {| socket_id := "sC"; socket_user_id := "carol"; socket_username := "Carol" |}.
Definition dave_socket : Socket :=
  {| socket_id := "sD"; socket_user_id := "dave"; socket_username := "Dave" |}.

(** Only Alice is connected. *)
Definition alice_online : World :=
  steps [ (quiet, alice_socket, Connection) ] initial.

(** Alice and Bob are connected; Carol is not. *)
Definition two_online : World :=
  steps [ (quiet, alice_socket, Connection); (quiet, bob_socket, Connection) ] initial.

(** Bob has then sent leave-group for the team. *)
Definition bob_left_room : World :=
  steps [ (quiet, bob_socket, LeaveGroup "g") ] two_online.

(** Bob opened a second connection, then the first one closed. *)
Definition bob_reconnected : World :=
  steps [ (quiet, bob_socket2, Connection) ] two_online.

(** Alice has sent Bob a private message while both were connected. *)
Definition after_hello : World :=
  steps [ (quiet, alice_socket, SendPrivateMessage "bob" (Some "hello") None None) ]
        two_online.

(** Dave, who is neither in that chat nor in the team, has connected
    afterwards. *)
Definition dave_arrived : World :=
  steps [ (quiet, dave_socket, Connection) ] after_hello.

(** Alice has sent Carol a private message while Carol was away. *)
Definition carol_notified : World :=
  steps [ (quiet, alice_socket, SendPrivateMessage "carol" (Some "ping") None None) ]
        two_online.
End Scenario.

(** ** The remaining handlers of [socketHandler]

    The typing-end, mark-all-as-read and friend-request-accepted handlers
    emit events that the handlers above do not; they are written with
    explicit state passing over an event type of their own. *)

Inductive RelayPayload :=
  | PStopTyping (chat userId : string)
  | PMessagesReadAll (chat kind userId uname : string) (at_ : Z)
  | PMarkedAllAsRead (chat kind : string)
  | PFriendAccepted (userId uname : string).

Record RelayEmit := {
  relay_target : Target;
  relay_event : string;
  relay_payload : RelayPayload;
}.

Definition relay_receives (rs : gmap string (gset string)) (es : list RelayEmit)
    (ev sid : string) : bool :=
  existsb (λ e, String.eqb (relay_event e) ev && delivered rs (relay_target e) sid) es.

(** [socket.on('typing-end', ...)]: the events it emits; it has no other
    effect. *)
Definition on_typing_end (env : Env) (socket : Socket) (chatId_ chatType_ : string)
    (w : World) : list RelayEmit :=
  if eqs chatType_ "Chat" then
    if rejects env ChatFindById then []
    else
      match Chat_findById chatId_ (chats w) with
      | None => []
      | Some chat =>
          match List.find (λ id, negb (eqs id (socket_user_id socket)))
                          (participants chat) with
          | Some otherUserId =>
              match activeUsers w !! otherUserId with
              | Some otherUserSocketId =>
                  if truthy (Some otherUserSocketId) then
                    [ {| relay_target := IoTo otherUserSocketId;
                         relay_event := "stop-typing";
                         relay_payload := PStopTyping chatId_ (socket_user_id socket) |} ]
                  else []
              | None => []
              end
          | None => []
          end
      end
  else if eqs chatType_ "GroupChat" then
    [ {| relay_target := SocketTo (socket_id socket) ("group:" +:+ chatId_);
         relay_event := "stop-typing";
         relay_payload := PStopTyping chatId_ (socket_user_id socket) |} ]
  else [].

(** The query [{ chatId, chatType, sender: { $ne: userId },
    'readBy.user': { $ne: userId } }] on messages. *)
Definition unread_in (userId chatId_ chatType_ : string) (m : MessageDoc) : bool :=
  eqs (chatId m) chatId_ && eqs (chatType m) chatType_
  && negb (eqs (sender m) userId) && negb (isReadBy m userId).

(** [{ $push: { readBy: { user, readAt } } }] *)
Definition push_read (userId : string) (at_ : Z) (m : MessageDoc) : MessageDoc :=
  with_readBy m (readBy m ++ [ {| read_user := userId; readAt := at_ |} ]).

(** [Promise.all(unreadMessages.map(m => Message.findByIdAndUpdate(m._id,
    { $push: ... })))]: every update is issued; those that do not reject
    are applied. *)
Definition push_read_all (rejected : string → bool) (userId : string) (at_ : Z)
    (unreadMessages ms : list MessageDoc) : list MessageDoc :=
  fold_left
    (λ acc message,
       if rejected (message_id message) then acc
       else update_first (λ d, eqs (message_id d) (message_id message))
                         (push_read userId at_) acc)
    unreadMessages ms.

(** [[...new Set(l)]]: the first occurrences, in order. *)
Fixpoint unique_from (seen l : list string) : list string :=
  match l with
  | [] => []
  | x :: l' =>
      if existsb (eqs x) seen then unique_from seen l'
      else x :: unique_from (x :: seen) l'
  end.

Definition unique (l : list string) : list string := unique_from [] l.

(** Which calls of mark-all-as-read reject: [Message.find], and
    [Message.findByIdAndUpdate] by message id. *)
Record BatchEnv := {
  find_rejects : bool;
  update_rejects : string → bool;
}.

(** [socket.on('mark-all-as-read', ...)] *)
Definition on_mark_all_as_read (env : Env) (batch : BatchEnv) (socket : Socket)
    (chatId_ chatType_ : string) (w : World) : World * list RelayEmit :=
  let userId := socket_user_id socket in
  if find_rejects batch then (w, [])
  else
    let unreadMessages := List.filter (unread_in userId chatId_ chatType_) (messages w) in
    let w1 := set_messages
                (push_read_all (update_rejects batch) userId (now env) unreadMessages) w in
    if existsb (λ m, update_rejects batch (message_id m)) unreadMessages then (w1, [])
    else
      let uniqueSenders := unique (map sender unreadMessages) in
      (w1,
       flat_map
         (λ senderId,
            match activeUsers w1 !! senderId with
            | Some senderSocketId =>
                if truthy (Some senderSocketId) then
                  [ {| relay_target := IoTo senderSocketId;
                       relay_event := "messages-read-all";
                       relay_payload :=
                         PMessagesReadAll chatId_ chatType_ userId
                                          (socket_username socket) (now env) |} ]
                else []
            | None => []
            end)
         uniqueSenders
       ++ [ {| relay_target := SocketEmit (socket_id socket);
               relay_event := "marked-all-as-read";
               relay_payload := PMarkedAllAsRead chatId_ chatType_ |} ]).

(** [socket.on('friend-request-accepted', ...)]: the event it emits; it
    has no other effect. *)
Definition on_friend_request_accepted (socket : Socket) (friendId : string) (w : World)
    : list RelayEmit :=
  match activeUsers w !! friendId with
  | Some friendSocketId =>
      if truthy (Some friendSocketId) then
        [ {| relay_target := IoTo friendSocketId;
             relay_event := "friend-request-accepted";
             relay_payload := PFriendAccepted (socket_user_id socket)
                                              (socket_username socket) |} ]
      else []
  | None => []
  end.

(** ** Every handler of [socketHandler]

    The connection handler and the twelve listeners it registers on the
    socket: the ten of [ClientEvent] and the three above. *)
Inductive SocketEvent :=
  | Client (ev : ClientEvent)
  | TypingEnd (chatId_ chatType_ : string)
  | MarkAllAsRead (chatId_ chatType_ : string)
  | FriendRequestAccepted (friendId : string).

(** an emitted event of either kind *)
Inductive Sent :=
  | Plain (e : Emit)
  | Relayed (e : RelayEmit).

(** One event of any kind, handled to the end. *)
Definition react (env : Env) (batch : BatchEnv) (socket : Socket) (ev : SocketEvent)
    (w : World) : World * list Sent :=
  match ev with
  | Client ev => ((step env socket ev w).1, map Plain (step env socket ev w).2)
  | TypingEnd chatId_ chatType_ =>
      (w, map Relayed (on_typing_end env socket chatId_ chatType_ w))
  | MarkAllAsRead chatId_ chatType_ =>
      ((on_mark_all_as_read env batch socket chatId_ chatType_ w).1,
       map Relayed (on_mark_all_as_read env batch socket chatId_ chatType_ w).2)
  | FriendRequestAccepted friendId =>
      (w, map Relayed (on_friend_request_accepted socket friendId w))
  end.

(** Run a sequence of events of any kind, keeping only the state. *)
Fixpoint reacts (trace : list (Env * BatchEnv * Socket * SocketEvent)) (w : World)
    : World :=
  match trace with
  | [] => w
  | (env, batch, socket, ev) :: trace' => reacts trace' (react env batch socket ev w).1
  end.

(** ** Further methods of the models *)

(** [MessageSchema.methods.getReadByUsers] *)
Definition getReadByUsers (m : MessageDoc) : list string :=
  map read_user (readBy m).

(** [GroupChatSchema.methods.isAdmin], [isModerator] and [getMemberRole];
    the [admin] field of the group document is passed in. *)
Definition isAdmin (admin : string) (g : GroupChatDoc) (userId : string) : bool :=
  existsb (λ member, eqs (member_user member) userId && eqs (member_role member) "admin")
          (members g)
  || eqs admin userId.

Definition isModerator (admin : string) (g : GroupChatDoc) (userId : string) : bool :=
  existsb (λ member,
             eqs (member_user member) userId
             && (eqs (member_role member) "admin" || eqs (member_role member) "moderator"))
          (members g)
  || eqs admin userId.

Definition getMemberRole (g : GroupChatDoc) (userId : string) : option string :=
  member_role <$> List.find (λ member, eqs (member_user member) userId) (members g).

(** [{ isRead: true, readAt }] set on a notification *)
Definition read_at (at_ : Z) (n : NotificationDoc) : NotificationDoc :=
  {| notification_id := notification_id n; recipient := recipient n;
     notification_sender := notification_sender n;
     notification_type := notification_type n;
     notification_content := notification_content n;
     relatedChatId := relatedChatId n; relatedChatType := relatedChatType n;
     relatedMessageId := relatedMessageId n;
     isRead := true; notification_readAt := Some at_ |}.

(** the filter [{ recipient: userId, isRead: false }] *)
Definition unread_for (userId : string) (n : NotificationDoc) : bool :=
  eqs (recipient n) userId && negb (isRead n).

(** [NotificationSchema.statics.markAllAsRead]: [updateMany] of the
    user's unread notifications. *)
Definition Notification_markAllAsRead (at_ : Z) (userId : string)
    (ns : list NotificationDoc) : list NotificationDoc :=
  map (λ n, if unread_for userId n then read_at at_ n else n) ns.

(** [NotificationSchema.statics.getUnreadCount] *)
Definition Notification_getUnreadCount (userId : string) (ns : list NotificationDoc) : nat :=
  length (List.filter (unread_for userId) ns).

(** ** The REST controllers for notifications and read receipts

    The controllers of [src/controllers/notification-controller.js] that
    a request can reach and write with, and [markMessageAsRead] of the
    message controller. A controller maps the state to a new state and
    the response it sends. *)

Inductive Outcome := Resolves | RejectsObjectId | RejectsOther.

Inductive RestOp :=
  | NotificationFindById | NotificationSaveDoc | NotificationUpdateMany
  | NotificationFindByIdAndDelete
  | RestMessageFindById | RestChatFindById | RestGroupChatFindById
  | RestMessageSave.

(** The request: the authenticated user, the clock, and how each database
    call ends ([error.kind === 'ObjectId'] is told apart in the catch). *)
Record Request := {
  req_user_id : string;
  req_now : Z;
  req_outcome : RestOp → Outcome;
}.

Inductive Body :=
  | BMessage (message : string)
  | BNotification (notification : NotificationDoc).

Record Response := {
  res_status : nat;
  res_success : bool;
  res_body : Body;
}.

Definition failure (code : nat) (message : string) : Response :=
  {| res_status := code; res_success := false; res_body := BMessage message |}.

Definition ok (body : Body) : Response :=
  {| res_status := 200; res_success := true; res_body := body |}.

(** [await op] inside a controller whose catch answers 404 [not_found]
    for an ObjectId error and 500 [server_error] otherwise. *)
Definition awaiting (req : Request) (op : RestOp) (not_found server_error : string)
    (w : World) (k : World * Response) : World * Response :=
  match req_outcome req op with
  | Resolves => k
  | RejectsObjectId => (w, failure 404 not_found)
  | RejectsOther => (w, failure 500 server_error)
  end.

(** [markAsRead] of the notification controller *)
Definition controller_markAsRead (req : Request) (id : string) (w : World)
    : World * Response :=
  let not_found := "Notification not found" in
  let server_error := "Server error while marking notification as read" in
  awaiting req NotificationFindById not_found server_error w
    match Notification_findById id (notifications w) with
    | None => (w, failure 404 not_found)
    | Some notification =>
        if negb (eqs (recipient notification) (req_user_id req)) then
          (w, failure 403 "Not authorized to access this notification")
        else if isRead notification then (w, ok (BNotification notification))
        else
          let notification' := read_at (req_now req) notification in
          awaiting req NotificationSaveDoc not_found server_error w
            (set_notifications
               (update_first (λ d, eqs (notification_id d) (notification_id notification))
                             (λ _, notification')) w,
             ok (BNotification notification'))
    end.

(** [markAllAsRead] of the notification controller; every rejection is
    answered with 500. The answer also carries [count: result.nModified],
    a field of the driver's result that the response here leaves out. *)
Definition controller_markAllAsRead (req : Request) (w : World) : World * Response :=
  match req_outcome req NotificationUpdateMany with
  | Resolves =>
      (set_notifications (Notification_markAllAsRead (req_now req) (req_user_id req)) w,
       ok (BMessage "All notifications marked as read"))
  | _ => (w, failure 500 "Server error while marking notifications as read")
  end.

(** [Notification.findByIdAndDelete] *)
Fixpoint delete_first {A} (p : A → bool) (l : list A) : list A :=
  match l with
  | [] => []
  | x :: l' => if p x then l' else x :: delete_first p l'
  end.

(** [deleteNotification] of the notification controller *)
Definition controller_deleteNotification (req : Request) (id : string) (w : World)
    : World * Response :=
  let not_found := "Notification not found" in
  let server_error := "Server error while deleting notification" in
  awaiting req NotificationFindById not_found server_error w
    match Notification_findById id (notifications w) with
    | None => (w, failure 404 not_found)
    | Some notification =>
        if negb (eqs (recipient notification) (req_user_id req)) then
          (w, failure 403 "Not authorized to delete this notification")
        else
          awaiting req NotificationFindByIdAndDelete not_found server_error w
            (set_notifications (delete_first (λ d, eqs (notification_id d) id)) w,
             ok (BMessage "Notification deleted successfully"))
    end.

(** The access check of [markMessageAsRead]: a participant of the chat,
    or a member of the group; with how the lookup ended. Ids are compared
    as strings, as everywhere in this model. *)
Definition has_access (req : Request) (chatType_ chatId_ : string) (w : World)
    : Outcome * bool :=
  if eqs chatType_ "Chat" then
    match req_outcome req RestChatFindById with
    | Resolves =>
        (Resolves,
         match Chat_findById chatId_ (chats w) with
         | Some chat => existsb (λ p, eqs p (req_user_id req)) (participants chat)
         | None => false
         end)
    | rejected => (rejected, false)
    end
  else if eqs chatType_ "GroupChat" then
    match req_outcome req RestGroupChatFindById with
    | Resolves =>
        (Resolves,
         match GroupChat_findById chatId_ (groups w) with
         | Some groupChat => hasMember groupChat (req_user_id req)
         | None => false
         end)
    | rejected => (rejected, false)
    end
  else (Resolves, false).

(** [markMessageAsRead] of the message controller *)
Definition controller_markMessageAsRead (req : Request) (id : string) (w : World)
    : World * Response :=
  let not_found := "Message not found" in
  let server_error := "Server error while marking message as read" in
  awaiting req RestMessageFindById not_found server_error w
    match Message_findById id (messages w) with
    | None => (w, failure 404 not_found)
    | Some message =>
        match has_access req (chatType message) (chatId message) w with
        | (RejectsObjectId, _) => (w, failure 404 not_found)
        | (RejectsOther, _) => (w, failure 500 server_error)
        | (Resolves, false) => (w, failure 403 "Not authorized to access this message")
        | (Resolves, true) =>
            if isReadBy message (req_user_id req) then
              (w, ok (BMessage "Message already marked as read"))
            else
              awaiting req RestMessageSave not_found server_error w
                (set_messages
                   (update_first (λ d, eqs (message_id d) (message_id message))
                                 (λ _, push_read (req_user_id req) (req_now req) message)) w,
                 ok (BMessage "Message marked as read"))
        end
    end.

(** ** The routers

    [express.Router()] as the route files fill it: a request goes to the
    first route, in the order of declaration, whose method and path
    match; the controllers here never pass a request on. A path is the
    list of its segments below the mount point. *)

Inductive Method := GET | PUT | POST | DELETE.

Definition method_eqb (a b : Method) : bool :=
  match a, b with
  | GET, GET | PUT, PUT | POST, POST | DELETE, DELETE => true
  | _, _ => false
  end.

(** A segment of a route path: fixed text, or a parameter [:name]. *)
Inductive Segment :=
  | Lit (text : string)
  | Param (name : string).

Record Route (H : Type) := {
  route_method : Method;
  route_path : list Segment;
  route_handler : H;
}.
Arguments route_method {H}.
Arguments route_path {H}.
Arguments route_handler {H}.

(** Routing is not case sensitive: fixed text is matched with the
    letters A to Z folded. *)
Definition lower_ascii (c : Ascii.ascii) : Ascii.ascii :=
  let n := Ascii.nat_of_ascii c in
  if (65 <=? n)%nat && (n <=? 90)%nat then Ascii.ascii_of_nat (n + 32) else c.

Fixpoint lower (s : string) : string :=
  match s with
  | EmptyString => EmptyString
  | String c s' => String (lower_ascii c) (lower s')
  end.

(** The parameters a path binds when it matches a route path: a
    parameter takes one non-empty segment. *)
Fixpoint match_path (pattern : list Segment) (path : list string)
    : option (list (string * string)) :=
  match pattern, path with
  | [], [] => Some []
  | Lit text :: pattern', seg :: path' =>
      if eqs (lower text) (lower seg) then match_path pattern' path' else None
  | Param name :: pattern', seg :: path' =>
      if eqs seg "" then None
      else cons (name, seg) <$> match_path pattern' path'
  | _, _ => None
  end.

(** The handler a request reaches, with [req.params]. *)
Fixpoint dispatch {H} (routes : list (Route H)) (method : Method) (path : list string)
    : option (H * list (string * string)) :=
  match routes with
  | [] => None
  | route :: routes' =>
      if method_eqb (route_method route) method then
        match match_path (route_path route) path with
        | Some params => Some (route_handler route, params)
        | None => dispatch routes' method path
        end
      else dispatch routes' method path
  end.

(** The controllers of the notification routes, and the router mounted
    at [/api/notifications]. *)
Inductive NotificationController :=
  | ctl_getNotifications | ctl_markAsRead | ctl_markAllAsRead
  | ctl_deleteNotification | ctl_deleteReadNotifications.

Definition notificationRoute : list (Route NotificationController) :=
  [ {| route_method := GET; route_path := []; route_handler := ctl_getNotifications |};
    {| route_method := PUT; route_path := [ Param "id"; Lit "read" ];
       route_handler := ctl_markAsRead |};
    {| route_method := PUT; route_path := [ Lit "read-all" ];
       route_handler := ctl_markAllAsRead |};
    {| route_method := DELETE; route_path := [ Param "id" ];
       route_handler := ctl_deleteNotification |};
    {| route_method := DELETE; route_path := [ Lit "read" ];
       route_handler := ctl_deleteReadNotifications |} ].

(** The controllers of the message routes, and the router mounted at
    [/api/messages]. *)
Inductive MessageController :=
  | ctl_getMessageById | ctl_updateMessage | ctl_deleteMessage
  | ctl_markMessageAsRead | ctl_markAllMessagesAsRead | ctl_getReadReceipts.

Definition messageRoute : list (Route MessageController) :=
  [ {| route_method := GET; route_path := [ Param "id" ];
       route_handler := ctl_getMessageById |};
    {| route_method := PUT; route_path := [ Param "id" ];
       route_handler := ctl_updateMessage |};
    {| route_method := DELETE; route_path := [ Param "id" ];
       route_handler := ctl_deleteMessage |};
    {| route_method := PUT; route_path := [ Param "id"; Lit "read" ];
       route_handler := ctl_markMessageAsRead |};
    {| route_method := PUT; route_path := [ Lit "read-all" ];
       route_handler := ctl_markAllMessagesAsRead |};
    {| route_method := GET; route_path := [ Param "id"; Lit "read-receipts" ];
       route_handler := ctl_getReadReceipts |} ].

(** ** Notions used to state what the handlers keep *)

(** [socket.join] of each room of a list, as the connection handler does
    for the personal room and the rooms of the user's groups. *)
Definition join_all (socket : Socket) (rs : list string) (w : World) : World :=
  fold_left
    (λ w room, set_rooms (alter (λ joined, {[ room ]} ∪ joined) (socket_id socket)) w)
    rs w.

(** A computation leaves the observation [f] of the state as it found it,
    also when it throws. *)
Definition keeps {A B} (f : World → B) (m : M A) : Prop :=
  ∀ w, f (m w).1.1 = f w.

(** Every handle stored in [activeUsers] is a non-empty string. *)
Definition handles_truthy (w : World) : Prop :=
  ∀ userId s, activeUsers w !! userId = Some s → s ≠ "".

(** The groups whose rooms a connecting user is subscribed to. *)
Definition groups_of (userId : string) (gs : list GroupChatDoc) : list GroupChatDoc :=
  List.filter (λ g, hasMember g userId) gs.

(** A deployment for the properties below: Alice has sent Bob two
    messages in their chat; nothing rejects. *)
Module Inbox.
Definition second : Env :=
  {| now := 2000; newChatId := "chat2"; newMessageId := "msg2";
     newNotificationId := λ i, "later" +:+ pretty i;
     rejects := λ _, false; insertedBeforeReject := 0 |}.

Definition two_messages : World :=
  steps [ (Scenario.quiet, Scenario.alice_socket,
           SendPrivateMessage "bob" (Some "hello") None None);
          (second, Scenario.alice_socket,
           SendPrivateMessage "bob" (Some "again") None None) ]
        Scenario.two_online.

Definition smooth : BatchEnv :=
  {| find_rejects := false; update_rejects := λ _, false |}.

(** Alice has sent Carol, who is away, two messages. *)
Definition carol_inbox : World :=
  steps [ (Scenario.quiet, Scenario.alice_socket,
           SendPrivateMessage "carol" (Some "ping") None None);
          (second, Scenario.alice_socket,
           SendPrivateMessage "carol" (Some "pong") None None) ]
        Scenario.two_online.

Definition request (userId : string) (at_ : Z) : Request :=
  {| req_user_id := userId; req_now := at_; req_outcome := λ _, Resolves |}.
End Inbox.

(** ** Running the handlers *)

Ltac unfold_monad :=
  cbv [bind try_catch await gets modify emit when ret throw run].

Section Runs.
Variable env : Env.
Variable socket : Socket.

Let sid := socket_id socket.
Let me := socket_user_id socket.

(** The private handler once the chat and the message are stored. *)
Lemma send_private_message_run w r c u t :
  rejects env ChatFindOne = false →
  rejects env ChatSave = false →
  rejects env MessageSave = false →
  rejects env MessagePopulate = false →
  valid_messageType (or_else t "text") = true →
  let found := Chat_findOne me r (chats w) in
  let chat := chat_for env socket r found in
  let message := new_message env socket c u t (chat_id chat) "Chat" in
  let w1 := set_messages (λ ms, ms ++ [message]) (set_chats (save_chat found chat) w) in
  let ack := {| target := SocketEmit sid; event := "private-message-sent";
                payload := PMessageSent message (chat_id chat) |} in
  step env socket (SendPrivateMessage r c u t) w =
    if truthy (activeUsers w !! r) then
      (w1, [ {| target := IoTo (default "" (activeUsers w !! r));
                event := "receive-private-message";
                payload := PPrivateMessage message (chat_id chat) (participants chat) |};
             ack ])
    else if rejects env NotificationSave then
      (w1, [ {| target := SocketEmit sid; event := "message-error";
                payload := PError "Failed to send message" |} ])
    else
      (set_notifications
         (λ ns, ns ++ [private_notification env socket r c t chat message]) w1,
       [ ack ]).
Proof.
  intros H1 H2 H3 H4 Hv. subst sid me.
  unfold step, handler, on_send_private_message, save_message.
  unfold_monad. rewrite H1, H2, H3, H4. cbn [messageType new_message]. rewrite Hv.
  cbn [activeUsers set_messages set_chats].
  destruct (truthy (activeUsers w !! r)); cbn; [reflexivity|].
  destruct (rejects env NotificationSave); reflexivity.
Qed.

(** The group handler once the sender is known to be a member and the
    message is stored. *)
Lemma send_group_message_run w gid c u t g :
  rejects env GroupChatFindById = false →
  GroupChat_findById gid (groups w) = Some g →
  hasMember g me = true →
  rejects env GroupChatSave = false →
  rejects env MessageSave = false →
  rejects env MessagePopulate = false →
  valid_messageType (or_else t "text") = true →
  let group := touch_group env g in
  let message := new_message env socket c u t gid "GroupChat" in
  let w1 := set_messages (λ ms, ms ++ [message])
              (set_groups (update_first (λ d, eqs (group_id d) (group_id g))
                                        (λ _, group)) w) in
  let offline := offline_members socket w group in
  let docs := group_notifications env socket gid group message c t offline in
  let broadcast := {| target := IoTo ("group:" +:+ gid);
                      event := "receive-group-message";
                      payload := PGroupMessage message (group_id group) (group_name group) |} in
  let ack := {| target := SocketEmit sid; event := "group-message-sent";
                payload := PMessageSent message gid |} in
  step env socket (SendGroupMessage gid c u t) w =
    if (0 <? length offline)%nat then
      if rejects env NotificationInsertMany then
        (set_notifications (λ ns, ns ++ take (insertedBeforeReject env) docs) w1,
         [ broadcast;
           {| target := SocketEmit sid; event := "message-error";
              payload := PError "Failed to send message" |} ])
      else
        (set_notifications (λ ns, ns ++ docs) w1, [ broadcast; ack ])
    else (w1, [ broadcast; ack ]).
Proof.
  intros H1 Hg Hm H2 H3 H4 Hv. subst sid me.
  unfold step, handler, on_send_group_message, save_message.
  unfold_monad. rewrite H1, Hg, Hm. cbn [negb]. rewrite H2, H3, H4.
  cbn [messageType new_message]. rewrite Hv.
  unfold offline_members. cbn [activeUsers set_messages set_groups members touch_group].
  match goal with |- context [(0 <? ?n)%nat] => destruct (0 <? n)%nat end; cbn;
    [|reflexivity].
  destruct (rejects env NotificationInsertMany); reflexivity.
Qed.
End Runs.

(** ** Auxiliary facts *)

Lemma eqs_refl s : eqs s s = true.
Proof. apply String.eqb_refl. Qed.

Lemma eqs_eq a b : eqs a b = true ↔ a = b.
Proof. apply String.eqb_eq. Qed.

Lemma eqs_neq a b : eqs a b = false ↔ a ≠ b.
Proof. apply String.eqb_neq. Qed.

Lemma new_notifications_app w w' docs :
  notifications w' = notifications w ++ docs → new_notifications w w' = docs.
Proof. intros E. unfold new_notifications. rewrite E. apply drop_app_length. Qed.

Lemma new_notifications_same w w' :
  notifications w' = notifications w → new_notifications w w' = [].
Proof. intros E. unfold new_notifications. rewrite E. apply drop_all. Qed.

Lemma existsb_imap_recipient {A} (f : nat → A → NotificationDoc) (g : A → string) r l :
  (∀ i x, recipient (f i x) = g x) →
  existsb (λ n, eqs (recipient n) r) (imap f l) = existsb (λ x, eqs (g x) r) l.
Proof.
  intros Hf. revert f Hf. induction l as [|x l IH]; intros f Hf; [reflexivity|].
  cbn. rewrite Hf. f_equal. apply IH. intros i y. apply Hf.
Qed.

Section Offline.
Variable env : Env.
Variable socket : Socket.

Lemma group_notifications_notify gid group message c t offline r :
  existsb (λ n, eqs (recipient n) r)
          (group_notifications env socket gid group message c t offline)
  = existsb (λ x, eqs x r) offline.
Proof. unfold group_notifications. apply existsb_imap_recipient. reflexivity. Qed.

(** Who is in [offlineMembers]: the members other than the sender
    without an [activeUsers] entry. *)
Lemma offline_members_spec w group r :
  existsb (λ x, eqs x r) (offline_members socket w group) = true ↔
  r ∈ map member_user (members group) ∧ r ≠ socket_user_id socket
  ∧ activeUsers w !! r = None.
Proof.
  unfold offline_members. rewrite existsb_exists. split.
  - intros (x & Hin & Hx). apply eqs_eq in Hx. subst x.
    apply in_map_iff in Hin as (m & <- & Hm).
    apply filter_In in Hm as (Hm & Hp).
    apply andb_true_iff in Hp as (Hne & Hoff).
    apply negb_true_iff in Hne, Hoff. apply eqs_neq in Hne.
    apply bool_decide_eq_false in Hoff.
    split; [|split]; [|assumption|].
    + apply list_elem_of_In, in_map. assumption.
    + destruct (activeUsers w !! member_user m); [|reflexivity].
      exfalso. apply Hoff. eauto.
  - intros (Hin & Hne & Hoff).
    apply list_elem_of_In, in_map_iff in Hin as (m & <- & Hm).
    exists (member_user m). split; [|apply eqs_refl].
    apply in_map, filter_In. split; [assumption|].
    apply andb_true_iff. split; apply negb_true_iff.
    + apply eqs_neq. assumption.
    + apply bool_decide_eq_false. rewrite Hoff. intros [? ?]; discriminate.
Qed.
End Offline.

(** ** C1: live delivery or notification *)

(** C1. Once the message is stored and no database call rejects, the
    private fan-out does exactly one of the two for its recipient: it
    emits receive-private-message to the handle [activeUsers] holds for
    the recipient when that handle is truthy, and stores a notification
    for the recipient otherwise. The group fan-out stores a notification
    for a member other than the sender exactly when the member has no
    [activeUsers] entry, while receive-group-message goes to the room of
    the group: it reaches the connection registered for a member exactly
    when that connection is subscribed to the room. *)
Theorem fanout_live_or_notification env socket w r gid g member c u t :
  (∀ op, rejects env op = false) →
  valid_messageType (or_else t "text") = true →
  let private := step env socket (SendPrivateMessage r c u t) w in
  let group := step env socket (SendGroupMessage gid c u t) w in
  (emitted_to_handle w private.2 "receive-private-message" r
     = truthy (activeUsers w !! r)
   ∧ notified w private.1 r = negb (truthy (activeUsers w !! r)))
  ∧ (GroupChat_findById gid (groups w) = Some g →
     hasMember g (socket_user_id socket) = true →
     member ∈ map member_user (members g) →
     member ≠ socket_user_id socket →
     notified w group.1 member
       = negb (bool_decide (is_Some (activeUsers w !! member)))
     ∧ live w group.2 "receive-group-message" member
       = match activeUsers w !! member with
         | Some s => in_room (rooms w) ("group:" +:+ gid) s
         | None => false
         end).
Proof.
  intros Hq Hv private group. split.
  - subst private.
    rewrite send_private_message_run by auto.
    unfold emitted_to_handle, notified.
    destruct (activeUsers w !! r) as [s|] eqn:Hr; cbn [truthy].
    + destruct (eqs s "") eqn:Hs; cbn [negb fst snd].
      * rewrite Hq. cbn [fst snd].
        erewrite new_notifications_app by reflexivity.
        cbn. rewrite eqs_refl. split; reflexivity.
      * rewrite new_notifications_same by reflexivity.
        cbn. rewrite eqs_refl. split; reflexivity.
    + rewrite Hq. cbn [negb fst snd].
      erewrite new_notifications_app by reflexivity.
      cbn. rewrite eqs_refl. split; reflexivity.
  - intros Hg Hm Hin Hne. subst group.
    rewrite (send_group_message_run env socket w gid c u t g) by auto.
    rewrite Hq. unfold notified, live.
    set (off := offline_members socket w (touch_group env g)).
    assert (existsb (λ x, eqs x member) off
            = negb (bool_decide (is_Some (activeUsers w !! member)))) as Hoff.
    { destruct (existsb (λ x, eqs x member) off) eqn:E.
      - apply offline_members_spec in E as (_ & _ & E). rewrite E. reflexivity.
      - destruct (activeUsers w !! member) eqn:Hr.
        + rewrite bool_decide_eq_true_2 by eauto. reflexivity.
        + exfalso. apply not_true_iff_false in E. apply E.
          apply offline_members_spec. auto. }
    destruct (0 <? length off)%nat eqn:Hlen; cbn [fst snd].
    + erewrite new_notifications_app by reflexivity.
      rewrite group_notifications_notify. fold off. rewrite Hoff. split; [reflexivity|].
      destruct (activeUsers w !! member); [|reflexivity].
      cbn. rewrite orb_false_r. reflexivity.
    + rewrite new_notifications_same by reflexivity.
      assert (off = []) as E.
      { destruct off; [reflexivity|discriminate]. }
      rewrite E in Hoff. cbn in Hoff |- *. split; [exact Hoff|].
      destruct (activeUsers w !! member); [|reflexivity].
      cbn. rewrite orb_false_r. reflexivity.
Qed.

Lemma fanout_live_or_notification_witness :
  let env := Scenario.quiet in
  let socket := Scenario.alice_socket in
  let w := Scenario.two_online in
  let private := step env socket (SendPrivateMessage "carol" (Some "hello") None None) w in
  let group := step env socket (SendGroupMessage "g" (Some "hello") None None) w in
  ((∀ op, rejects env op = false)
   ∧ GroupChat_findById "g" (groups w) = Some Scenario.team
   ∧ hasMember Scenario.team "alice" = true)
  ∧ (emitted_to_handle w private.2 "receive-private-message" "carol"
       = truthy (activeUsers w !! "carol")
     ∧ notified w private.1 "carol" = negb (truthy (activeUsers w !! "carol")))
  ∧ (notified w group.1 "bob"
       = negb (bool_decide (is_Some (activeUsers w !! "bob")))
     ∧ live w group.2 "receive-group-message" "bob"
       = match activeUsers w !! "bob" with
         | Some s => in_room (rooms w) ("group:" +:+ "g") s
         | None => false
         end).
Proof.
  intros env socket w private group.
  split; [split; [intros op; reflexivity|split; [vm_compute|]; reflexivity]|].
  destruct (fanout_live_or_notification env socket w "carol" "g" Scenario.team "bob"
              (Some "hello") None None) as [Hprivate Hgroup].
  - intros op. reflexivity.
  - reflexivity.
  - split; [exact Hprivate|]. apply Hgroup.
    + vm_compute. reflexivity.
    + reflexivity.
    + apply list_elem_of_In. cbn. auto.
    + discriminate.
Defined.

(** In the group path a member can get neither: Bob is connected and
    registered, his connection has left the room of the group, and
    Alice's message reaches no connection of his and leaves him no
    notification. *)
Lemma group_fanout_neither_live_nor_notified :
  let w := Scenario.bob_left_room in
  let run := step Scenario.quiet Scenario.alice_socket
                  (SendGroupMessage "g" (Some "hello") None None) w in
  hasMember Scenario.team "bob" = true
  ∧ activeUsers w !! "bob" = Some "sB"
  ∧ ¬ (live w run.2 "receive-group-message" "bob" = true
       ∨ notified w run.1 "bob" = true).
Proof.
  vm_compute. split; [reflexivity|]. split; [reflexivity|].
  intros [H|H]; discriminate H.
Qed.

(** A member can also get both on different connections: Bob's second
    connection has closed and taken his [activeUsers] entry with it, his
    first connection is still in the room of the group. *)
Example superseded_connection_gets_both :
  let w := (step Scenario.quiet Scenario.bob_socket2 Disconnect Scenario.bob_reconnected).1 in
  let run := step Scenario.quiet Scenario.alice_socket
                  (SendGroupMessage "g" (Some "hello") None None) w in
  activeUsers w !! "bob" = None
  ∧ receives (rooms run.1) run.2 "receive-group-message" "sB" = true
  ∧ notified w run.1 "bob" = true.
Proof. vm_compute. repeat split; reflexivity. Qed.

(** ** C2: the disconnect handler and [activeUsers] *)

(** A loop whose body only emits leaves the state alone and never
    throws. *)
Lemma forEach_emits {A} (P : Emit → Prop) (f : A → M unit) (l : list A) w :
  (∀ x, ∃ es, f x w = (w, es, Some tt) ∧ Forall P es) →
  ∃ es, forEach l f w = (w, es, Some tt) ∧ Forall P es.
Proof.
  intros Hf. induction l as [|x l (es & IH & Hes)].
  - exists []. split; [reflexivity|constructor].
  - destruct (Hf x) as (es1 & E1 & H1).
    exists (es1 ++ es). cbn [forEach]. unfold bind. rewrite E1, IH.
    split; [reflexivity|]. apply Forall_app. split; assumption.
Qed.

Lemma if_active_emits userId t ev p w :
  ∃ es, if_active userId (λ s, emit (t s) ev (p s)) w = (w, es, Some tt)
        ∧ Forall (λ e, event e = ev) es.
Proof.
  unfold if_active. unfold_monad.
  destruct (activeUsers w !! userId) as [s|]; cbn.
  - destruct (negb (eqs s "")); cbn; eexists; (split; [reflexivity|]);
      repeat constructor.
  - eexists; (split; [reflexivity|]). constructor.
Qed.

(** The status loop only emits user-status-change events. *)
Lemma broadcast_status_run socket friendIds st seen w :
  ∃ es, broadcast_status socket friendIds st seen w = (w, es, Some tt)
        ∧ Forall (λ e, event e = "user-status-change") es.
Proof.
  unfold broadcast_status. apply forEach_emits. intros x.
  apply (if_active_emits x IoTo "user-status-change"
           (λ _, PStatusChange (socket_user_id socket) (socket_username socket) st seen)).
Qed.

(** C2. When the status update of the disconnect handler goes through,
    the handler deletes the [activeUsers] entry of the socket's user
    whatever handle is stored there, and leaves every other entry alone;
    when the update rejects, the map is left as it was. *)
Theorem disconnect_deletes_entry env socket w :
  activeUsers (step env socket Disconnect w).1
  = if rejects env UserFindByIdAndUpdate then activeUsers w
    else delete (socket_user_id socket) (activeUsers w).
Proof.
  unfold step, handler, on_disconnect, update_user, find_friendIds.
  unfold_monad.
  destruct (rejects env UserFindByIdAndUpdate); [reflexivity|].
  cbn [set_rooms set_users set_activeUsers activeUsers friendships].
  destruct (rejects env FriendshipFind); [reflexivity|].
  match goal with
  | |- context [broadcast_status ?s ?l ?st ?seen ?w0] =>
      destruct (broadcast_status_run s l st seen w0) as (es & -> & _)
  end.
  reflexivity.
Qed.

(** The late disconnect of a superseded session removes the entry that
    the newer session registered: Bob connects on [sB], connects again on
    [sB2], and then [sB] disconnects. *)
Lemma stale_disconnect_removes_newer_entry :
  let w := Scenario.bob_reconnected in
  activeUsers w !! "bob" = Some "sB2"
  ∧ socket_id Scenario.bob_socket ≠ "sB2"
  ∧ activeUsers (step Scenario.quiet Scenario.bob_socket Disconnect w).1 !! "bob" = None.
Proof.
  vm_compute. split; [reflexivity|]. split; [discriminate|reflexivity].
Qed.

(** ** C3: who may act on a chat *)

(** The typing handler never changes the state and emits nothing but
    typing events. *)
Lemma typing_start_run env socket chat kind w :
  ∃ es, step env socket (TypingStart chat kind) w = (w, es)
        ∧ Forall (λ e, event e = "typing") es.
Proof.
  unfold step, handler, on_typing_start.
  destruct (eqs kind "Chat").
  - unfold try_catch, bind, await, gets, throw, run.
    destruct (rejects env ChatFindById).
    { exists []. split; [reflexivity|constructor]. }
    destruct (Chat_findById chat (chats w)) as [c|].
    2:{ exists []. split; [reflexivity|constructor]. }
    destruct (find _ (participants c)) as [other|].
    2:{ exists []. split; [reflexivity|constructor]. }
    destruct (if_active_emits other IoTo "typing"
                (λ _, PTyping chat (socket_user_id socket) (socket_username socket)) w)
      as (es & -> & Hes).
    exists es. split; [reflexivity|exact Hes].
  - destruct (eqs kind "GroupChat").
    + eexists. split; [reflexivity|]. repeat constructor.
    + exists []. split; [reflexivity|constructor].
Qed.

Lemma find_update_first {A} (p : A → bool) (f : A → A) (l : list A) x :
  List.find p l = Some x → p (f x) = true →
  List.find p (update_first p f l) = Some (f x).
Proof.
  intros Hfind Hp. induction l as [|y l IH]; [discriminate|].
  cbn in *. destruct (p y) eqn:Hy.
  - injection Hfind as ->. cbn. rewrite Hp. reflexivity.
  - cbn. rewrite Hy. auto.
Qed.

(** The read-receipt handler on a message that exists and that the
    caller has not read yet. *)
Lemma mark_as_read_run env socket w messageId m :
  rejects env MessageFindById = false →
  rejects env MessageSave = false →
  Message_findById messageId (messages w) = Some m →
  isReadBy m (socket_user_id socket) = false →
  let m' := with_readBy m (readBy m ++ [ {| read_user := socket_user_id socket;
                                            readAt := now env |} ]) in
  ∃ es, step env socket (MarkAsRead messageId) w
        = (set_messages (update_first (λ d, eqs (message_id d) (message_id m))
                                      (λ _, m')) w, es)
        ∧ Forall (λ e, event e = "message-read") es.
Proof.
  intros H1 H2 Hm Hr m'.
  unfold step, handler, on_mark_as_read.
  unfold try_catch, bind, await, gets, modify, when, throw, run.
  rewrite H1, Hm. unfold isReadBy in Hr. rewrite Hr. cbn [negb]. rewrite H2.
  match goal with
  | |- context [if_active ?x ?k ?w0] =>
      destruct (if_active_emits x IoTo "message-read"
                  (λ _, PMessageRead messageId (socket_user_id socket)
                                     (socket_username socket) (now env)) w0)
        as (es & -> & Hes)
  end.
  exists ([] ++ [] ++ es). split; [reflexivity|exact Hes].
Qed.

Lemma update_first_length {A} (p : A → bool) (f : A → A) l :
  length (update_first p f l) = length l.
Proof.
  induction l as [|x l IH]; [reflexivity|].
  cbn. destruct (p x); cbn; [reflexivity|]. rewrite IH. reflexivity.
Qed.

(** After the chat of a private send is saved, looking up the chat of the
    two users finds it. *)
Lemma Chat_findOne_saved env socket r cs :
  let found := Chat_findOne (socket_user_id socket) r cs in
  Chat_findOne (socket_user_id socket) r
               (save_chat found (chat_for env socket r found) cs)
  = Some (chat_for env socket r found).
Proof.
  cbn zeta. unfold Chat_findOne.
  set (p := λ c, hasParticipant c (socket_user_id socket) && hasParticipant c r).
  destruct (find p cs) as [c|] eqn:Hfind.
  - assert (p (chat_for env socket r (Some c)) = true) as Hp.
    { apply find_some in Hfind as [_ Hc]. exact Hc. }
    cbn [save_chat]. revert Hp. generalize (chat_for env socket r (Some c)).
    intros chat Hp. clearbody p.
    induction cs as [|x cs IH]; [discriminate|].
    cbn in Hfind |- *. destruct (p x) eqn:Hx.
    + injection Hfind as ->. rewrite eqs_refl. cbn. rewrite Hp. reflexivity.
    + destruct (eqs (chat_id x) (chat_id c)); cbn; [rewrite Hp; reflexivity|].
      rewrite Hx. apply IH. exact Hfind.
  - cbn [save_chat chat_for].
    induction cs as [|x cs IH].
    + cbn. unfold p, hasParticipant. cbn. rewrite !eqs_refl. cbn.
      rewrite orb_true_r. reflexivity.
    + cbn in Hfind |- *. destruct (p x); [discriminate|]. apply IH. exact Hfind.
Qed.

(** C3. A user who is not a member of an existing group is turned away
    by send-group-message with the message-error "Not a member of this
    group", and nothing is delivered or stored. send-private-message
    addresses a recipient, not a chat: it finds the chat of the sender
    and the recipient, or creates one of exactly these two, and stores
    the message there, so the sender always takes part in the chat
    written to; when the notification write goes through as well it
    reports no error and acknowledges the message. typing-start makes no
    participant check: it never reports an error and never changes the
    state. *)
Theorem group_send_checks_membership env socket w gid g r c u t chat kind :
  (rejects env GroupChatFindById = false →
   GroupChat_findById gid (groups w) = Some g →
   hasMember g (socket_user_id socket) = false →
   step env socket (SendGroupMessage gid c u t) w
   = (w, [ {| target := SocketEmit (socket_id socket); event := "message-error";
              payload := PError "Not a member of this group" |} ]))
  ∧ (rejects env ChatFindOne = false →
     rejects env ChatSave = false →
     rejects env MessageSave = false →
     rejects env MessagePopulate = false →
     valid_messageType (or_else t "text") = true →
     let me := socket_user_id socket in
     let run := step env socket (SendPrivateMessage r c u t) w in
     ∃ room m,
       Chat_findOne me r (chats run.1) = Some room
       ∧ hasParticipant room me = true
       ∧ hasParticipant room r = true
       ∧ match Chat_findOne me r (chats w) with
         | Some c0 => chat_id room = chat_id c0 ∧ participants room = participants c0
                      ∧ length (chats run.1) = length (chats w)
         | None => participants room = [ me; r ] ∧ chats run.1 = chats w ++ [ room ]
         end
       ∧ messages run.1 = messages w ++ [ m ]
       ∧ sender m = me ∧ chatId m = chat_id room ∧ chatType m = "Chat"
       ∧ (rejects env NotificationSave = false →
          Forall (λ e, event e ≠ "message-error" ∧ event e ≠ "error") run.2
          ∧ last run.2
            = Some {| target := SocketEmit (socket_id socket);
                      event := "private-message-sent";
                      payload := PMessageSent m (chat_id room) |}))
  ∧ ((step env socket (TypingStart chat kind) w).1 = w
     ∧ Forall (λ e, event e = "typing") (step env socket (TypingStart chat kind) w).2).
Proof.
  split; [|split].
  - intros Hg1 Hg Hm.
    unfold step, handler, on_send_group_message. unfold_monad.
    rewrite Hg1, Hg, Hm. reflexivity.
  - intros H1 H2 H3 H4 Hv me run.
    pose proof (send_private_message_run env socket w r c u t H1 H2 H3 H4 Hv) as Hrun.
    cbn zeta in Hrun. fold me in Hrun. fold run in Hrun.
    set (found := Chat_findOne me r (chats w)) in *.
    set (room := chat_for env socket r found) in *.
    set (m := new_message env socket c u t (chat_id room) "Chat") in *.
    assert (chats run.1 = save_chat found room (chats w)
            ∧ messages run.1 = messages w ++ [ m ]) as [Hchats Hmessages].
    { rewrite Hrun. destruct (truthy (activeUsers w !! r)); [split; reflexivity|].
      destruct (rejects env NotificationSave); split; reflexivity. }
    pose proof (Chat_findOne_saved env socket r (chats w)) as Hsaved.
    cbn zeta in Hsaved. fold me found room in Hsaved. rewrite <- Hchats in Hsaved.
    exists room, m. split; [exact Hsaved|].
    assert (hasParticipant room me && hasParticipant room r = true) as Hboth.
    { unfold Chat_findOne in Hsaved. apply find_some in Hsaved as [_ H]. exact H. }
    apply andb_true_iff in Hboth as [Hme Hr].
    split; [exact Hme|]. split; [exact Hr|]. split.
    { rewrite Hchats. subst room. destruct found as [c0|]; cbn [save_chat chat_for].
      - split; [reflexivity|]. split; [reflexivity|]. apply update_first_length.
      - split; reflexivity. }
    split; [exact Hmessages|]. split; [reflexivity|]. split; [reflexivity|].
    split; [reflexivity|].
    intros H5. rewrite Hrun.
    destruct (truthy (activeUsers w !! r)); [|rewrite H5];
      (split; [repeat constructor; discriminate|reflexivity]).
  - destruct (typing_start_run env socket chat kind w) as (es & -> & Hes).
    split; [reflexivity|exact Hes].
Qed.

Lemma group_send_checks_membership_witness :
  let env := Scenario.quiet in
  let socket := Scenario.dave_socket in
  let w := Scenario.dave_arrived in
  let run := step env socket (SendPrivateMessage "alice" (Some "hi") None None) w in
  (GroupChat_findById "g" (groups w) = Some Scenario.team
   ∧ hasMember Scenario.team "dave" = false)
  ∧ step env socket (SendGroupMessage "g" (Some "hi") None None) w
    = (w, [ {| target := SocketEmit "sD"; event := "message-error";
               payload := PError "Not a member of this group" |} ])
  ∧ (∃ room m,
       Chat_findOne "dave" "alice" (chats run.1) = Some room
       ∧ participants room = [ "dave"; "alice" ]
       ∧ messages run.1 = messages w ++ [ m ]
       ∧ sender m = "dave" ∧ chatId m = chat_id room
       ∧ Forall (λ e, event e ≠ "message-error" ∧ event e ≠ "error") run.2)
  ∧ ((step env socket (TypingStart "chat1" "Chat") w).1 = w
     ∧ Forall (λ e, event e = "typing") (step env socket (TypingStart "chat1" "Chat") w).2).
Proof.
  intros env socket w run.
  split; [vm_compute; repeat split; reflexivity|].
  destruct (group_send_checks_membership env socket w "g" Scenario.team "alice"
              (Some "hi") None None "chat1" "Chat") as (Hgroup & Hprivate & Htyping).
  split; [|split; [|exact Htyping]].
  - apply Hgroup; [reflexivity|vm_compute; reflexivity|reflexivity].
  - destruct Hprivate as (room & m & Hroom & _ & _ & Hfound & Hm & Hs & Hc & _ & Hack);
      try reflexivity.
    exists room, m. split; [exact Hroom|].
    split; [exact (proj1 Hfound)|]. split; [exact Hm|]. split; [exact Hs|].
    split; [exact Hc|]. apply Hack. reflexivity.
Defined.

(** Dave takes no part in the chat of Alice and Bob. His mark-as-read on
    their message is stored and announced to Alice, his typing-start is
    relayed to Alice, and no error comes back to him. *)
Lemma outsider_read_and_typing_accepted :
  let w := Scenario.dave_arrived in
  let read := step Scenario.quiet Scenario.dave_socket (MarkAsRead "msg1") w in
  let typing := step Scenario.quiet Scenario.dave_socket (TypingStart "chat1" "Chat") w in
  ((λ c, hasParticipant c "dave") <$> Chat_findById "chat1" (chats w)) = Some false
  ∧ (chatId <$> Message_findById "msg1" (messages w)) = Some "chat1"
  ∧ ((λ m, isReadBy m "dave") <$> Message_findById "msg1" (messages read.1)) = Some true
  ∧ receives (rooms read.1) read.2 "message-read" "sA" = true
  ∧ receives (rooms typing.1) typing.2 "typing" "sA" = true
  ∧ ¬ (∃ e, e ∈ read.2 ++ typing.2
            ∧ (event e = "error" ∨ event e = "message-error")).
Proof.
  vm_compute. repeat (split; [reflexivity|]).
  intros (e & Hin & He).
  apply list_elem_of_In in Hin. cbn in Hin.
  destruct Hin as [<-|[<-|[]]]; destruct He as [He|He]; discriminate He.
Qed.

(** ** C4: a rejected notification write *)

(** C4. With the message stored, a rejected notification write ends the
    handler in its catch: the sender gets the message-error "Failed to
    send message" and no acknowledgement. Nothing is undone: the message
    stays stored, the group broadcast has gone out, and of the batch of
    group notifications only those written before the rejection exist. *)
Theorem notification_failure_reported env socket w r gid g c u t :
  rejects env MessageSave = false →
  rejects env MessagePopulate = false →
  valid_messageType (or_else t "text") = true →
  let private := step env socket (SendPrivateMessage r c u t) w in
  let group := step env socket (SendGroupMessage gid c u t) w in
  let failed := {| target := SocketEmit (socket_id socket); event := "message-error";
                   payload := PError "Failed to send message" |} in
  let chat := chat_for env socket r (Chat_findOne (socket_user_id socket) r (chats w)) in
  let message := new_message env socket c u t gid "GroupChat" in
  (rejects env ChatFindOne = false →
   rejects env ChatSave = false →
   rejects env NotificationSave = true →
   truthy (activeUsers w !! r) = false →
   private.2 = [ failed ]
   ∧ messages private.1
     = messages w ++ [ new_message env socket c u t (chat_id chat) "Chat" ]
   ∧ notifications private.1 = notifications w)
  ∧ (rejects env GroupChatFindById = false →
     rejects env GroupChatSave = false →
     rejects env NotificationInsertMany = true →
     GroupChat_findById gid (groups w) = Some g →
     hasMember g (socket_user_id socket) = true →
     offline_members socket w (touch_group env g) ≠ [] →
     group.2 = [ {| target := IoTo ("group:" +:+ gid); event := "receive-group-message";
                    payload := PGroupMessage message (group_id g) (group_name g) |};
                 failed ]
     ∧ messages group.1 = messages w ++ [ message ]
     ∧ notifications group.1
       = notifications w
         ++ take (insertedBeforeReject env)
                 (group_notifications env socket gid (touch_group env g) message c t
                    (offline_members socket w (touch_group env g)))).
Proof.
  intros H5 H6 Hv. cbn zeta. split.
  - intros H1 H2 Hn Hr.
    rewrite send_private_message_run by assumption. rewrite Hr, Hn.
    repeat split.
  - intros H3 H4 Hi Hg Hm Hoff.
    rewrite (send_group_message_run env socket w gid c u t g) by assumption.
    rewrite Hi.
    destruct (offline_members socket w (touch_group env g)); [contradiction|].
    repeat split.
Qed.

Lemma notification_failure_reported_witness :
  let env := Scenario.at_time 1000 Scenario.notification_writes_fail in
  let socket := Scenario.alice_socket in
  let w := Scenario.two_online in
  let private := step env socket (SendPrivateMessage "carol" (Some "hello") None None) w in
  let group := step env socket (SendGroupMessage "g" (Some "hello") None None) w in
  let failed := {| target := SocketEmit "sA"; event := "message-error";
                   payload := PError "Failed to send message" |} in
  let chat := chat_for env socket "carol" (Chat_findOne "alice" "carol" (chats w)) in
  let message := new_message env socket (Some "hello") None None "g" "GroupChat" in
  (truthy (activeUsers w !! "carol") = false
   ∧ GroupChat_findById "g" (groups w) = Some Scenario.team
   ∧ offline_members socket w (touch_group env Scenario.team) = [ "carol" ])
  ∧ (private.2 = [ failed ]
     ∧ messages private.1
       = messages w ++ [ new_message env socket (Some "hello") None None (chat_id chat) "Chat" ]
     ∧ notifications private.1 = notifications w)
  ∧ (group.2 = [ {| target := IoTo ("group:" +:+ "g"); event := "receive-group-message";
                    payload := PGroupMessage message "g" "Team" |};
                 failed ]
     ∧ messages group.1 = messages w ++ [ message ]
     ∧ notifications group.1
       = notifications w
         ++ take (insertedBeforeReject env)
                 (group_notifications env socket "g" (touch_group env Scenario.team)
                    message (Some "hello") None
                    (offline_members socket w (touch_group env Scenario.team)))).
Proof.
  intros env socket w private group failed chat message.
  split; [vm_compute; repeat split; reflexivity|].
  destruct (notification_failure_reported env socket w "carol" "g" Scenario.team
              (Some "hello") None None) as [Hprivate Hgroup]; try reflexivity.
  split.
  - apply Hprivate; first [ reflexivity | vm_compute; reflexivity ].
  - apply Hgroup; first [ reflexivity | vm_compute; reflexivity | vm_compute; discriminate ].
Defined.

(** The write of Carol's notification rejects after Alice's message to
    her is stored: Alice is told the send failed and gets no
    acknowledgement. In the group, with Bob and Carol both away, the
    rejected batch leaves Carol without a notification as well. *)
Lemma notification_failure_reaches_sender :
  let env := Scenario.at_time 1000 Scenario.notification_writes_fail in
  let private := step env Scenario.alice_socket
                      (SendPrivateMessage "carol" (Some "hello") None None)
                      Scenario.two_online in
  let group := step env Scenario.alice_socket
                    (SendGroupMessage "g" (Some "hello") None None)
                    Scenario.alice_online in
  (message_id <$> messages private.1) = [ "msg1" ]
  ∧ ¬ (emitted private.2 "message-error" (SocketEmit "sA") = false
       ∧ emitted private.2 "private-message-sent" (SocketEmit "sA") = true)
  ∧ offline_members Scenario.alice_socket Scenario.alice_online Scenario.team
    = [ "bob"; "carol" ]
  ∧ (message_id <$> messages group.1) = [ "msg1" ]
  ∧ notified Scenario.alice_online group.1 "carol" = false
  ∧ emitted group.2 "message-error" (SocketEmit "sA") = true.
Proof.
  vm_compute. split; [reflexivity|]. split; [intros [H _]; discriminate H|].
  repeat split; reflexivity.
Qed.

(** ** C5: the last-activity marker and the message *)

(** C5. Both send handlers save the last-activity marker first and the
    message second. When either save rejects, the sender gets the
    message-error "Failed to send message" and no message is stored; the
    marker has been updated exactly when its own save went through, so a
    rejected marker save aborts the send before the message is built. *)
Theorem last_activity_saved_first env socket w r gid g c u t :
  let private := step env socket (SendPrivateMessage r c u t) w in
  let group := step env socket (SendGroupMessage gid c u t) w in
  let failed := {| target := SocketEmit (socket_id socket); event := "message-error";
                   payload := PError "Failed to send message" |} in
  let found := Chat_findOne (socket_user_id socket) r (chats w) in
  (rejects env ChatFindOne = false →
   rejects env ChatSave = true ∨ rejects env MessageSave = true →
   private.2 = [ failed ]
   ∧ messages private.1 = messages w
   ∧ chats private.1
     = if rejects env ChatSave then chats w
       else save_chat found (chat_for env socket r found) (chats w))
  ∧ (rejects env GroupChatFindById = false →
     GroupChat_findById gid (groups w) = Some g →
     hasMember g (socket_user_id socket) = true →
     rejects env GroupChatSave = true ∨ rejects env MessageSave = true →
     group.2 = [ failed ]
     ∧ messages group.1 = messages w
     ∧ groups group.1
       = if rejects env GroupChatSave then groups w
         else update_first (λ d, eqs (group_id d) (group_id g))
                           (λ _, touch_group env g) (groups w)).
Proof.
  cbn zeta. split.
  - intros H1 Hp.
    unfold step, handler, on_send_private_message, save_message. unfold_monad.
    rewrite H1. destruct (rejects env ChatSave); [repeat split|].
    destruct Hp as [Hp|Hp]; [discriminate|]. rewrite Hp. repeat split.
  - intros H2 Hg Hm Hq.
    unfold step, handler, on_send_group_message, save_message. unfold_monad.
    rewrite H2, Hg, Hm. cbn [negb].
    destruct (rejects env GroupChatSave); [repeat split|].
    destruct Hq as [Hq|Hq]; [discriminate|]. rewrite Hq. repeat split.
Qed.

Lemma last_activity_saved_first_witness :
  let env := Scenario.at_time 2000 Scenario.activity_saves_fail in
  let socket := Scenario.alice_socket in
  let w := Scenario.after_hello in
  let private := step env socket (SendPrivateMessage "bob" (Some "again") None None) w in
  let group := step env socket (SendGroupMessage "g" (Some "again") None None) w in
  let failed := {| target := SocketEmit "sA"; event := "message-error";
                   payload := PError "Failed to send message" |} in
  let found := Chat_findOne "alice" "bob" (chats w) in
  (GroupChat_findById "g" (groups w) = Some Scenario.team
   ∧ rejects env ChatSave = true ∧ rejects env GroupChatSave = true)
  ∧ (private.2 = [ failed ]
     ∧ messages private.1 = messages w
     ∧ chats private.1
       = if rejects env ChatSave then chats w
         else save_chat found (chat_for env socket "bob" found) (chats w))
  ∧ (group.2 = [ failed ]
     ∧ messages group.1 = messages w
     ∧ groups group.1
       = if rejects env GroupChatSave then groups w
         else update_first (λ d, eqs (group_id d) (group_id Scenario.team))
                           (λ _, touch_group env Scenario.team) (groups w)).
Proof.
  intros env socket w private group failed found.
  split; [split; [vm_compute; reflexivity|split; reflexivity]|].
  destruct (last_activity_saved_first env socket w "bob" "g" Scenario.team
              (Some "again") None None) as [Hprivate Hgroup].
  split.
  - apply Hprivate; [reflexivity|left; reflexivity].
  - apply Hgroup; [reflexivity|vm_compute; reflexivity|reflexivity|left; reflexivity].
Defined.

(** Alice writes to Bob again. When the save of the chat's last-activity
    marker rejects, she is told the send failed and no message is
    stored. When the save of the message rejects, the marker already
    carries the new time although no message was stored. *)
Lemma activity_failure_fails_send :
  let w := Scenario.after_hello in
  let send := SendPrivateMessage "bob" (Some "again") None None in
  let first := step (Scenario.at_time 2000 Scenario.activity_saves_fail)
                    Scenario.alice_socket send w in
  let second := step (Scenario.at_time 2000 Scenario.message_save_fails)
                     Scenario.alice_socket send w in
  (chat_lastActivity <$> chats w) = [ 1000 ]
  ∧ (emitted first.2 "message-error" (SocketEmit "sA") = true
     ∧ emitted first.2 "private-message-sent" (SocketEmit "sA") = false
     ∧ messages first.1 = messages w)
  ∧ ((chat_lastActivity <$> chats second.1) = [ 2000 ]
     ∧ messages second.1 = messages w).
Proof. vm_compute. repeat split; reflexivity. Qed.

(** ** C6: who receives a group message *)

(** C6. Once the group message is stored, receive-group-message is
    emitted to the room of the group and reaches a connection exactly
    when it is subscribed to that room; the connection of the sender is
    no exception. The sender also gets group-message-sent when the
    notification batch does not reject. *)
Theorem group_message_reaches_room env socket w gid g c u t s :
  rejects env GroupChatFindById = false →
  GroupChat_findById gid (groups w) = Some g →
  hasMember g (socket_user_id socket) = true →
  rejects env GroupChatSave = false →
  rejects env MessageSave = false →
  rejects env MessagePopulate = false →
  valid_messageType (or_else t "text") = true →
  let run := step env socket (SendGroupMessage gid c u t) w in
  receives (rooms run.1) run.2 "receive-group-message" s
  = in_room (rooms w) ("group:" +:+ gid) s
  ∧ (rejects env NotificationInsertMany = false →
     emitted run.2 "group-message-sent" (SocketEmit (socket_id socket)) = true).
Proof.
  intros H1 Hg Hm H2 H3 H4 Hv. cbn zeta.
  rewrite (send_group_message_run env socket w gid c u t g) by assumption.
  unfold receives, emitted.
  destruct (0 <? _)%nat; [destruct (rejects env NotificationInsertMany)|];
    cbn; rewrite ?eqs_refl, orb_false_r;
    (split; [reflexivity|intros H; first [discriminate H|reflexivity]]).
Qed.

Lemma group_message_reaches_room_witness :
  let env := Scenario.quiet in
  let socket := Scenario.alice_socket in
  let w := Scenario.two_online in
  let run := step env socket (SendGroupMessage "g" (Some "hello") None None) w in
  (GroupChat_findById "g" (groups w) = Some Scenario.team
   ∧ hasMember Scenario.team "alice" = true
   ∧ in_room (rooms w) ("group:" +:+ "g") "sA" = true)
  ∧ receives (rooms run.1) run.2 "receive-group-message" "sA"
    = in_room (rooms w) ("group:" +:+ "g") "sA"
  ∧ emitted run.2 "group-message-sent" (SocketEmit "sA") = true.
Proof.
  intros env socket w run.
  split; [vm_compute; repeat split; reflexivity|].
  destruct (group_message_reaches_room env socket w "g" Scenario.team
              (Some "hello") None None "sA") as [Hlive Hack];
    first [ reflexivity | vm_compute; reflexivity | idtac ].
  split; [exact Hlive|]. apply Hack. reflexivity.
Defined.

(** Alice's own connection is subscribed to the room of the team since
    she connected, so it receives the receive-group-message event for the
    message she sends. *)
Lemma sender_receives_own_group_message :
  let w := Scenario.two_online in
  let run := step Scenario.quiet Scenario.alice_socket
                  (SendGroupMessage "g" (Some "hello") None None) w in
  socket_id Scenario.alice_socket = "sA"
  ∧ ¬ (receives (rooms run.1) run.2 "receive-group-message" "sA" = false).
Proof. vm_compute. split; [reflexivity|discriminate]. Qed.

(** ** C7: marking a message read twice *)

Lemma count_reads_unread userId m :
  isReadBy m userId = false → count_reads userId m = 0%nat.
Proof.
  unfold isReadBy, count_reads. induction (readBy m) as [|x l IH]; [reflexivity|].
  cbn. destruct (eqs (read_user x) userId); [discriminate|]. exact IH.
Qed.

Lemma count_reads_read userId m :
  isReadBy m userId = true → (1 ≤ count_reads userId m)%nat.
Proof.
  unfold isReadBy, count_reads. induction (readBy m) as [|x l IH]; [discriminate|].
  cbn. destruct (eqs (read_user x) userId); cbn; [lia|]. exact IH.
Qed.

Lemma count_reads_push userId m at_ :
  count_reads userId
    (with_readBy m (readBy m ++ [ {| read_user := userId; readAt := at_ |} ]))
  = S (count_reads userId m).
Proof.
  unfold count_reads. cbn [readBy with_readBy].
  rewrite List.filter_app, length_app. cbn. rewrite eqs_refl. cbn. lia.
Qed.

Lemma isReadBy_push userId m at_ :
  isReadBy (with_readBy m (readBy m ++ [ {| read_user := userId; readAt := at_ |} ]))
           userId = true.
Proof.
  unfold isReadBy. cbn [readBy with_readBy]. rewrite existsb_app. cbn.
  rewrite eqs_refl. apply orb_true_iff. right. reflexivity.
Qed.

(** On a message the caller has already read the handler does nothing,
    whatever the database does. *)
Lemma mark_as_read_again env socket w messageId m :
  Message_findById messageId (messages w) = Some m →
  isReadBy m (socket_user_id socket) = true →
  step env socket (MarkAsRead messageId) w = (w, []).
Proof.
  intros Hm Hr. unfold step, handler, on_mark_as_read.
  unfold try_catch, bind, await, gets, when, throw, ret, run.
  destruct (rejects env MessageFindById); [reflexivity|].
  rewrite Hm. unfold isReadBy in Hr. rewrite Hr. reflexivity.
Qed.

Lemma markAsRead_eq at_ m userId :
  markAsRead at_ m userId
  = if isReadBy m userId then (m, false)
    else (with_readBy m (readBy m ++ [ {| read_user := userId; readAt := at_ |} ]), true).
Proof. unfold markAsRead, isReadBy. destruct (existsb _ _); reflexivity. Qed.

(** The [markAsRead] method called twice. *)
Lemma markAsRead_twice at1 at2 m userId :
  (count_reads userId m ≤ 1)%nat →
  let m1 := (markAsRead at1 m userId).1 in
  count_reads userId m1 = 1%nat ∧ markAsRead at2 m1 userId = (m1, false).
Proof.
  intros Hc. cbn zeta. rewrite (markAsRead_eq at1).
  destruct (isReadBy m userId) eqn:Hr; cbn [fst].
  - pose proof (count_reads_read _ _ Hr). split; [lia|].
    rewrite markAsRead_eq, Hr. reflexivity.
  - rewrite count_reads_push, (count_reads_unread _ _ Hr). split; [reflexivity|].
    rewrite markAsRead_eq, isReadBy_push. reflexivity.
Qed.

(** C7. Marking a message read twice for the same user leaves exactly
    one entry of that user in [readBy], and the second call does nothing:
    no new entry, no event, no error. The same holds for the [markAsRead]
    method of the message. *)
Theorem mark_as_read_twice env1 env2 socket w messageId m at1 at2 :
  Message_findById messageId (messages w) = Some m →
  rejects env1 MessageFindById = false →
  rejects env1 MessageSave = false →
  (count_reads (socket_user_id socket) m ≤ 1)%nat →
  let w1 := (step env1 socket (MarkAsRead messageId) w).1 in
  let m1 := (markAsRead at1 m (socket_user_id socket)).1 in
  (∃ m', Message_findById messageId (messages w1) = Some m'
         ∧ count_reads (socket_user_id socket) m' = 1%nat)
  ∧ step env2 socket (MarkAsRead messageId) w1 = (w1, [])
  ∧ count_reads (socket_user_id socket) m1 = 1%nat
  ∧ markAsRead at2 m1 (socket_user_id socket) = (m1, false).
Proof.
  intros Hm H1 H2 Hc. cbn zeta.
  destruct (isReadBy m (socket_user_id socket)) eqn:Hr.
  - pose proof (count_reads_read _ _ Hr) as Hge.
    rewrite (mark_as_read_again env1 socket w messageId m Hm Hr). cbn [fst].
    split; [exists m; split; [exact Hm|lia]|].
    split; [apply (mark_as_read_again env2 socket w messageId m Hm Hr)|].
    apply markAsRead_twice. exact Hc.
  - pose proof (count_reads_unread _ _ Hr) as H0.
    destruct (mark_as_read_run env1 socket w messageId m H1 H2 Hm Hr) as (es & -> & _).
    cbn [fst messages set_messages].
    assert (message_id m = messageId) as Hid.
    { unfold Message_findById in Hm. apply find_some in Hm as [_ H].
      apply eqs_eq. exact H. }
    set (m' := with_readBy m (readBy m ++ [ {| read_user := socket_user_id socket;
                                               readAt := now env1 |} ])).
    assert (Message_findById messageId
              (update_first (λ d, eqs (message_id d) (message_id m)) (λ _, m') (messages w))
            = Some m') as Hfind.
    { rewrite Hid. unfold Message_findById.
      erewrite find_update_first; [reflexivity|exact Hm|].
      subst m'. cbn. rewrite Hid. apply eqs_refl. }
    split; [exists m'; split; [exact Hfind|]|].
    { subst m'. rewrite count_reads_push, H0. reflexivity. }
    split.
    { apply (mark_as_read_again env2 socket _ messageId m'); [exact Hfind|].
      apply isReadBy_push. }
    apply markAsRead_twice. exact Hc.
Qed.

Lemma mark_as_read_twice_witness :
  let env := Scenario.quiet in
  let socket := Scenario.bob_socket in
  let w := Scenario.after_hello in
  let m := {| message_id := "msg1"; sender := "alice"; content := "hello";
              chatId := "chat1"; chatType := "Chat"; messageType := "text";
              mediaUrl := None;
              readBy := [ {| read_user := "alice"; readAt := 1000 |} ] |} in
  let w1 := (step env socket (MarkAsRead "msg1") w).1 in
  let m1 := (markAsRead 1000 m "bob").1 in
  (Message_findById "msg1" (messages w) = Some m
   ∧ (count_reads "bob" m ≤ 1)%nat)
  ∧ (∃ m', Message_findById "msg1" (messages w1) = Some m'
           ∧ count_reads "bob" m' = 1%nat)
  ∧ step env socket (MarkAsRead "msg1") w1 = (w1, [])
  ∧ count_reads "bob" m1 = 1%nat
  ∧ markAsRead 2000 m1 "bob" = (m1, false).
Proof.
  intros env socket w m w1 m1.
  split; [split; [vm_compute; reflexivity|cbn; lia]|].
  apply (mark_as_read_twice env env socket w "msg1" m 1000 2000).
  - vm_compute. reflexivity.
  - reflexivity.
  - reflexivity.
  - cbn. lia.
Defined.

(** ** C8: the text of a notification *)

Lemma substring_take n s :
  String.list_ascii_of_string (String.substring 0 n s)
  = take n (String.list_ascii_of_string s).
Proof.
  revert s. induction n as [|n IH]; intros [|a s]; cbn; try reflexivity.
  f_equal. apply IH.
Qed.

Lemma list_ascii_of_string_app a b :
  String.list_ascii_of_string (a +:+ b)
  = String.list_ascii_of_string a ++ String.list_ascii_of_string b.
Proof.
  induction a as [|x a IH]; [reflexivity|].
  change (x :: String.list_ascii_of_string (a +:+ b)
          = x :: (String.list_ascii_of_string a ++ String.list_ascii_of_string b)).
  f_equal. exact IH.
Qed.

Lemma Forall_imap {A B} (P : B → Prop) (f : nat → A → B) (l : list A) :
  (∀ i x, x ∈ l → P (f i x)) → Forall P (imap f l).
Proof.
  revert f. induction l as [|x l IH]; intros f Hf; cbn; constructor.
  - apply Hf. left.
  - apply IH. intros i y Hy. apply Hf. right. exact Hy.
Qed.

Ltac split_run env :=
  repeat match goal with
         | |- context [rejects env ?op] => destruct (rejects env op)
         | |- context [valid_messageType ?x] => destruct (valid_messageType x)
         | |- context [truthy ?x] => destruct (truthy x)
         | |- context [hasMember ?g ?x] => destruct (hasMember g x)
         end.

Ltac settle_notifications :=
  first [ rewrite new_notifications_same by reflexivity; constructor
        | erewrite new_notifications_app by reflexivity ].

Section Contents.
Variable env : Env.
Variable socket : Socket.

Lemma private_notification_text r c t chat message :
  notification_content (private_notification env socket r c t chat message)
  = match text_of c with
    | Some text => socket_username socket +:+ " sent you a message: " +:+ truncated text
    | None => socket_username socket +:+ " sent you a " +:+ template t
    end.
Proof.
  cbn. unfold private_notification_content, text_of.
  destruct c as [s|]; [|reflexivity]. destruct (eqs s ""); reflexivity.
Qed.

Lemma group_notifications_text gid g message c t offline :
  Forall (λ n, notification_content n
               = match text_of c with
                 | Some text => socket_username socket +:+ " sent a message in "
                                  +:+ group_name g +:+ ": " +:+ truncated text
                 | None => socket_username socket +:+ " sent a " +:+ template t
                             +:+ " in " +:+ group_name g
                 end)
         (group_notifications env socket gid g message c t offline).
Proof.
  unfold group_notifications. apply Forall_imap. intros i x _. cbn.
  unfold group_notification_content, text_of.
  destruct c as [s|]; [|reflexivity]. destruct (eqs s ""); reflexivity.
Qed.

(** Every notification the private handler writes, whatever rejects. *)
Lemma private_new_notifications w r c u t :
  Forall (λ n, notification_content n
               = match text_of c with
                 | Some text => socket_username socket +:+ " sent you a message: "
                                  +:+ truncated text
                 | None => socket_username socket +:+ " sent you a " +:+ template t
                 end)
         (new_notifications w (step env socket (SendPrivateMessage r c u t) w).1).
Proof.
  unfold step, handler, on_send_private_message, save_message. unfold_monad.
  cbn [messageType new_message].
  split_run env; cbn [fst activeUsers set_messages set_chats];
    split_run env; cbn [fst]; settle_notifications.
  constructor; [apply private_notification_text|constructor].
Qed.

(** What the group handler adds to the notifications, whatever rejects:
    nothing, or a leading part of the batch built for the members without
    an [activeUsers] entry. *)
Lemma group_new_notifications_from w gid c u t :
  new_notifications w (step env socket (SendGroupMessage gid c u t) w).1 = []
  ∨ ∃ g k, GroupChat_findById gid (groups w) = Some g
           ∧ new_notifications w (step env socket (SendGroupMessage gid c u t) w).1
             = take k (group_notifications env socket gid (touch_group env g)
                         (new_message env socket c u t gid "GroupChat") c t
                         (offline_members socket w (touch_group env g))).
Proof.
  unfold step, handler, on_send_group_message, save_message. unfold_monad.
  cbn [messageType new_message].
  destruct (rejects env GroupChatFindById);
    [left; apply new_notifications_same; reflexivity|].
  destruct (GroupChat_findById gid (groups w)) as [g|] eqn:Hg;
    [|left; apply new_notifications_same; reflexivity].
  destruct (hasMember g (socket_user_id socket)); cbn [negb];
    [|left; apply new_notifications_same; reflexivity].
  destruct (rejects env GroupChatSave);
    [left; apply new_notifications_same; reflexivity|].
  destruct (rejects env MessageSave);
    [left; apply new_notifications_same; reflexivity|].
  destruct (valid_messageType (or_else t "text"));
    [|left; apply new_notifications_same; reflexivity].
  destruct (rejects env MessagePopulate);
    [left; apply new_notifications_same; reflexivity|].
  cbn [set_messages set_groups activeUsers].
  change (offline_members socket (set_messages _ (set_groups _ w)) (touch_group env g))
    with (offline_members socket w (touch_group env g)).
  set (docs := group_notifications env socket gid (touch_group env g)
                 (new_message env socket c u t gid "GroupChat") c t
                 (offline_members socket w (touch_group env g))).
  destruct (0 <? length (offline_members socket w (touch_group env g)))%nat; cbn [when].
  - right. exists g.
    destruct (rejects env NotificationInsertMany); cbn [fst].
    + exists (insertedBeforeReject env). split; [reflexivity|].
      apply new_notifications_app. reflexivity.
    + exists (length docs). split; [reflexivity|].
      rewrite firstn_all. apply new_notifications_app. reflexivity.
  - left. apply new_notifications_same. reflexivity.
Qed.

(** Every notification the group handler writes, whatever rejects. *)
Lemma group_new_notifications w gid c u t :
  Forall (λ n, ∃ g, GroupChat_findById gid (groups w) = Some g
                    ∧ notification_content n
                      = match text_of c with
                        | Some text => socket_username socket +:+ " sent a message in "
                                         +:+ group_name g +:+ ": " +:+ truncated text
                        | None => socket_username socket +:+ " sent a " +:+ template t
                                    +:+ " in " +:+ group_name g
                        end)
         (new_notifications w (step env socket (SendGroupMessage gid c u t) w).1).
Proof.
  destruct (group_new_notifications_from w gid c u t) as [->|(g & k & Hg & ->)];
    [constructor|].
  apply Forall_take.
  eapply Forall_impl; [apply (group_notifications_text gid (touch_group env g))|].
  intros n Hn. exists g. split; [exact Hg|exact Hn].
Qed.

(** The group handler writes notifications only for users without an
    [activeUsers] entry. *)
Lemma group_new_notifications_absent w gid c u t :
  Forall (λ n, activeUsers w !! recipient n = None)
         (new_notifications w (step env socket (SendGroupMessage gid c u t) w).1).
Proof.
  destruct (group_new_notifications_from w gid c u t) as [->|(g & k & Hg & ->)];
    [constructor|].
  apply Forall_take. unfold group_notifications. apply Forall_imap.
  intros i x Hx. cbn [recipient].
  assert (existsb (λ y, eqs y x) (offline_members socket w (touch_group env g)) = true)
    as H.
  { apply existsb_exists. exists x. split; [apply list_elem_of_In; exact Hx|apply eqs_refl]. }
  apply offline_members_spec in H as (_ & _ & H). exact H.
Qed.
End Contents.

(** The text of every notification written by a fan-out is built from
    the payload as it was sent: when the payload has a non-empty content,
    that content cut to its first 30 code units, followed by the marker
    "..." exactly when it is longer than 30; otherwise the payload's
    [messageType], as a template literal prints it. *)
Theorem notification_summarizes_message env socket w r gid c u t text :
  Forall (λ n, notification_content n
               = match text_of c with
                 | Some text => socket_username socket +:+ " sent you a message: "
                                  +:+ truncated text
                 | None => socket_username socket +:+ " sent you a " +:+ template t
                 end)
         (new_notifications w (step env socket (SendPrivateMessage r c u t) w).1)
  ∧ Forall (λ n, ∃ g, GroupChat_findById gid (groups w) = Some g
                      ∧ notification_content n
                        = match text_of c with
                          | Some text => socket_username socket +:+ " sent a message in "
                                           +:+ group_name g +:+ ": " +:+ truncated text
                          | None => socket_username socket +:+ " sent a " +:+ template t
                                      +:+ " in " +:+ group_name g
                          end)
           (new_notifications w (step env socket (SendGroupMessage gid c u t) w).1)
  ∧ String.list_ascii_of_string (truncated text)
    = take 30 (String.list_ascii_of_string text)
      ++ (if (30 <? String.length text)%nat then String.list_ascii_of_string "..." else []).
Proof.
  split; [apply private_new_notifications|].
  split; [apply group_new_notifications|].
  unfold truncated, ellipsis.
  rewrite list_ascii_of_string_app, substring_take.
  destruct (30 <? String.length text)%nat; reflexivity.
Qed.

(** A long text is cut, a short one is kept, and a message without text
    is summarized by its type. *)
Example notification_texts :
  let send c t :=
    notification_content <$>
      new_notifications Scenario.two_online
        (step Scenario.quiet Scenario.alice_socket
              (SendPrivateMessage "carol" c None t) Scenario.two_online).1 in
  send (Some "0123456789012345678901234567890") None
    = [ "Alice sent you a message: 012345678901234567890123456789..." ]
  ∧ send (Some "012345678901234567890123456789") None
    = [ "Alice sent you a message: 012345678901234567890123456789" ]
  ∧ send None (Some "image") = [ "Alice sent you a image" ]
  ∧ (notification_content <$>
       new_notifications Scenario.two_online
         (step Scenario.quiet Scenario.alice_socket
               (SendGroupMessage "g" (Some "") None (Some "video")) Scenario.two_online).1)
    = [ "Alice sent a video in Team" ].
Proof. vm_compute. repeat split; reflexivity. Qed.

(** C8. A payload that names no message type and has no content, sent
    to a user who is away: the message is stored with the type "text"
    and an empty content, and the notification written for it reads
    "Alice sent you a undefined", which is not the type of the message.
    A content of blanks only is stored empty as well, since the schema
    trims it, and the notification embeds the blanks instead of naming
    the type. The group handler builds its text the same way. *)
Lemma notification_names_undefined_type :
  let send ev := (step Scenario.quiet Scenario.alice_socket ev Scenario.two_online).1 in
  let stored ev := (λ m, (content m, messageType m)) <$> last (messages (send ev)) in
  let told ev := notification_content <$> new_notifications Scenario.two_online (send ev) in
  activeUsers Scenario.two_online !! "carol" = None
  ∧ stored (SendPrivateMessage "carol" None (Some "pic.png") None) = Some ("", "text")
  ∧ told (SendPrivateMessage "carol" None (Some "pic.png") None)
    = [ "Alice sent you a undefined" ]
  ∧ stored (SendPrivateMessage "carol" (Some "   ") None None) = Some ("", "text")
  ∧ told (SendPrivateMessage "carol" (Some "   ") None None)
    = [ "Alice sent you a message:    " ]
  ∧ stored (SendGroupMessage "g" None (Some "pic.png") None) = Some ("", "text")
  ∧ told (SendGroupMessage "g" None (Some "pic.png") None)
    = [ "Alice sent a undefined in Team" ].
Proof. vm_compute. repeat split; reflexivity. Qed.

(** ** C9: what set-status touches *)

(** The status handler: the one user document is updated when the status
    is accepted and the update goes through; the events are status
    changes, or the one error for a status that is not accepted. *)
Lemma set_status_run env socket st w :
  ∃ es, step env socket (SetStatus st) w
        = (if valid_status st && negb (rejects env UserFindByIdAndUpdate)
           then set_users (alter (status_update env st) (socket_user_id socket)) w
           else w, es)
        ∧ Forall (λ e, event e = if valid_status st then "user-status-change"
                                 else "error") es.
Proof.
  unfold step, handler, on_set_status, update_user, find_friendIds.
  unfold try_catch, bind, await, gets, modify, throw, run.
  destruct (valid_status st); cbn [negb andb].
  2:{ eexists. split; [reflexivity|]. repeat constructor. }
  destruct (rejects env UserFindByIdAndUpdate); cbn [negb].
  { exists []. split; [reflexivity|constructor]. }
  destruct (rejects env FriendshipFind).
  { exists []. split; [reflexivity|constructor]. }
  match goal with
  | |- context [broadcast_status ?s ?l ?x ?seen ?w0] =>
      destruct (broadcast_status_run s l x seen w0) as (es & -> & Hes)
  end.
  exists es. split; [reflexivity|exact Hes].
Qed.

(** C9. set-status, also with the status "offline", changes nothing but
    the status and last-seen time of the caller's user document and emits
    only status-change events (one error event when the status is not
    accepted). [activeUsers] and the room subscriptions stay as they
    were, so a user with a registered handle is still delivered to live
    and gets no notification afterwards. *)
Theorem set_status_keeps_presence env env2 socket sender_socket st w s gid c u t :
  let me := socket_user_id socket in
  let w' := (step env socket (SetStatus st) w).1 in
  let private := step env2 sender_socket (SendPrivateMessage me c u t) w' in
  let group := step env2 sender_socket (SendGroupMessage gid c u t) w' in
  (activeUsers w' = activeUsers w ∧ rooms w' = rooms w)
  ∧ (chats w' = chats w ∧ groups w' = groups w ∧ messages w' = messages w
     ∧ notifications w' = notifications w ∧ friendships w' = friendships w)
  ∧ (∀ other, other ≠ me → users w' !! other = users w !! other)
  ∧ (username <$> users w' !! me = username <$> users w !! me
     ∧ socketId <$> users w' !! me = socketId <$> users w !! me
     ∧ status <$> users w' !! me
       = if valid_status st && negb (rejects env UserFindByIdAndUpdate)
         then (λ _, st) <$> users w !! me
         else status <$> users w !! me)
  ∧ Forall (λ e, event e = if valid_status st then "user-status-change" else "error")
           (step env socket (SetStatus st) w).2
  ∧ (activeUsers w !! me = Some s →
     s ≠ "" →
     (∀ op, rejects env2 op = false) →
     valid_messageType (or_else t "text") = true →
     emitted private.2 "receive-private-message" (IoTo s) = true
     ∧ new_notifications w' private.1 = [])
  ∧ (activeUsers w !! me = Some s → notified w' group.1 me = false).
Proof.
  intros me w' private group.
  destruct (set_status_run env socket st w) as (es & Hrun & Hes).
  assert (activeUsers w' = activeUsers w) as Hactive.
  { subst w'. rewrite Hrun. cbn [fst]. destruct (_ && _); reflexivity. }
  split; [split; [exact Hactive|]|].
  { subst w'. rewrite Hrun. cbn [fst]. destruct (_ && _); reflexivity. }
  split.
  { subst w'. rewrite Hrun. cbn [fst]. destruct (_ && _); repeat split. }
  split.
  { intros other Ho. subst w'. rewrite Hrun. cbn [fst].
    destruct (_ && _); [|reflexivity]. cbn [users set_users].
    apply lookup_alter_ne. intros E. apply Ho. symmetry. exact E. }
  split.
  { subst w'. rewrite Hrun. cbn [fst].
    destruct (_ && _); [|repeat split]. cbn [users set_users].
    rewrite lookup_alter_eq. fold me.
    destruct (users w !! me); repeat split. }
  split; [rewrite Hrun; exact Hes|].
  split.
  - intros Hs Hne Hq Hv.
    assert (truthy (activeUsers w' !! me) = true) as Htruthy.
    { rewrite Hactive, Hs. cbn. apply negb_true_iff, eqs_neq, Hne. }
    subst private. rewrite send_private_message_run by auto.
    rewrite Htruthy. cbn [fst snd]. rewrite Hactive, Hs.
    split; [cbn; rewrite !eqs_refl; reflexivity|].
    apply new_notifications_same. reflexivity.
  - intros Hs. subst group. unfold notified.
    pose proof (group_new_notifications_absent env2 sender_socket w' gid c u t) as Habs.
    induction Habs as [|n l Hn _ IH]; [reflexivity|].
    cbn. rewrite IH, orb_false_r. apply eqs_neq. intros E.
    rewrite E, Hactive, Hs in Hn. discriminate Hn.
Qed.

Lemma set_status_keeps_presence_witness :
  let env := Scenario.quiet in
  let socket := Scenario.bob_socket in
  let w := Scenario.two_online in
  let w' := (step env socket (SetStatus "offline") w).1 in
  let private := step env Scenario.alice_socket
                      (SendPrivateMessage "bob" (Some "hello") None None) w' in
  let group := step env Scenario.alice_socket
                    (SendGroupMessage "g" (Some "hello") None None) w' in
  activeUsers w !! "bob" = Some "sB"
  ∧ (status <$> users w' !! "bob") = Some "offline"
  ∧ (activeUsers w' = activeUsers w ∧ rooms w' = rooms w)
  ∧ (emitted private.2 "receive-private-message" (IoTo "sB") = true
     ∧ new_notifications w' private.1 = [])
  ∧ notified w' group.1 "bob" = false.
Proof.
  intros env socket w w' private group.
  split; [vm_compute; reflexivity|].
  split; [vm_compute; reflexivity|].
  destruct (set_status_keeps_presence env env socket Scenario.alice_socket "offline" w "sB"
              "g" (Some "hello") None None)
    as (Hpresence & _ & _ & _ & _ & Hprivate & Hgroup).
  split; [exact Hpresence|]. split.
  - apply Hprivate.
    + vm_compute. reflexivity.
    + discriminate.
    + intros op. reflexivity.
    + reflexivity.
  - apply Hgroup. vm_compute. reflexivity.
Defined.

(** Bob sets his status to offline while connected: the stored status
    says offline, and Alice's next message still reaches his connection
    and leaves no notification. *)
Example offline_status_still_live :
  let w' := (step Scenario.quiet Scenario.bob_socket (SetStatus "offline")
                  Scenario.two_online).1 in
  let private := step Scenario.quiet Scenario.alice_socket
                      (SendPrivateMessage "bob" (Some "hello") None None) w' in
  (status <$> users w' !! "bob") = Some "offline"
  ∧ receives (rooms private.1) private.2 "receive-private-message" "sB" = true
  ∧ notifications private.1 = [].
Proof. vm_compute. repeat split; reflexivity. Qed.

(** ** C10: marking a notification read *)

(** C10. notification-read marks the notification with the given id read
    and stamps it, for any caller: the result does not depend on the
    socket, so the caller need not be the recipient. Nothing is ever
    emitted; a rejected update changes nothing and is not reported. *)
Theorem notification_read_unchecked env socket other_socket notificationId w n :
  let run := step env socket (NotificationRead notificationId) w in
  run = step env other_socket (NotificationRead notificationId) w
  ∧ run.2 = []
  ∧ run.1 = (if rejects env NotificationFindByIdAndUpdate then w
             else set_notifications
                    (update_first (λ d, eqs (notification_id d) notificationId)
                                  (read_update env)) w)
  ∧ (Notification_findById notificationId (notifications w) = Some n →
     rejects env NotificationFindByIdAndUpdate = false →
     Notification_findById notificationId (notifications run.1)
     = Some (read_update env n)
     ∧ isRead (read_update env n) = true
     ∧ notification_readAt (read_update env n) = Some (now env)
     ∧ recipient (read_update env n) = recipient n).
Proof.
  cbn zeta. split; [reflexivity|].
  unfold step, handler, on_notification_read. unfold_monad.
  destruct (rejects env NotificationFindByIdAndUpdate); cbn [fst snd].
  - split; [reflexivity|]. split; [reflexivity|]. intros _ H. discriminate H.
  - split; [reflexivity|]. split; [reflexivity|]. intros Hn _.
    split; [|repeat split].
    cbn [notifications set_notifications]. unfold Notification_findById in *.
    apply (find_update_first _ (read_update env) _ n Hn).
    apply find_some in Hn as [_ Hn]. exact Hn.
Qed.

Lemma notification_read_unchecked_witness :
  let env := Scenario.quiet in
  let w := Scenario.carol_notified in
  let n := {| notification_id := "notif0"; recipient := "carol";
              notification_sender := "alice"; notification_type := "message";
              notification_content := "Alice sent you a message: ping";
              relatedChatId := "chat1"; relatedChatType := "Chat";
              relatedMessageId := "msg1"; isRead := false;
              notification_readAt := None |} in
  let run := step env Scenario.bob_socket (NotificationRead "notif0") w in
  (Notification_findById "notif0" (notifications w) = Some n
   ∧ recipient n ≠ socket_user_id Scenario.bob_socket)
  ∧ run = step env Scenario.carol_socket (NotificationRead "notif0") w
  ∧ run.2 = []
  ∧ (Notification_findById "notif0" (notifications run.1) = Some (read_update env n)
     ∧ isRead (read_update env n) = true
     ∧ notification_readAt (read_update env n) = Some (now env)
     ∧ recipient (read_update env n) = recipient n).
Proof.
  intros env w n run.
  split; [split; [vm_compute; reflexivity|discriminate]|].
  destruct (notification_read_unchecked env Scenario.bob_socket Scenario.carol_socket
              "notif0" w n) as (Hany & Hquiet & _ & Hread).
  split; [exact Hany|]. split; [exact Hquiet|].
  apply Hread; [vm_compute; reflexivity|reflexivity].
Defined.

(** * Further properties of the handlers and the models *)

(** ** What a computation keeps *)

Section Keeps.
Context {B : Type} (f : World → B).

Lemma keeps_ret {A} (a : A) : keeps f (ret a).
Proof. intros w. reflexivity. Qed.

Lemma keeps_throw {A} : keeps f (@throw A).
Proof. intros w. reflexivity. Qed.

Lemma keeps_gets {A} (g : World → A) : keeps f (gets g).
Proof. intros w. reflexivity. Qed.

Lemma keeps_emit t ev p : keeps f (emit t ev p).
Proof. intros w. reflexivity. Qed.

Lemma keeps_modify (g : World → World) : (∀ w, f (g w) = f w) → keeps f (modify g).
Proof. intros H w. apply H. Qed.

Lemma keeps_bind {A C} (m : M A) (k : A → M C) :
  keeps f m → (∀ a, keeps f (k a)) → keeps f (bind m k).
Proof.
  intros Hm Hk w. unfold bind. specialize (Hm w).
  destruct (m w) as [[w1 es1] [a|]]; cbn in *; [|exact Hm].
  specialize (Hk a w1). destruct (k a w1) as [[w2 es2] r]. cbn in *. congruence.
Qed.

Lemma keeps_try_catch (m h : M unit) : keeps f m → keeps f h → keeps f (try_catch m h).
Proof.
  intros Hm Hh w. unfold try_catch. specialize (Hm w).
  destruct (m w) as [[w1 es1] [a|]]; cbn in *; [exact Hm|].
  specialize (Hh w1). destruct (h w1) as [[w2 es2] r]. cbn in *. congruence.
Qed.

Lemma keeps_await {A} env op (m : M A) : keeps f m → keeps f (await env op m).
Proof. intros Hm. unfold await. destruct (rejects env op); [apply keeps_throw|exact Hm]. Qed.

Lemma keeps_when b (m : M unit) : keeps f m → keeps f (when b m).
Proof. intros Hm. destruct b; [exact Hm|apply keeps_ret]. Qed.

Lemma keeps_forEach {A} (l : list A) (k : A → M unit) :
  (∀ x, keeps f (k x)) → keeps f (forEach l k).
Proof.
  intros Hk. induction l as [|x l IH]; [apply keeps_ret|].
  cbn [forEach]. apply keeps_bind; [apply Hk|intros _; exact IH].
Qed.

Lemma keeps_if_active userId (k : string → M unit) :
  (∀ s, keeps f (k s)) → keeps f (if_active userId k).
Proof.
  intros Hk. unfold if_active. apply keeps_bind; [apply keeps_gets|].
  intros [s|]; [apply keeps_when, Hk|apply keeps_ret].
Qed.

Lemma keeps_broadcast_status socket friendIds st seen :
  keeps f (broadcast_status socket friendIds st seen).
Proof.
  unfold broadcast_status. apply keeps_forEach. intros x.
  apply keeps_if_active. intros s. apply keeps_emit.
Qed.

Lemma keeps_find_friendIds env socket : keeps f (find_friendIds env socket).
Proof. unfold find_friendIds. apply keeps_await, keeps_gets. Qed.
End Keeps.

(** Taking a computation apart, leaving the state changes to be checked. *)
Ltac keeps_step :=
  first
    [ apply keeps_ret | apply keeps_throw | apply keeps_gets | apply keeps_emit
    | apply keeps_broadcast_status | apply keeps_find_friendIds
    | apply keeps_bind; [|intros ?] | apply keeps_try_catch | apply keeps_await
    | apply keeps_when | apply keeps_forEach; intros ? | apply keeps_if_active; intros ?
    | apply keeps_modify; intros ?; reflexivity
    | match goal with
      | |- keeps _ (match ?x with _ => _ end) => destruct x
      | |- keeps _ (if ?x then _ else _) => destruct x
      end ].

Ltac keeps_all := repeat keeps_step.

(** ** Presence and subscriptions

    Which handlers touch [activeUsers] and the room subscriptions. *)

Lemma run_keeps {B} (f : World → B) (m : M unit) w : keeps f m → f (run m w).1 = f w.
Proof.
  intros Hm. unfold run. specialize (Hm w). destruct (m w) as [[w1 es] r]. exact Hm.
Qed.

Ltac keeps_handler :=
  cbn [handler];
  unfold on_connection, on_disconnect,
    on_send_private_message, on_send_group_message, on_typing_start,
    on_mark_as_read, on_set_status, on_join_group, on_leave_group,
    on_notification_read, save_message, update_user, join, leave;
  keeps_all.

Lemma step_keeps_activeUsers env socket ev w :
  ev ≠ Connection → ev ≠ Disconnect →
  activeUsers (step env socket ev w).1 = activeUsers w.
Proof.
  intros Hc Hd. unfold step. apply run_keeps.
  destruct ev; try contradiction; keeps_handler.
Qed.

(** ** Connecting and disconnecting *)

Lemma join_run socket room w :
  join socket room w = (join_all socket [room] w, [], Some tt).
Proof. reflexivity. Qed.

Lemma forEach_join {A} socket (room : A → string) (l : list A) w :
  forEach l (λ x, join socket (room x)) w = (join_all socket (map room l) w, [], Some tt).
Proof.
  revert w. induction l as [|x l IH]; intros w; [reflexivity|].
  cbn [forEach]. unfold bind. unfold join at 1. unfold modify. rewrite IH. reflexivity.
Qed.

Lemma join_all_rooms socket rs w :
  rooms (join_all socket rs w)
  = alter (λ joined, list_to_set rs ∪ joined) (socket_id socket) (rooms w).
Proof.
  revert w. induction rs as [|r rs IH]; intros w.
  - cbn. symmetry. apply alter_id. intros joined _. apply (left_id_L ∅ (∪)).
  - change (join_all socket (r :: rs) w)
      with (join_all socket rs
              (set_rooms (alter (λ joined, {[ r ]} ∪ joined) (socket_id socket)) w)).
    rewrite IH. cbn [rooms set_rooms]. rewrite alter_alter_eq.
    apply alter_ext. intros joined _. cbn.
    rewrite (comm_L (∪) {[ r ]} (list_to_set rs)), <- (assoc_L (∪)). reflexivity.
Qed.

Lemma join_all_keeps {B} (f : World → B) socket rs w :
  (∀ g w0, f (set_rooms g w0) = f w0) → f (join_all socket rs w) = f w.
Proof.
  intros Hf. revert w. induction rs as [|r rs IH]; intros w; [reflexivity|].
  change (join_all socket (r :: rs) w)
    with (join_all socket rs
            (set_rooms (alter (λ joined, {[ r ]} ∪ joined) (socket_id socket)) w)).
  rewrite IH. apply Hf.
Qed.

Lemma if_active_emit userId t ev p w :
  if_active userId (λ s, emit (t s) ev (p s)) w
  = (w,
     match activeUsers w !! userId with
     | Some s => if truthy (Some s)
                 then [ {| target := t s; event := ev; payload := p s |} ] else []
     | None => []
     end,
     Some tt).
Proof.
  unfold if_active. unfold_monad.
  destruct (activeUsers w !! userId) as [s|]; [|reflexivity].
  cbn. destruct (negb (eqs s "")); reflexivity.
Qed.

(** The status loop emits to exactly the listed users that have a truthy
    handle, in order. *)
Lemma broadcast_status_emits socket friendIds st seen w :
  broadcast_status socket friendIds st seen w
  = (w,
     flat_map (λ friendId,
                 match activeUsers w !! friendId with
                 | Some s =>
                     if truthy (Some s) then
                       [ {| target := IoTo s; event := "user-status-change";
                            payload := PStatusChange (socket_user_id socket)
                                         (socket_username socket) st seen |} ]
                     else []
                 | None => []
                 end) friendIds,
     Some tt).
Proof.
  unfold broadcast_status. induction friendIds as [|x l IH]; [reflexivity|].
  cbn [forEach flat_map]. unfold bind.
  rewrite (if_active_emit x IoTo "user-status-change"
             (λ _, PStatusChange (socket_user_id socket) (socket_username socket) st seen)).
  rewrite IH. reflexivity.
Qed.

(** The state a connection leaves once the status update and the lookup
    of the groups have gone through. *)
Lemma connection_state env socket w :
  rejects env UserFindByIdAndUpdate = false →
  rejects env GroupChatFind = false →
  (step env socket Connection w).1
  = join_all socket
      (socket_user_id socket
       :: map (λ g, "group:" +:+ group_id g) (groups_of (socket_user_id socket) (groups w)))
      (set_activeUsers (<[ socket_user_id socket := socket_id socket ]>)
         (set_users
            (alter (λ u, {| username := username u; status := "online";
                            lastSeen := now env; socketId := Some (socket_id socket) |})
                   (socket_user_id socket))
            (set_rooms (<[ socket_id socket := ∅ ]>) w))).
Proof.
  intros H1 H2.
  unfold step, handler, on_connection, update_user, find_friendIds.
  unfold_monad. rewrite H1, H2. unfold_monad.
  rewrite join_run.
  rewrite (forEach_join socket (λ g : GroupChatDoc, "group:" +:+ group_id g)).
  destruct (rejects env FriendshipFind); [reflexivity|].
  rewrite broadcast_status_emits.
  destruct (rejects env NotificationCountDocuments); reflexivity.
Qed.

Lemma connection_activeUsers env socket w :
  activeUsers (step env socket Connection w).1
  = (if rejects env UserFindByIdAndUpdate then activeUsers w
     else <[ socket_user_id socket := socket_id socket ]> (activeUsers w)).
Proof.
  destruct (rejects env UserFindByIdAndUpdate) eqn:H1.
  { unfold step, handler, on_connection, update_user. unfold_monad. rewrite H1.
    reflexivity. }
  destruct (rejects env GroupChatFind) eqn:H2.
  { unfold step, handler, on_connection, update_user. unfold_monad.
    rewrite H1, H2. unfold_monad. rewrite join_run. unfold_monad. cbn [fst].
    rewrite join_all_keeps by reflexivity. reflexivity. }
  rewrite connection_state by assumption.
  rewrite join_all_keeps by reflexivity. reflexivity.
Qed.

Lemma connection_rooms env socket w :
  rooms (step env socket Connection w).1
  = <[ socket_id socket :=
         if rejects env UserFindByIdAndUpdate then ∅
         else if rejects env GroupChatFind then {[ socket_user_id socket ]}
         else list_to_set (socket_user_id socket
                           :: map (λ g, "group:" +:+ group_id g)
                                  (groups_of (socket_user_id socket) (groups w))) ]>
      (rooms w).
Proof.
  destruct (rejects env UserFindByIdAndUpdate) eqn:H1.
  { unfold step, handler, on_connection, update_user. unfold_monad. rewrite H1.
    reflexivity. }
  destruct (rejects env GroupChatFind) eqn:H2.
  { unfold step, handler, on_connection, update_user. unfold_monad.
    rewrite H1, H2. unfold_monad. rewrite join_run. unfold_monad. cbn [fst].
    rewrite join_all_rooms. cbn [rooms set_rooms set_activeUsers set_users].
    rewrite alter_insert_eq. f_equal. cbn.
    rewrite (right_id_L ∅ (∪)), (right_id_L ∅ (∪)). reflexivity. }
  rewrite connection_state by assumption.
  rewrite join_all_rooms. cbn [rooms set_rooms set_activeUsers set_users].
  rewrite alter_insert_eq. f_equal. apply (right_id_L ∅ (∪)).
Qed.

(** X3. A connection registers the socket as the handle of its user,
    replacing whatever handle was stored, and subscribes it to the user's
    personal room and to the room of every group the user is a member of.
    When the status update rejects, the socket stays connected but is
    neither registered nor in any room; when the lookup of the groups
    rejects, it is registered and in the personal room only. *)
Theorem connection_registers_and_subscribes env socket w :
  let w' := (step env socket Connection w).1 in
  let me := socket_user_id socket in
  activeUsers w'
  = (if rejects env UserFindByIdAndUpdate then activeUsers w
     else <[ me := socket_id socket ]> (activeUsers w))
  ∧ rooms w'
    = <[ socket_id socket :=
           if rejects env UserFindByIdAndUpdate then ∅
           else if rejects env GroupChatFind then {[ me ]}
           else list_to_set (me :: map (λ g, "group:" +:+ group_id g)
                                       (groups_of me (groups w))) ]> (rooms w).
Proof. split; [apply connection_activeUsers|apply connection_rooms]. Qed.

(** The whole run of a connection when nothing rejects. *)
Lemma connection_run env socket w :
  (∀ op, rejects env op = false) →
  let me := socket_user_id socket in
  let friendIds := friendIdsOf me (friendships w) in
  let w' := (step env socket Connection w).1 in
  step env socket Connection w
  = (w',
     flat_map (λ friendId,
                 match activeUsers w' !! friendId with
                 | Some s =>
                     if truthy (Some s) then
                       [ {| target := IoTo s; event := "user-status-change";
                            payload := PStatusChange me (socket_username socket)
                                                     "online" None |} ]
                     else []
                 | None => []
                 end) friendIds
     ++ [ {| target := SocketEmit (socket_id socket); event := "active-friends";
             payload := PActiveFriends
                          (List.filter (λ id, bool_decide (is_Some (activeUsers w' !! id)))
                                       friendIds) |};
          {| target := SocketEmit (socket_id socket);
             event := "unread-notifications-count";
             payload := PCount (Notification_getUnreadCount me (notifications w)) |} ]).
Proof.
  intros Hq. cbn zeta. rewrite connection_state by apply Hq.
  unfold step, handler, on_connection, update_user, find_friendIds.
  unfold_monad. rewrite !Hq. unfold_monad.
  rewrite join_run.
  rewrite (forEach_join socket (λ g : GroupChatDoc, "group:" +:+ group_id g)).
  rewrite broadcast_status_emits.
  rewrite (join_all_keeps friendships), (join_all_keeps notifications) by reflexivity.
  reflexivity.
Qed.

(** X4. When nothing rejects, a connection tells exactly the accepted friends
    that have a truthy handle about the new status, in the order of the
    friendships, and then sends the connecting socket the list of the
    accepted friends that are in [activeUsers] and the number of unread
    notifications of its user, as [getUnreadCount] of the Notification
    model counts them. *)
Theorem connection_announces env socket w :
  (∀ op, rejects env op = false) →
  let me := socket_user_id socket in
  let friendIds := friendIdsOf me (friendships w) in
  let run := step env socket Connection w in
  run.2
  = flat_map (λ friendId,
                match activeUsers run.1 !! friendId with
                | Some s =>
                    if truthy (Some s) then
                      [ {| target := IoTo s; event := "user-status-change";
                           payload := PStatusChange me (socket_username socket)
                                                    "online" None |} ]
                    else []
                | None => []
                end) friendIds
    ++ [ {| target := SocketEmit (socket_id socket); event := "active-friends";
            payload := PActiveFriends
                         (List.filter (λ id, bool_decide (is_Some (activeUsers run.1 !! id)))
                                      friendIds) |};
         {| target := SocketEmit (socket_id socket);
            event := "unread-notifications-count";
            payload := PCount (Notification_getUnreadCount me (notifications w)) |} ].
Proof.
  intros Hq. cbn zeta.
  rewrite (connection_run env socket w Hq) at 1. reflexivity.
Qed.

Lemma connection_announces_witness :
  let env := Scenario.quiet in
  let socket := Scenario.bob_socket in
  let w := Scenario.alice_online in
  (∀ op, rejects env op = false)
  ∧ (step env socket Connection w).2
    = [ {| target := IoTo "sA"; event := "user-status-change";
           payload := PStatusChange "bob" "Bob" "online" None |};
        {| target := SocketEmit "sB"; event := "active-friends";
           payload := PActiveFriends [ "alice" ] |};
        {| target := SocketEmit "sB"; event := "unread-notifications-count";
           payload := PCount 0 |} ].
Proof.
  intros env socket w. split; [intros op; reflexivity|].
  rewrite (connection_announces env socket w); [|intros op; reflexivity].
  vm_compute. reflexivity.
Defined.

(** The state a disconnect leaves once the status update has gone
    through. *)
Lemma disconnect_state env socket w :
  rejects env UserFindByIdAndUpdate = false →
  (step env socket Disconnect w).1
  = set_activeUsers (delete (socket_user_id socket))
      (set_users
         (alter (λ u, {| username := username u; status := "offline";
                         lastSeen := now env; socketId := None |})
                (socket_user_id socket))
         (set_rooms (delete (socket_id socket)) w)).
Proof.
  intros H1.
  unfold step, handler, on_disconnect, update_user, find_friendIds.
  unfold_monad. rewrite H1. unfold_monad.
  destruct (rejects env FriendshipFind); [reflexivity|].
  rewrite broadcast_status_emits. reflexivity.
Qed.

(** X5. A connection followed by the disconnect of the same socket, with the
    status updates and the lookup of the groups going through: the user
    has no [activeUsers] entry, the socket has no room subscriptions, and
    the user document says offline with no socket id. A user and a socket
    that were not registered before leave both maps as they were. *)
Theorem connect_then_disconnect env1 env2 socket w :
  rejects env1 UserFindByIdAndUpdate = false →
  rejects env1 GroupChatFind = false →
  rejects env2 UserFindByIdAndUpdate = false →
  let me := socket_user_id socket in
  let w' := steps [ (env1, socket, Connection); (env2, socket, Disconnect) ] w in
  activeUsers w' = delete me (activeUsers w)
  ∧ rooms w' = delete (socket_id socket) (rooms w)
  ∧ users w' !! me
    = (λ u, {| username := username u; status := "offline";
               lastSeen := now env2; socketId := None |}) <$> users w !! me
  ∧ (activeUsers w !! me = None → rooms w !! socket_id socket = None →
     activeUsers w' = activeUsers w ∧ rooms w' = rooms w).
Proof.
  intros H1 H2 H3. cbn zeta. cbn [steps].
  rewrite disconnect_state by assumption.
  rewrite connection_state by assumption.
  cbn [activeUsers rooms users set_activeUsers set_users set_rooms].
  rewrite (join_all_keeps activeUsers), (join_all_keeps users) by reflexivity.
  rewrite join_all_rooms.
  cbn [activeUsers rooms users set_activeUsers set_users set_rooms].
  assert (delete (socket_user_id socket)
            (<[ socket_user_id socket := socket_id socket ]> (activeUsers w))
          = delete (socket_user_id socket) (activeUsers w)) as Ha
    by apply delete_insert_eq.
  assert (delete (socket_id socket)
            (alter (λ joined, list_to_set
                      (socket_user_id socket
                       :: map (λ g, "group:" +:+ group_id g)
                              (groups_of (socket_user_id socket) (groups w))) ∪ joined)
                   (socket_id socket) (<[ socket_id socket := ∅ ]> (rooms w)))
          = delete (socket_id socket) (rooms w)) as Hr.
  { rewrite delete_alter_eq. apply delete_insert_eq. }
  rewrite Ha, Hr.
  split; [reflexivity|]. split; [reflexivity|]. split.
  - rewrite !lookup_alter_eq. destruct (users w !! socket_user_id socket); reflexivity.
  - intros Hu Hs. rewrite !delete_id by assumption. split; reflexivity.
Qed.

Lemma connect_then_disconnect_witness :
  let env := Scenario.quiet in
  let socket := Scenario.carol_socket in
  let w := Scenario.two_online in
  let w' := steps [ (env, socket, Connection); (env, socket, Disconnect) ] w in
  (activeUsers w !! "carol" = None ∧ rooms w !! "sC" = None)
  ∧ activeUsers w' = activeUsers w ∧ rooms w' = rooms w
  ∧ (status <$> users w' !! "carol") = Some "offline".
Proof.
  intros env socket w w'.
  split; [vm_compute; split; reflexivity|].
  destruct (connect_then_disconnect env env socket w) as (_ & _ & Hu & Hsame);
    try reflexivity.
  destruct Hsame as [Ha Hr]; try (vm_compute; reflexivity).
  split; [exact Ha|]. split; [exact Hr|].
  etrans; [exact (f_equal (fmap status) Hu)|]. vm_compute. reflexivity.
Defined.

Lemma disconnect_activeUsers env socket w :
  activeUsers (step env socket Disconnect w).1
  = (if rejects env UserFindByIdAndUpdate then activeUsers w
     else delete (socket_user_id socket) (activeUsers w)).
Proof.
  destruct (rejects env UserFindByIdAndUpdate) eqn:H1.
  - unfold step, handler, on_disconnect, update_user. unfold_monad. rewrite H1.
    reflexivity.
  - rewrite disconnect_state by assumption. reflexivity.
Qed.

Lemma step_handles_truthy env socket ev w :
  socket_id socket ≠ "" → handles_truthy w → handles_truthy (step env socket ev w).1.
Proof.
  intros Hs Hw userId s.
  destruct ev;
    try (rewrite step_keeps_activeUsers by discriminate; apply Hw).
  - rewrite connection_activeUsers.
    destruct (rejects env UserFindByIdAndUpdate); [apply Hw|].
    rewrite lookup_insert. case_decide; [intros [= <-]; exact Hs|apply Hw].
  - rewrite disconnect_activeUsers.
    destruct (rejects env UserFindByIdAndUpdate); [apply Hw|].
    rewrite lookup_delete. case_decide; [discriminate|apply Hw].
Qed.

(** ** Joining and leaving the room of a group *)

Lemma in_room_alter rs f sid room s :
  in_room (alter f sid rs) room s
  = match rs !! s with
    | Some joined =>
        bool_decide (room = s ∨ room ∈ (if decide (sid = s) then f joined else joined))
    | None => false
    end.
Proof.
  unfold in_room. rewrite lookup_alter. case_decide; [subst|reflexivity].
  destruct (rs !! s); reflexivity.
Qed.

(** The join-group handler: the subscription is added exactly when the
    lookup goes through and finds a group of which the caller is a
    member. *)
Lemma join_group_state env socket groupId w :
  (step env socket (JoinGroup groupId) w).1
  = if negb (rejects env GroupChatFindById)
       && match GroupChat_findById groupId (groups w) with
          | Some g => hasMember g (socket_user_id socket)
          | None => false
          end
    then join_all socket [ "group:" +:+ groupId ] w
    else w.
Proof.
  unfold step, handler, on_join_group. unfold_monad.
  destruct (rejects env GroupChatFindById); [reflexivity|].
  destruct (GroupChat_findById groupId (groups w)) as [g|]; [|reflexivity].
  destruct (hasMember g (socket_user_id socket)); reflexivity.
Qed.

Lemma leave_group_state env socket groupId w :
  (step env socket (LeaveGroup groupId) w).1
  = set_rooms (alter (λ joined, joined ∖ {[ "group:" +:+ groupId ]}) (socket_id socket)) w.
Proof. reflexivity. Qed.



(** Who receives the broadcast of a stored group message. *)
Lemma group_send_receives env socket w gid g c u t s :
  rejects env GroupChatFindById = false →
  GroupChat_findById gid (groups w) = Some g →
  hasMember g (socket_user_id socket) = true →
  rejects env GroupChatSave = false →
  rejects env MessageSave = false →
  rejects env MessagePopulate = false →
  valid_messageType (or_else t "text") = true →
  receives (rooms (step env socket (SendGroupMessage gid c u t) w).1)
           (step env socket (SendGroupMessage gid c u t) w).2 "receive-group-message" s
  = in_room (rooms w) ("group:" +:+ gid) s.
Proof.
  intros H1 Hg Hm H2 H3 H4 Hv.
  rewrite (send_group_message_run env socket w gid c u t g) by assumption.
  unfold receives.
  destruct (0 <? _)%nat; [destruct (rejects env NotificationInsertMany)|];
    cbn; rewrite ?eqs_refl, ?orb_false_r; reflexivity.
Qed.

(** X8. After leave-group a socket no longer receives the messages of the
    group, member or not; after a join-group by a member on a connected
    socket it receives them again. *)
Theorem leave_and_join_control_delivery env env2 socket sender_socket gid g c u t w :
  rejects env GroupChatFindById = false →
  GroupChat_findById gid (groups w) = Some g →
  hasMember g (socket_user_id socket) = true →
  hasMember g (socket_user_id sender_socket) = true →
  rejects env2 GroupChatFindById = false →
  rejects env2 GroupChatSave = false →
  rejects env2 MessageSave = false →
  rejects env2 MessagePopulate = false →
  valid_messageType (or_else t "text") = true →
  is_Some (rooms w !! socket_id socket) →
  "group:" +:+ gid ≠ socket_id socket →
  let left := (step env socket (LeaveGroup gid) w).1 in
  let joined := (step env socket (JoinGroup gid) left).1 in
  let send := step env2 sender_socket (SendGroupMessage gid c u t) in
  receives (rooms (send left).1) (send left).2 "receive-group-message" (socket_id socket)
  = false
  ∧ receives (rooms (send joined).1) (send joined).2 "receive-group-message"
             (socket_id socket)
    = true.
Proof.
  intros H0 Hg Hm Hs H1 H2 H3 H4 Hv [joined0 Hc] Hne. cbn zeta.
  assert ((step env socket (JoinGroup gid) (step env socket (LeaveGroup gid) w).1).1
          = join_all socket [ "group:" +:+ gid ] (step env socket (LeaveGroup gid) w).1)
    as Hjoin.
  { rewrite join_group_state, H0.
    change (groups (step env socket (LeaveGroup gid) w).1) with (groups w).
    rewrite Hg, Hm. reflexivity. }
  split.
  - rewrite (group_send_receives env2 sender_socket _ gid g) by assumption.
    rewrite leave_group_state. cbn [rooms set_rooms]. rewrite in_room_alter, Hc.
    rewrite decide_True by reflexivity.
    apply bool_decide_eq_false. intros [H|H]; [contradiction|].
    apply elem_of_difference in H as [_ H]. apply H, elem_of_singleton. reflexivity.
  - rewrite Hjoin.
    rewrite (group_send_receives env2 sender_socket _ gid g) by assumption.
    rewrite join_all_rooms, in_room_alter, leave_group_state.
    cbn [rooms set_rooms]. rewrite lookup_alter_eq, Hc. cbn [fmap option_fmap option_map].
    rewrite decide_True by reflexivity.
    apply bool_decide_eq_true. right. apply elem_of_union. left.
    cbn. apply elem_of_union. left. apply elem_of_singleton. reflexivity.
Qed.

Lemma leave_and_join_control_delivery_witness :
  let env := Scenario.quiet in
  let w := Scenario.two_online in
  let left := (step env Scenario.bob_socket (LeaveGroup "g") w).1 in
  let joined := (step env Scenario.bob_socket (JoinGroup "g") left).1 in
  let send := step env Scenario.alice_socket (SendGroupMessage "g" (Some "hello") None None) in
  (GroupChat_findById "g" (groups w) = Some Scenario.team
   ∧ is_Some (rooms w !! "sB"))
  ∧ receives (rooms (send left).1) (send left).2 "receive-group-message" "sB" = false
  ∧ receives (rooms (send joined).1) (send joined).2 "receive-group-message" "sB" = true.
Proof.
  intros env w left joined send.
  split; [split; [vm_compute; reflexivity|vm_compute; solve [eauto]]|].
  apply (leave_and_join_control_delivery env env Scenario.bob_socket Scenario.alice_socket
           "g" Scenario.team (Some "hello") None None w);
    first [ reflexivity | discriminate | vm_compute; reflexivity
          | vm_compute; solve [eauto] ].
Defined.

(** ** The chat of two users *)

Lemma Chat_findOne_sym a b cs : Chat_findOne a b cs = Chat_findOne b a cs.
Proof.
  unfold Chat_findOne. induction cs as [|c cs IH]; [reflexivity|].
  cbn. rewrite andb_comm, IH. reflexivity.
Qed.

(** X9. Two users converge on one chat: once a private send from one to the
    other has stored its chat and message, a send in the other direction
    finds that chat, creates no new one, and stores its message under the
    same chat id. *)
Theorem private_chat_is_shared env env2 socket peer_socket w c u t c2 u2 t2 :
  rejects env ChatFindOne = false →
  rejects env ChatSave = false →
  rejects env MessageSave = false →
  rejects env MessagePopulate = false →
  valid_messageType (or_else t "text") = true →
  rejects env2 ChatFindOne = false →
  rejects env2 ChatSave = false →
  rejects env2 MessageSave = false →
  rejects env2 MessagePopulate = false →
  valid_messageType (or_else t2 "text") = true →
  let me := socket_user_id socket in
  let peer := socket_user_id peer_socket in
  let w1 := (step env socket (SendPrivateMessage peer c u t) w).1 in
  let w2 := (step env2 peer_socket (SendPrivateMessage me c2 u2 t2) w1).1 in
  length (chats w2) = length (chats w1)
  ∧ ∃ m1 m2, messages w2 = messages w ++ [ m1; m2 ]
             ∧ sender m1 = me ∧ sender m2 = peer ∧ chatId m1 = chatId m2.
Proof.
  intros H1 H2 H3 H4 Hv G1 G2 G3 G4 Gv me peer w1 w2.
  set (found := Chat_findOne me peer (chats w)).
  set (chat := chat_for env socket peer found).
  assert (chats w1 = save_chat found chat (chats w)
          ∧ messages w1
            = messages w ++ [ new_message env socket c u t (chat_id chat) "Chat" ])
    as [Hchats Hmessages].
  { subst w1. rewrite send_private_message_run by assumption.
    destruct (truthy _); [split; reflexivity|].
    destruct (rejects env NotificationSave); split; reflexivity. }
  assert (Chat_findOne peer me (chats w1) = Some chat) as Hfound.
  { rewrite Chat_findOne_sym, Hchats. apply Chat_findOne_saved. }
  assert (chats w2
          = save_chat (Some chat) (chat_for env2 peer_socket me (Some chat)) (chats w1)
          ∧ messages w2
            = messages w1
              ++ [ new_message env2 peer_socket c2 u2 t2
                     (chat_id (chat_for env2 peer_socket me (Some chat))) "Chat" ])
    as [Hchats2 Hmessages2].
  { subst w2. rewrite send_private_message_run by assumption.
    fold peer. rewrite Hfound.
    destruct (truthy _); [split; reflexivity|].
    destruct (rejects env2 NotificationSave); split; reflexivity. }
  split.
  - rewrite Hchats2. cbn [save_chat]. apply update_first_length.
  - eexists _, _. rewrite Hmessages2, Hmessages, <- app_assoc.
    split; [reflexivity|]. repeat split.
Qed.

Lemma private_chat_is_shared_witness :
  let env := Scenario.quiet in
  let env2 := Scenario.at_time 2000 (λ _, false) in
  let w := Scenario.two_online in
  let w1 := (step env Scenario.alice_socket
                  (SendPrivateMessage "bob" (Some "hello") None None) w).1 in
  let w2 := (step env2 Scenario.bob_socket
                  (SendPrivateMessage "alice" (Some "hi") None None) w1).1 in
  chats w = []
  ∧ length (chats w2) = length (chats w1)
  ∧ ∃ m1 m2, messages w2 = messages w ++ [ m1; m2 ]
             ∧ sender m1 = "alice" ∧ sender m2 = "bob" ∧ chatId m1 = chatId m2.
Proof.
  intros env env2 w w1 w2. split; [vm_compute; reflexivity|].
  apply (private_chat_is_shared env env2 Scenario.alice_socket Scenario.bob_socket w
           (Some "hello") None None (Some "hi") None None); reflexivity.
Defined.

(** ** Unread notifications *)

Lemma getUnreadCount_app userId ns ms :
  Notification_getUnreadCount userId (ns ++ ms)
  = (Notification_getUnreadCount userId ns + Notification_getUnreadCount userId ms)%nat.
Proof. unfold Notification_getUnreadCount. rewrite List.filter_app. apply length_app. Qed.

(** X10. A private message to a user without a truthy handle adds one to the
    unread notifications of that user and of nobody else; a message to a
    reachable user adds none. The number is what the user is sent as
    unread-notifications-count at the next connection. *)
Theorem absent_recipient_counts_unread env env2 socket peer_socket w c u t other :
  (∀ op, rejects env op = false) →
  valid_messageType (or_else t "text") = true →
  (∀ op, rejects env2 op = false) →
  let r := socket_user_id peer_socket in
  let w1 := (step env socket (SendPrivateMessage r c u t) w).1 in
  let unread := (Notification_getUnreadCount r (notifications w)
                 + if truthy (activeUsers w !! r) then 0 else 1)%nat in
  Notification_getUnreadCount r (notifications w1) = unread
  ∧ (other ≠ r →
     Notification_getUnreadCount other (notifications w1)
     = Notification_getUnreadCount other (notifications w))
  ∧ last (step env2 peer_socket Connection w1).2
    = Some {| target := SocketEmit (socket_id peer_socket);
              event := "unread-notifications-count"; payload := PCount unread |}.
Proof.
  intros Hq Hv Hq2 r w1 unread.
  assert (notifications w1
          = notifications w
            ++ (if truthy (activeUsers w !! r) then []
                else [ private_notification env socket r c t
                         (chat_for env socket r
                            (Chat_findOne (socket_user_id socket) r (chats w)))
                         (new_message env socket c u t
                            (chat_id (chat_for env socket r
                               (Chat_findOne (socket_user_id socket) r (chats w))))
                            "Chat") ])) as Hn.
  { subst w1. rewrite send_private_message_run by auto.
    destruct (truthy _); [cbn; rewrite app_nil_r; reflexivity|].
    rewrite Hq. reflexivity. }
  assert (Notification_getUnreadCount r (notifications w1) = unread) as Hcount.
  { rewrite Hn, getUnreadCount_app. subst unread. f_equal.
    destruct (truthy _); [reflexivity|].
    unfold Notification_getUnreadCount, unread_for. cbn. rewrite eqs_refl. reflexivity. }
  split; [exact Hcount|]. split.
  - intros Ho. rewrite Hn, getUnreadCount_app.
    destruct (truthy _); [cbn; lia|].
    assert (eqs (socket_user_id peer_socket) other = false) as E.
    { apply eqs_neq. intros E. apply Ho. symmetry. exact E. }
    unfold Notification_getUnreadCount at 2. unfold unread_for. subst r. cbn.
    unfold eqs in E. rewrite E. cbn. lia.
  - rewrite (connection_run env2 peer_socket w1 Hq2). cbn [snd].
    fold r. rewrite Hcount.
    match goal with
    | |- last (?l ++ [ ?a; ?b ]) = _ => change (l ++ [ a; b ]) with (l ++ [ a ] ++ [ b ])
    end.
    rewrite app_assoc. apply last_snoc.
Qed.

Lemma absent_recipient_counts_unread_witness :
  let env := Scenario.quiet in
  let w := Scenario.two_online in
  let w1 := (step env Scenario.alice_socket
                  (SendPrivateMessage "carol" (Some "hello") None None) w).1 in
  truthy (activeUsers w !! "carol") = false
  ∧ Notification_getUnreadCount "carol" (notifications w1) = 1%nat
  ∧ Notification_getUnreadCount "bob" (notifications w1) = 0%nat
  ∧ last (step env Scenario.carol_socket Connection w1).2
    = Some {| target := SocketEmit "sC"; event := "unread-notifications-count";
              payload := PCount 1 |}.
Proof.
  intros env w w1. split; [vm_compute; reflexivity|].
  destruct (absent_recipient_counts_unread env env Scenario.alice_socket
              Scenario.carol_socket w (Some "hello") None None "bob")
    as (Hcount & Hother & Hlast);
    try (intros op; reflexivity); try reflexivity.
  split; [exact Hcount|]. split; [|exact Hlast].
  etrans; [apply Hother; discriminate|]. vm_compute. reflexivity.
Defined.

(** ** Typing indicators *)

(** X11. In a group, typing and stop-typing reach exactly the sockets in the
    room of the group other than the sender's own; and for either kind of
    chat typing-end is sent to exactly the targets typing-start is sent
    to. *)
Theorem typing_skips_the_sender env socket w chat kind s :
  let room := "group:" +:+ chat in
  receives (rooms w) (step env socket (TypingStart chat "GroupChat") w).2 "typing" s
  = in_room (rooms w) room s && negb (String.eqb (socket_id socket) s)
  ∧ relay_receives (rooms w) (on_typing_end env socket chat "GroupChat" w) "stop-typing" s
    = in_room (rooms w) room s && negb (String.eqb (socket_id socket) s)
  ∧ map target (step env socket (TypingStart chat kind) w).2
    = map relay_target (on_typing_end env socket chat kind w).
Proof.
  cbn zeta. split; [|split].
  - cbn. rewrite orb_false_r. reflexivity.
  - cbn. rewrite orb_false_r. reflexivity.
  - unfold step, handler, on_typing_start, on_typing_end.
    destruct (eqs kind "Chat").
    + unfold try_catch, bind, await, gets, throw, ret, run.
      destruct (rejects env ChatFindById); [reflexivity|].
      destruct (Chat_findById chat (chats w)) as [c|]; [|reflexivity].
      destruct (find _ (participants c)) as [other|]; [|reflexivity].
      rewrite (if_active_emit other IoTo "typing"
                 (λ _, PTyping chat (socket_user_id socket) (socket_username socket))).
      destruct (activeUsers w !! other) as [h|]; [|reflexivity].
      destruct (truthy (Some h)); reflexivity.
    + destruct (eqs kind "GroupChat"); reflexivity.
Qed.

(** ** The text of a notification is short *)

Lemma string_length_app a b :
  String.length (a +:+ b) = (String.length a + String.length b)%nat.
Proof.
  induction a as [|x a IH]; [reflexivity|].
  change (S (String.length (a +:+ b)) = S (String.length a + String.length b)).
  rewrite IH. reflexivity.
Qed.

Lemma substring_length_le n s : (String.length (String.substring 0 n s) ≤ n)%nat.
Proof.
  revert s. induction n as [|n IH]; intros [|a s]; cbn; try lia.
  specialize (IH s). lia.
Qed.

Lemma truncated_length c : (String.length (truncated c) ≤ 33)%nat.
Proof.
  unfold truncated, ellipsis. rewrite string_length_app.
  pose proof (substring_length_le 30 c).
  destruct (30 <? String.length c)%nat; cbn; lia.
Qed.

Lemma template_length t :
  valid_messageType (or_else t "text") = true → (String.length (template t) ≤ 9)%nat.
Proof.
  destruct t as [s|]; cbn; [|lia].
  destruct (eqs s "") eqn:E.
  { apply eqs_eq in E. subst s. cbn. lia. }
  unfold valid_messageType, messageTypes. cbn.
  intros H. repeat (apply orb_true_iff in H as [H|H];
                    [apply eqs_eq in H; subst s; cbn; lia|]).
  discriminate H.
Qed.

Section Bounded.
Variable env : Env.
Variable socket : Socket.

Lemma private_new_notifications_valid w r c u t :
  new_notifications w (step env socket (SendPrivateMessage r c u t) w).1 = []
  ∨ (valid_messageType (or_else t "text") = true
     ∧ ∃ chat message,
         new_notifications w (step env socket (SendPrivateMessage r c u t) w).1
         = [ private_notification env socket r c t chat message ]).
Proof.
  unfold step, handler, on_send_private_message, save_message. unfold_monad.
  cbn [messageType new_message].
  destruct (valid_messageType (or_else t "text")) eqn:Hv.
  2:{ left. split_run env; cbn [fst]; apply new_notifications_same; reflexivity. }
  split_run env; cbn [fst activeUsers set_messages set_chats];
    split_run env; cbn [fst];
    first [ left; apply new_notifications_same; reflexivity
          | right; split; [reflexivity|]; eexists _, _;
            apply new_notifications_app; reflexivity ].
Qed.

Lemma group_new_notifications_valid w gid c u t :
  new_notifications w (step env socket (SendGroupMessage gid c u t) w).1 = []
  ∨ valid_messageType (or_else t "text") = true.
Proof.
  destruct (valid_messageType (or_else t "text")) eqn:Hv; [right; reflexivity|left].
  unfold step, handler, on_send_group_message, save_message. unfold_monad.
  cbn [messageType new_message]. rewrite Hv.
  destruct (rejects env GroupChatFindById);
    [apply new_notifications_same; reflexivity|].
  destruct (GroupChat_findById gid (groups w)) as [g|];
    [|apply new_notifications_same; reflexivity].
  destruct (hasMember g (socket_user_id socket)); cbn [negb];
    [|apply new_notifications_same; reflexivity].
  destruct (rejects env GroupChatSave);
    [apply new_notifications_same; reflexivity|].
  destruct (rejects env MessageSave); apply new_notifications_same; reflexivity.
Qed.
End Bounded.

(** X12. However long the message and whatever rejects, the text of a
    notification written by a send handler is at most 54 characters
    longer than the name of the sender, plus the name of the group for a
    group message. *)
Theorem notification_text_is_bounded env socket w r gid c u t :
  Forall (λ n, (String.length (notification_content n)
                ≤ String.length (socket_username socket) + 54)%nat)
         (new_notifications w (step env socket (SendPrivateMessage r c u t) w).1)
  ∧ Forall (λ n, ∃ g, GroupChat_findById gid (groups w) = Some g
                      ∧ (String.length (notification_content n)
                         ≤ String.length (socket_username socket)
                           + String.length (group_name g) + 54)%nat)
           (new_notifications w (step env socket (SendGroupMessage gid c u t) w).1).
Proof.
  split.
  - destruct (private_new_notifications_valid env socket w r c u t)
      as [->|(Hv & chat & message & ->)]; [constructor|].
    constructor; [|constructor].
    rewrite private_notification_text.
    destruct (text_of c) as [text|]; rewrite !string_length_app; cbn.
    + pose proof (truncated_length text). lia.
    + pose proof (template_length t Hv). lia.
  - destruct (group_new_notifications_valid env socket w gid c u t) as [->|Hv];
      [constructor|].
    eapply Forall_impl; [apply group_new_notifications|].
    intros n (g & Hg & Hn). exists g. split; [exact Hg|]. rewrite Hn.
    destruct (text_of c) as [text|]; rewrite !string_length_app; cbn.
    + pose proof (truncated_length text). lia.
    + pose proof (template_length t Hv). lia.
Qed.

(** ** Methods of the models *)

(** X13. [getOtherParticipant] of a chat returns a participant other than the
    given user, and nothing exactly when there is none. For a user who is
    not in the chat it returns the first participant; in a chat of two
    different users each of them gets the other. *)
Theorem other_participant_of_a_chat c userId other a b :
  (getOtherParticipant c userId = Some other →
   other ∈ participants c ∧ other ≠ userId)
  ∧ (getOtherParticipant c userId = None ↔ ∀ p, p ∈ participants c → p = userId)
  ∧ (hasParticipant c userId = false → getOtherParticipant c userId = head (participants c))
  ∧ (participants c = [ a; b ] → a ≠ b →
     getOtherParticipant c a = Some b ∧ getOtherParticipant c b = Some a).
Proof.
  unfold getOtherParticipant, hasParticipant. repeat split.
  - apply find_some in H as [H _]. apply list_elem_of_In. exact H.
  - apply find_some in H as [_ H]. apply negb_true_iff, eqs_neq in H. exact H.
  - intros H p Hp. destruct (eqs p userId) eqn:E; [apply eqs_eq; exact E|].
    exfalso. apply list_elem_of_In in Hp.
    pose proof (find_none _ _ H p Hp) as Hn. cbn in Hn. rewrite E in Hn. discriminate Hn.
  - intros H. destruct (find _ (participants c)) as [o|] eqn:E; [|reflexivity].
    apply find_some in E as [Hin Ho]. apply negb_true_iff, eqs_neq in Ho.
    exfalso. apply Ho, H, list_elem_of_In, Hin.
  - destruct (participants c) as [|p ps]; [reflexivity|].
    cbn. intros H. apply orb_false_iff in H as [H _]. rewrite H. reflexivity.
  - rewrite H. cbn. rewrite eqs_refl. cbn.
    replace (eqs b a) with false; [reflexivity|].
    symmetry. apply eqs_neq. intros E. apply H0. symmetry. exact E.
  - rewrite H. cbn.
    replace (eqs a b) with false; [reflexivity|]. symmetry. apply eqs_neq. exact H0.
Qed.

Lemma other_participant_of_a_chat_witness :
  let c := {| chat_id := "chat1"; participants := [ "alice"; "bob" ];
              chat_lastActivity := 0 |} in
  hasParticipant c "dave" = false
  ∧ getOtherParticipant c "dave" = Some "alice"
  ∧ getOtherParticipant c "alice" = Some "bob"
  ∧ getOtherParticipant c "bob" = Some "alice"
  ∧ ("alice" ∈ participants c ∧ "alice" ≠ "dave").
Proof.
  intros c.
  destruct (other_participant_of_a_chat c "dave" "alice" "alice" "bob")
    as (Hsome & _ & Hhead & Hpair).
  split; [reflexivity|]. split; [exact (Hhead eq_refl)|].
  destruct (other_participant_of_a_chat c "alice" "bob" "alice" "bob")
    as (_ & _ & _ & Hpair').
  destruct Hpair' as [Hab Hba]; [reflexivity|discriminate|].
  split; [exact Hab|]. split; [exact Hba|].
  apply Hsome. exact (Hhead eq_refl).
Defined.

(** X14. The roles of a group: an admin is a moderator; a user has a role
    exactly when [hasMember] holds; the role "admin" makes an admin and the
    role "moderator" a moderator; and the user in the [admin] field of the
    group is an admin and a moderator also without being a member. *)
Theorem group_roles admin g userId :
  (isAdmin admin g userId = true → isModerator admin g userId = true)
  ∧ (getMemberRole g userId = None ↔ hasMember g userId = false)
  ∧ (getMemberRole g userId = Some "admin" → isAdmin admin g userId = true)
  ∧ (getMemberRole g userId = Some "moderator" → isModerator admin g userId = true)
  ∧ (hasMember g userId = false →
     isAdmin admin g userId = eqs admin userId
     ∧ isModerator admin g userId = eqs admin userId).
Proof.
  unfold isAdmin, isModerator, getMemberRole, hasMember.
  induction (members g) as [|m ms (IH1 & IH2 & IH3 & IH4 & IH5)]; cbn.
  { repeat split; auto; discriminate. }
  destruct (eqs (member_user m) userId) eqn:Hu; cbn.
  - repeat split; try discriminate.
    + destruct (eqs (member_role m) "admin"); cbn; [reflexivity|].
      intros H. destruct (eqs (member_role m) "moderator"); [reflexivity|]. cbn.
      apply IH1. exact H.
    + intros [= ->]. reflexivity.
    + intros [= ->]. reflexivity.
  - exact (conj IH1 (conj IH2 (conj IH3 (conj IH4 IH5)))).
Qed.

Lemma group_roles_witness :
  let g := {| group_id := "g"; group_name := "Team";
              members := [ {| member_user := "alice"; member_role := "admin" |};
                           {| member_user := "bob"; member_role := "moderator" |} ];
              group_lastActivity := 0 |} in
  getMemberRole g "bob" = Some "moderator"
  ∧ isModerator "alice" g "bob" = true
  ∧ hasMember g "dave" = false
  ∧ isAdmin "dave" g "dave" = true.
Proof.
  intros g.
  destruct (group_roles "alice" g "bob") as (_ & _ & _ & Hmod & _).
  destruct (group_roles "dave" g "dave") as (_ & _ & _ & _ & Hout).
  split; [reflexivity|]. split; [exact (Hmod eq_refl)|]. split; [reflexivity|].
  destruct (Hout eq_refl) as [Ha _]. exact Ha.
Defined.

(** X15. The read receipts of a message: [isReadBy] says whether the user is
    among [getReadByUsers]; [markAsRead] adds the user at the end exactly
    when absent, saves exactly then, and changes nobody else's receipt. *)
Theorem read_receipts_of_a_message at_ m userId other :
  let m' := (markAsRead at_ m userId).1 in
  isReadBy m userId = bool_decide (userId ∈ getReadByUsers m)
  ∧ isReadBy m' userId = true
  ∧ getReadByUsers m' = getReadByUsers m ++ (if isReadBy m userId then [] else [ userId ])
  ∧ (markAsRead at_ m userId).2 = negb (isReadBy m userId)
  ∧ (other ≠ userId → isReadBy m' other = isReadBy m other).
Proof.
  cbn zeta. rewrite markAsRead_eq. split; [|destruct (isReadBy m userId) eqn:Hr; cbn [fst snd]].
  - unfold isReadBy, getReadByUsers.
    induction (readBy m) as [|x l IH]; [reflexivity|].
    cbn. rewrite IH. destruct (eqs (read_user x) userId) eqn:E; cbn.
    + apply eqs_eq in E. symmetry. apply bool_decide_eq_true. rewrite E. left.
    + apply eqs_neq in E. apply bool_decide_ext. split; [right; assumption|].
      intros H. apply elem_of_cons in H as [H|H]; [congruence|exact H].
  - repeat split; [exact Hr|rewrite app_nil_r; reflexivity].
  - repeat split.
    + apply isReadBy_push.
    + unfold getReadByUsers. cbn. rewrite map_app. reflexivity.
    + intros Ho. unfold isReadBy. cbn. rewrite existsb_app. cbn.
      assert (eqs userId other = false) as E.
      { apply eqs_neq. intros E. apply Ho. symmetry. exact E. }
      unfold eqs in E. rewrite E, !orb_false_r. reflexivity.
Qed.

Lemma read_receipts_of_a_message_witness :
  let m := {| message_id := "msg1"; sender := "alice"; content := "hello";
              chatId := "chat1"; chatType := "Chat"; messageType := "text";
              mediaUrl := None;
              readBy := [ {| read_user := "alice"; readAt := 1000 |} ] |} in
  let m' := (markAsRead 2000 m "bob").1 in
  getReadByUsers m' = [ "alice"; "bob" ]
  ∧ isReadBy m' "alice" = isReadBy m "alice".
Proof.
  intros m m'.
  destruct (read_receipts_of_a_message 2000 m "bob" "alice") as (_ & _ & Hl & _ & Ho).
  split; [exact Hl|]. apply Ho. discriminate.
Defined.

(** ** Marking a whole chat read *)

Lemma eqs_sym a b : eqs a b = eqs b a.
Proof. apply String.eqb_sym. Qed.

Lemma update_first_ids (p : MessageDoc → bool) userId at_ ms :
  map message_id (update_first p (push_read userId at_) ms) = map message_id ms.
Proof.
  induction ms as [|x ms IH]; [reflexivity|].
  cbn. destruct (p x); cbn; [reflexivity|]. rewrite IH. reflexivity.
Qed.

Lemma map_unchanged {A} (f : A → A) (l : list A) :
  (∀ x, x ∈ l → f x = x) → map f l = l.
Proof.
  induction l as [|x l IH]; intros H; [reflexivity|].
  cbn. rewrite H by left. rewrite IH; [reflexivity|].
  intros y Hy. apply H. right. exact Hy.
Qed.

(** With unique ids, updating the first document of an id updates every
    document of that id. *)
Lemma update_first_unique (f : MessageDoc → MessageDoc) id ms :
  NoDup (map message_id ms) →
  update_first (λ d, eqs (message_id d) id) f ms
  = map (λ d, if eqs (message_id d) id then f d else d) ms.
Proof.
  induction ms as [|x ms IH]; intros Hnd; [reflexivity|].
  cbn in Hnd. apply NoDup_cons in Hnd as [Hx Hnd].
  cbn. destruct (eqs (message_id x) id) eqn:E.
  - f_equal. symmetry. apply map_unchanged. intros y Hy.
    destruct (eqs (message_id y) id) eqn:Ey; [|reflexivity].
    exfalso. apply Hx. apply eqs_eq in E, Ey. rewrite E, <- Ey.
    apply list_elem_of_fmap. exists y. split; [reflexivity|exact Hy].
  - f_equal. apply IH. exact Hnd.
Qed.

(** What the batch of updates does to the messages when ids are unique:
    each listed message whose update does not reject gets the receipt. *)
Lemma push_read_all_unique rejected userId at_ targets ms :
  NoDup (map message_id ms) →
  NoDup (map message_id targets) →
  push_read_all rejected userId at_ targets ms
  = map (λ d, if existsb (λ m, eqs (message_id m) (message_id d)
                               && negb (rejected (message_id m))) targets
              then push_read userId at_ d else d) ms.
Proof.
  unfold push_read_all. revert ms.
  induction targets as [|m targets IH]; intros ms Hms Ht.
  { cbn. symmetry. apply map_unchanged. reflexivity. }
  cbn in Ht. apply NoDup_cons in Ht as [Hm Ht].
  cbn [fold_left existsb].
  destruct (rejected (message_id m)) eqn:Hr; cbn [negb].
  - rewrite IH by assumption. apply map_ext. intros d.
    rewrite andb_false_r. reflexivity.
  - rewrite IH; [|rewrite update_first_ids; exact Hms|exact Ht].
    rewrite update_first_unique by exact Hms. rewrite map_map.
    apply map_ext. intros d. rewrite andb_true_r.
    rewrite (eqs_sym (message_id m) (message_id d)).
    destruct (eqs (message_id d) (message_id m)) eqn:E; [|reflexivity].
    cbn [orb]. change (message_id (push_read userId at_ d)) with (message_id d).
    replace (existsb _ targets) with false; [reflexivity|].
    symmetry. apply not_true_iff_false. intros H.
    apply existsb_exists in H as (m' & Hin & H).
    apply andb_true_iff in H as [H _]. apply eqs_eq in H. cbn in H.
    apply eqs_eq in E. apply Hm. rewrite <- E, <- H.
    apply list_elem_of_fmap. exists m'. split; [reflexivity|].
    apply list_elem_of_In. exact Hin.
Qed.

Lemma NoDup_filter_ids (p : MessageDoc → bool) ms :
  NoDup (map message_id ms) → NoDup (map message_id (List.filter p ms)).
Proof.
  induction ms as [|x ms IH]; intros H; [constructor|].
  cbn in H. apply NoDup_cons in H as [Hx H].
  cbn. destruct (p x); [|auto]. cbn. apply NoDup_cons. split; [|auto].
  intros Hin. apply Hx. apply list_elem_of_fmap in Hin as (y & -> & Hy).
  apply list_elem_of_fmap. exists y. split; [reflexivity|].
  apply list_elem_of_In, filter_In in Hy as [Hy _]. apply list_elem_of_In. exact Hy.
Qed.

Lemma same_id_same_message ms (x y : MessageDoc) :
  NoDup (map message_id ms) → x ∈ ms → y ∈ ms → message_id x = message_id y → x = y.
Proof.
  induction ms as [|z ms IH]; intros Hnd Hx Hy E; [inversion Hx|].
  cbn in Hnd. apply NoDup_cons in Hnd as [Hz Hnd].
  apply elem_of_cons in Hx as [->|Hx]; apply elem_of_cons in Hy as [->|Hy].
  - reflexivity.
  - exfalso. apply Hz. rewrite E. apply list_elem_of_fmap. eauto.
  - exfalso. apply Hz. rewrite <- E. apply list_elem_of_fmap. eauto.
  - auto.
Qed.

(** Among messages with unique ids, a message has the id of an unread
    message whose update goes through exactly when it is one itself. *)
Lemma targets_by_id (p rejected : MessageDoc → bool) ms d :
  NoDup (map message_id ms) → In d ms →
  existsb (λ m, eqs (message_id m) (message_id d) && negb (rejected m))
          (List.filter p ms)
  = p d && negb (rejected d).
Proof.
  intros Hnd Hd.
  destruct (existsb _ (List.filter p ms)) eqn:Hex; symmetry.
  - apply existsb_exists in Hex as (m & Hm & H).
    apply andb_true_iff in H as [Hid Hrej]. apply eqs_eq in Hid.
    apply filter_In in Hm as [Hm Hp].
    assert (m = d) as ->.
    { apply (same_id_same_message ms);
        [exact Hnd|apply list_elem_of_In; exact Hm|apply list_elem_of_In; exact Hd
        |exact Hid]. }
    rewrite Hp, Hrej. reflexivity.
  - apply not_true_iff_false. intros H. apply andb_true_iff in H as [Hp Hrej].
    apply not_true_iff_false in Hex. apply Hex.
    apply existsb_exists. exists d. split; [apply filter_In; split; assumption|].
    rewrite eqs_refl, Hrej. reflexivity.
Qed.

(** The messages after mark-all-as-read, when message ids are unique. *)
Lemma mark_all_messages env batch socket chat kind w :
  NoDup (map message_id (messages w)) →
  find_rejects batch = false →
  messages (on_mark_all_as_read env batch socket chat kind w).1
  = map (λ d, if unread_in (socket_user_id socket) chat kind d
                 && negb (update_rejects batch (message_id d))
              then push_read (socket_user_id socket) (now env) d else d)
        (messages w).
Proof.
  intros Hnd Hf. unfold on_mark_all_as_read. rewrite Hf. cbn zeta.
  assert (push_read_all (update_rejects batch) (socket_user_id socket) (now env)
            (List.filter (unread_in (socket_user_id socket) chat kind) (messages w))
            (messages w)
          = map (λ d, if unread_in (socket_user_id socket) chat kind d
                         && negb (update_rejects batch (message_id d))
                      then push_read (socket_user_id socket) (now env) d else d)
                (messages w)) as Hall.
  { rewrite push_read_all_unique; [|exact Hnd|apply NoDup_filter_ids; exact Hnd].
    apply map_ext_in. intros d Hd.
    rewrite (targets_by_id (unread_in (socket_user_id socket) chat kind)
               (λ m, update_rejects batch (message_id m)) (messages w) d Hnd Hd).
    reflexivity. }
  match goal with
  | |- messages (if ?b then _ else _).1 = _ => destruct b
  end; exact Hall.
Qed.

Lemma mark_all_state env batch socket chat kind w :
  (on_mark_all_as_read env batch socket chat kind w).1
  = if find_rejects batch then w
    else set_messages
           (push_read_all (update_rejects batch) (socket_user_id socket) (now env)
              (List.filter (unread_in (socket_user_id socket) chat kind) (messages w)))
           w.
Proof.
  unfold on_mark_all_as_read. destruct (find_rejects batch); [reflexivity|].
  cbn zeta. destruct (existsb _ _); reflexivity.
Qed.

Lemma filter_none {A} (p : A → bool) l :
  Forall (λ x, p x = false) l → List.filter p l = [].
Proof.
  induction 1 as [|x l Hx _ IH]; [reflexivity|]. cbn. rewrite Hx. exact IH.
Qed.

Lemma unread_in_push userId chat kind at_ d :
  unread_in userId chat kind (push_read userId at_ d) = false.
Proof.
  unfold unread_in.
  change (isReadBy (push_read userId at_ d) userId)
    with (isReadBy (with_readBy d (readBy d ++ [ {| read_user := userId;
                                                    readAt := at_ |} ])) userId).
  rewrite isReadBy_push. apply andb_false_r.
Qed.

(** X16. After mark-all-as-read with nothing rejecting and unique message ids,
    no message of the chat sent by somebody else is left unread by the
    caller. A second mark-all-as-read then changes nothing and sends no
    receipt, only the marked-all-as-read acknowledgement, and a
    mark-as-read of any such message does nothing at all. *)
Theorem mark_all_as_read_reads_the_chat env env2 batch batch2 socket chat kind w
    messageId m :
  NoDup (map message_id (messages w)) →
  find_rejects batch = false →
  (∀ id, update_rejects batch id = false) →
  find_rejects batch2 = false →
  let me := socket_user_id socket in
  let w' := (on_mark_all_as_read env batch socket chat kind w).1 in
  Forall (λ d, unread_in me chat kind d = false) (messages w')
  ∧ on_mark_all_as_read env2 batch2 socket chat kind w'
    = (w', [ {| relay_target := SocketEmit (socket_id socket);
                relay_event := "marked-all-as-read";
                relay_payload := PMarkedAllAsRead chat kind |} ])
  ∧ (Message_findById messageId (messages w') = Some m →
     chatId m = chat → chatType m = kind → sender m ≠ me →
     step env2 socket (MarkAsRead messageId) w' = (w', [])).
Proof.
  intros Hnd Hf Hu Hf2 me w'.
  assert (Forall (λ d, unread_in me chat kind d = false) (messages w')) as Hread.
  { subst w'. rewrite mark_all_messages by assumption.
    apply Forall_fmap, Forall_forall. intros d _. cbn.
    rewrite Hu, andb_true_r. fold me.
    destruct (unread_in me chat kind d) eqn:E; [apply unread_in_push|exact E]. }
  split; [exact Hread|]. split.
  - unfold on_mark_all_as_read. rewrite Hf2. cbn zeta. fold me.
    rewrite (filter_none _ _ Hread). cbn.
    subst w'. rewrite mark_all_state, Hf. reflexivity.
  - intros Hm Hc Hk Hs.
    apply (mark_as_read_again env2 socket w' messageId m Hm).
    assert (unread_in me chat kind m = false) as E.
    { apply find_some in Hm as [Hm _].
      rewrite Forall_forall in Hread. apply Hread, list_elem_of_In, Hm. }
    unfold unread_in in E. rewrite <- Hc, <- Hk, !eqs_refl in E. cbn in E.
    apply andb_false_iff in E as [E|E].
    + apply negb_false_iff, eqs_eq in E. contradiction.
    + apply negb_false_iff in E. exact E.
Qed.

Lemma mark_all_as_read_reads_the_chat_witness :
  let env := Scenario.at_time 3000 (λ _, false) in
  let w := Inbox.two_messages in
  let w' := (on_mark_all_as_read env Inbox.smooth Scenario.bob_socket "chat1" "Chat" w).1 in
  (message_id <$> List.filter (unread_in "bob" "chat1" "Chat") (messages w))
  = [ "msg1"; "msg2" ]
  ∧ Forall (λ d, unread_in "bob" "chat1" "Chat" d = false) (messages w')
  ∧ on_mark_all_as_read env Inbox.smooth Scenario.bob_socket "chat1" "Chat" w'
    = (w', [ {| relay_target := SocketEmit "sB"; relay_event := "marked-all-as-read";
                relay_payload := PMarkedAllAsRead "chat1" "Chat" |} ])
  ∧ step env Scenario.bob_socket (MarkAsRead "msg2") w' = (w', []).
Proof.
  intros env w w'. split; [vm_compute; reflexivity|].
  destruct (mark_all_as_read_reads_the_chat env env Inbox.smooth Inbox.smooth
              Scenario.bob_socket "chat1" "Chat" w "msg2"
              (push_read "bob" 3000
                 {| message_id := "msg2"; sender := "alice"; content := "again";
                    chatId := "chat1"; chatType := "Chat"; messageType := "text";
                    mediaUrl := None;
                    readBy := [ {| read_user := "alice"; readAt := 2000 |} ] |}))
    as (Hread & Hagain & Hone); try reflexivity.
  { apply (bool_decide_unpack _). vm_compute. reflexivity. }
  split; [exact Hread|]. split; [exact Hagain|].
  apply Hone; [vm_compute; reflexivity|reflexivity|reflexivity|discriminate].
Defined.

Lemma count_reads_push_other u userId at_ d :
  u ≠ userId → count_reads u (push_read userId at_ d) = count_reads u d.
Proof.
  intros Hne. unfold count_reads, push_read. cbn [readBy with_readBy].
  assert (eqs userId u = false) as E.
  { apply eqs_neq. intros E. apply Hne. symmetry. exact E. }
  rewrite List.filter_app, length_app. cbn [List.filter read_user].
  rewrite E. cbn. lia.
Qed.

(** X17. Whatever rejects, mark-all-as-read with unique message ids keeps the
    messages and their order, and changes a message only by appending the
    caller's receipt to one that was in the chat, sent by somebody else
    and unread by the caller; so a [readBy] list with at most one receipt
    per user stays one. *)
Theorem mark_all_as_read_touches_unread_only env batch socket chat kind w u :
  NoDup (map message_id (messages w)) →
  let me := socket_user_id socket in
  let w' := (on_mark_all_as_read env batch socket chat kind w).1 in
  Forall2 (λ d d', d' = d ∨ (unread_in me chat kind d = true
                             ∧ d' = push_read me (now env) d))
          (messages w) (messages w')
  ∧ map message_id (messages w') = map message_id (messages w)
  ∧ (Forall (λ d, (count_reads u d ≤ 1)%nat) (messages w) →
     Forall (λ d, (count_reads u d ≤ 1)%nat) (messages w')).
Proof.
  intros Hnd me w'.
  assert (Forall2 (λ d d', d' = d ∨ (unread_in me chat kind d = true
                                     ∧ d' = push_read me (now env) d))
                  (messages w) (messages w')) as Hrel.
  { destruct (find_rejects batch) eqn:Hf.
    - subst w'. rewrite mark_all_state, Hf. apply Forall2_same_length_lookup_2;
        [reflexivity|]. intros i d d' H1 H2. left. congruence.
    - subst w'. rewrite mark_all_messages by assumption.
      apply Forall2_fmap_r, Forall_Forall2_diag, Forall_forall. intros d _.
      fold me. unfold compose.
      destruct (unread_in me chat kind d);
        destruct (update_rejects batch (message_id d));
        first [ left; reflexivity | right; split; reflexivity ]. }
  split; [exact Hrel|]. clear Hnd. revert Hrel.
  generalize (messages w) (messages w'). intros l l' Hrel. split.
  - induction Hrel as [|d d' l l' [->|[_ ->]] _ IH]; [reflexivity| |];
      cbn [map]; rewrite IH; reflexivity.
  - intros Hone. induction Hrel as [|d d' l l' Hd _ IH]; [constructor|].
    apply Forall_cons in Hone as [Hd1 Hone]. constructor; [|apply IH; exact Hone].
    destruct Hd as [->|[Hun ->]]; [exact Hd1|].
    destruct (decide (u = me)) as [->|Hne].
    + unfold push_read. rewrite count_reads_push.
      rewrite count_reads_unread; [lia|].
      unfold unread_in in Hun. apply andb_true_iff in Hun as [_ Hun].
      apply negb_true_iff in Hun. exact Hun.
    + rewrite count_reads_push_other by exact Hne. exact Hd1.
Qed.

Lemma mark_all_as_read_touches_unread_only_witness :
  let env := Scenario.at_time 3000 (λ _, false) in
  let batch := {| find_rejects := false;
                  update_rejects := λ id, String.eqb id "msg1" |} in
  let w := Inbox.two_messages in
  let w' := (on_mark_all_as_read env batch Scenario.bob_socket "chat1" "Chat" w).1 in
  (NoDup (map message_id (messages w))
   ∧ Forall (λ d, (count_reads "bob" d ≤ 1)%nat) (messages w))
  ∧ map message_id (messages w') = map message_id (messages w)
  ∧ Forall (λ d, (count_reads "bob" d ≤ 1)%nat) (messages w')
  ∧ ((λ d, isReadBy d "bob") <$> messages w') = [ false; true ].
Proof.
  intros env batch w w'.
  assert (NoDup (map message_id (messages w))) as Hnd.
  { apply (bool_decide_unpack _). vm_compute. reflexivity. }
  assert (Forall (λ d, (count_reads "bob" d ≤ 1)%nat) (messages w)) as Hone.
  { vm_compute. repeat constructor. }
  split; [split; assumption|].
  destruct (mark_all_as_read_touches_unread_only env batch Scenario.bob_socket
              "chat1" "Chat" w "bob" Hnd) as (_ & Hids & Hkeep).
  split; [exact Hids|]. split; [exact (Hkeep Hone)|].
  vm_compute. reflexivity.
Defined.

Lemma unique_from_spec seen l :
  NoDup (unique_from seen l)
  ∧ ∀ x, x ∈ unique_from seen l ↔ x ∈ l ∧ existsb (eqs x) seen = false.
Proof.
  revert seen. induction l as [|y l IH]; intros seen.
  { split; [constructor|]. intros x. split; [inversion 1|intros [H _]; inversion H]. }
  cbn. destruct (existsb (eqs y) seen) eqn:Hy.
  - destruct (IH seen) as [Hnd Hin]. split; [exact Hnd|].
    intros x. rewrite Hin. split.
    + intros [H E]. split; [right; exact H|exact E].
    + intros [H E]. split; [|exact E].
      apply elem_of_cons in H as [->|H]; [congruence|exact H].
  - destruct (IH (y :: seen)) as [Hnd Hin]. split.
    + apply NoDup_cons. split; [|exact Hnd].
      intros H. apply Hin in H as [_ H]. cbn in H. rewrite eqs_refl in H. discriminate H.
    + intros x. rewrite elem_of_cons, Hin. cbn. split.
      * intros [->|[H E]]; [split; [left|exact Hy]|].
        apply orb_false_iff in E as [_ E]. split; [right; exact H|exact E].
      * intros [H E]. apply elem_of_cons in H as [->|H]; [left; reflexivity|].
        destruct (eqs x y) eqn:Exy; [left; apply eqs_eq; exact Exy|].
        right. split; [exact H|]. rewrite E. reflexivity.
Qed.

(** X18. With nothing rejecting, mark-all-as-read sends one messages-read-all
    event for each distinct sender of a message it marked, to the handle
    of that sender when it is truthy, and then marked-all-as-read to the
    caller. *)
Theorem mark_all_as_read_receipts env batch socket chat kind w :
  find_rejects batch = false →
  (∀ id, update_rejects batch id = false) →
  let me := socket_user_id socket in
  let senders :=
    unique (map sender (List.filter (unread_in me chat kind) (messages w))) in
    NoDup senders
    ∧ (∀ x, x ∈ senders ↔ ∃ m, m ∈ messages w ∧ unread_in me chat kind m = true
                                ∧ sender m = x)
    ∧ (on_mark_all_as_read env batch socket chat kind w).2
      = flat_map
          (λ senderId,
             match activeUsers w !! senderId with
             | Some s =>
                 if truthy (Some s) then
                   [ {| relay_target := IoTo s; relay_event := "messages-read-all";
                        relay_payload :=
                          PMessagesReadAll chat kind me (socket_username socket)
                                           (now env) |} ]
                 else []
             | None => []
             end) senders
        ++ [ {| relay_target := SocketEmit (socket_id socket);
                relay_event := "marked-all-as-read";
                relay_payload := PMarkedAllAsRead chat kind |} ].
Proof.
  intros Hf Hu me senders. subst senders.
  destruct (unique_from_spec [] (map sender (List.filter (unread_in me chat kind)
                                               (messages w)))) as [Hnd Hin].
  split; [exact Hnd|]. split.
  - intros x. unfold unique. rewrite Hin. split.
    + intros [H _]. apply list_elem_of_fmap in H as (m & -> & Hm).
      apply list_elem_of_In, filter_In in Hm as [Hm Hp].
      exists m. split; [apply list_elem_of_In; exact Hm|]. split; [exact Hp|reflexivity].
    + intros (m & Hm & Hp & <-). split; [|reflexivity].
      apply list_elem_of_fmap. exists m. split; [reflexivity|].
      apply list_elem_of_In, filter_In. split; [apply list_elem_of_In; exact Hm|exact Hp].
  - unfold on_mark_all_as_read. rewrite Hf. cbn zeta. fold me.
    replace (existsb _ (List.filter (unread_in me chat kind) (messages w))) with false.
    + reflexivity.
    + symmetry. apply not_true_iff_false. intros H.
      apply existsb_exists in H as (m & _ & H). rewrite Hu in H. discriminate H.
Qed.

Lemma mark_all_as_read_receipts_witness :
  let env := Scenario.at_time 3000 (λ _, false) in
  (on_mark_all_as_read env Inbox.smooth Scenario.bob_socket "chat1" "Chat"
                       Inbox.two_messages).2
  = [ {| relay_target := IoTo "sA"; relay_event := "messages-read-all";
         relay_payload := PMessagesReadAll "chat1" "Chat" "bob" "Bob" 3000 |};
      {| relay_target := SocketEmit "sB"; relay_event := "marked-all-as-read";
         relay_payload := PMarkedAllAsRead "chat1" "Chat" |} ].
Proof.
  intros env.
  destruct (mark_all_as_read_receipts env Inbox.smooth Scenario.bob_socket "chat1" "Chat"
              Inbox.two_messages) as (_ & _ & ->); try reflexivity.
Defined.

(** ** The REST controllers *)

Lemma filter_update_first_same {A} (p q : A → bool) (f : A → A) l x :
  List.find p l = Some x → q x = false → q (f x) = false →
  List.filter q (update_first p f l) = List.filter q l.
Proof.
  intros Hfind Hx Hfx. induction l as [|y l IH]; [reflexivity|].
  cbn in *. destruct (p y).
  - injection Hfind as ->. cbn. rewrite Hx, Hfx. reflexivity.
  - cbn. rewrite IH by exact Hfind. reflexivity.
Qed.

Lemma filter_update_first_less {A} (p q : A → bool) (f : A → A) l x :
  List.find p l = Some x → q x = true → q (f x) = false →
  S (length (List.filter q (update_first p f l))) = length (List.filter q l).
Proof.
  intros Hfind Hx Hfx. induction l as [|y l IH]; [discriminate|].
  cbn in *. destruct (p y).
  - injection Hfind as ->. cbn. rewrite Hx, Hfx. reflexivity.
  - cbn. destruct (q y); cbn; rewrite <- IH by exact Hfind; reflexivity.
Qed.

Lemma update_first_fixed {A} (p : A → bool) (f : A → A) l x :
  List.find p l = Some x → f x = x → update_first p f l = l.
Proof.
  intros Hfind Hx. induction l as [|y l IH]; [reflexivity|].
  cbn in *. destruct (p y).
  - injection Hfind as ->. rewrite Hx. reflexivity.
  - rewrite IH by exact Hfind. reflexivity.
Qed.

(** What [markAsRead] of the notification controller does when it gets
    as far as the notification [n] of its caller. *)
Lemma controller_markAsRead_found req id w n :
  req_outcome req NotificationFindById = Resolves →
  Notification_findById id (notifications w) = Some n →
  recipient n = req_user_id req →
  controller_markAsRead req id w
  = if isRead n then (w, ok (BNotification n))
    else match req_outcome req NotificationSaveDoc with
         | Resolves =>
             (set_notifications
                (update_first (λ d, eqs (notification_id d) id)
                              (λ _, read_at (req_now req) n)) w,
              ok (BNotification (read_at (req_now req) n)))
         | RejectsObjectId => (w, failure 404 "Notification not found")
         | RejectsOther =>
             (w, failure 500 "Server error while marking notification as read")
         end.
Proof.
  intros Ho Hn Hr. unfold controller_markAsRead, awaiting. rewrite Ho, Hn, Hr, eqs_refl.
  cbn [negb]. destruct (isRead n); [reflexivity|].
  apply find_some in Hn as [_ Hid]. apply eqs_eq in Hid. rewrite Hid. reflexivity.
Qed.

Lemma controller_markAsRead_answers req id w :
  let res := (controller_markAsRead req id w).2 in
  (res_status res ≠ 200%nat ∧ (controller_markAsRead req id w).1 = w)
  ∨ (res_status res = 200%nat
     ∧ req_outcome req NotificationFindById = Resolves
     ∧ ∃ n, Notification_findById id (notifications w) = Some n
            ∧ recipient n = req_user_id req).
Proof.
  unfold controller_markAsRead, awaiting.
  destruct (req_outcome req NotificationFindById) eqn:Ho;
    [|left; split; [discriminate|reflexivity]..].
  destruct (Notification_findById id (notifications w)) as [n|] eqn:Hn;
    [|left; split; [discriminate|reflexivity]].
  destruct (eqs (recipient n) (req_user_id req)) eqn:Hr; cbn [negb];
    [|left; split; [discriminate|reflexivity]].
  apply eqs_eq in Hr.
  destruct (isRead n).
  - right. split; [reflexivity|]. split; [reflexivity|]. exists n. split; [reflexivity|exact Hr].
  - destruct (req_outcome req NotificationSaveDoc);
      [|left; split; [discriminate|reflexivity]..].
    right. split; [reflexivity|]. split; [reflexivity|]. exists n. split; [reflexivity|exact Hr].
Qed.

(** X19. PUT /api/notifications/:id/read changes the state only when it
    answers 200, and then the notification with that id exists and is the
    caller's: it is stored read, stamped with the time of the request
    unless it was read already, the caller's unread count drops by one if
    it was unread, and the notifications of every other user are as
    before. *)
Theorem rest_mark_notification_as_read req id w u :
  let w' := (controller_markAsRead req id w).1 in
  let res := (controller_markAsRead req id w).2 in
  let me := req_user_id req in
  (res_status res ≠ 200%nat → w' = w)
  ∧ (res_status res = 200%nat →
     ∃ n, Notification_findById id (notifications w) = Some n
          ∧ recipient n = me
          ∧ let n' := if isRead n then n else read_at (req_now req) n in
            res_body res = BNotification n'
            ∧ Notification_findById id (notifications w') = Some n'
            ∧ isRead n' = true
            ∧ (Notification_getUnreadCount me (notifications w')
               + (if isRead n then 0 else 1)
               = Notification_getUnreadCount me (notifications w))%nat)
  ∧ (u ≠ me →
     List.filter (λ n, eqs (recipient n) u) (notifications w')
     = List.filter (λ n, eqs (recipient n) u) (notifications w)).
Proof.
  intros w' res me.
  destruct (controller_markAsRead_answers req id w) as [[Hs Hw]|(Hs & Ho & n & Hn & Hr)];
    fold res in Hs.
  { fold w' in Hw. split; [intros _; exact Hw|]. split; [intros H; contradiction|].
    intros _. rewrite Hw. reflexivity. }
  split; [intros H; contradiction|].
  pose proof (controller_markAsRead_found req id w n Ho Hn Hr) as E.
  assert (eqs (notification_id n) id = true) as Hid.
  { apply find_some in Hn as [_ Hid]. exact Hid. }
  split.
  - intros _. exists n. split; [exact Hn|]. split; [exact Hr|]. cbn zeta.
    subst w' res. destruct (isRead n) eqn:Hread.
    + rewrite E. cbn. repeat split; try assumption. lia.
    + rewrite E in Hs |- *.
      destruct (req_outcome req NotificationSaveDoc); try discriminate Hs.
      cbn [fst snd res_body ok notifications set_notifications].
      split; [reflexivity|]. split.
      { apply (find_update_first _ (λ _, read_at (req_now req) n) _ n Hn). exact Hid. }
      split; [reflexivity|].
      unfold Notification_getUnreadCount. rewrite Nat.add_1_r.
      apply (filter_update_first_less _ _ _ _ n Hn).
      * unfold unread_for. fold me. rewrite Hr, Hread, eqs_refl. reflexivity.
      * unfold unread_for. cbn. apply andb_false_r.
  - intros Hu. subst w'. rewrite E.
    destruct (isRead n); [reflexivity|].
    destruct (req_outcome req NotificationSaveDoc); try reflexivity.
    cbn [fst notifications set_notifications].
    assert (eqs (recipient n) u = false) as Hne.
    { apply eqs_neq. rewrite Hr. intros H. apply Hu. symmetry. exact H. }
    apply (filter_update_first_same _ _ _ _ n Hn); [exact Hne|exact Hne].
Qed.

(** X20. Once PUT /api/notifications/:id/read has answered 200, the same
    request by the same user at any later time answers with the same
    stored notification and changes nothing: the first [readAt] stays. *)
Theorem rest_mark_notification_twice req req2 id w :
  res_status (controller_markAsRead req id w).2 = 200%nat →
  req_user_id req2 = req_user_id req →
  req_outcome req2 NotificationFindById = Resolves →
  let w' := (controller_markAsRead req id w).1 in
  controller_markAsRead req2 id w' = (w', (controller_markAsRead req id w).2).
Proof.
  intros Hs Hsame Ho2 w'.
  destruct (controller_markAsRead_answers req id w) as [[Hs' _]|(_ & Ho & n & Hn & Hr)];
    [contradiction|].
  pose proof (controller_markAsRead_found req id w n Ho Hn Hr) as E.
  assert (eqs (notification_id n) id = true) as Hid.
  { apply find_some in Hn as [_ Hid]. exact Hid. }
  subst w'. rewrite E in Hs |- *. destruct (isRead n) eqn:Hread.
  - cbn [fst snd]. rewrite (controller_markAsRead_found req2 id w n Ho2 Hn)
      by (rewrite Hsame; exact Hr).
    rewrite Hread. reflexivity.
  - destruct (req_outcome req NotificationSaveDoc); try discriminate Hs.
    cbn [fst snd].
    rewrite (controller_markAsRead_found req2 id _ (read_at (req_now req) n) Ho2).
    + reflexivity.
    + cbn [notifications set_notifications].
      apply (find_update_first _ (λ _, read_at (req_now req) n) _ n Hn). exact Hid.
    + rewrite Hsame. exact Hr.
Qed.

Lemma rest_mark_notification_twice_witness :
  let w := Scenario.carol_notified in
  let first := controller_markAsRead (Inbox.request "carol" 5000) "notif0" w in
  (notification_readAt <$> Notification_findById "notif0" (notifications first.1))
  = Some (Some 5000)
  ∧ controller_markAsRead (Inbox.request "carol" 9000) "notif0" first.1
    = (first.1, first.2).
Proof.
  intros w first. split; [vm_compute; reflexivity|].
  apply (rest_mark_notification_twice (Inbox.request "carol" 5000)
           (Inbox.request "carol" 9000) "notif0" w); reflexivity.
Defined.

Lemma markAllAsRead_unread_none at_ userId ns :
  List.filter (unread_for userId) (Notification_markAllAsRead at_ userId ns) = [].
Proof.
  apply filter_none, Forall_fmap, Forall_forall. intros n _. cbn.
  destruct (unread_for userId n) eqn:E; [|exact E].
  unfold unread_for. cbn. apply andb_false_r.
Qed.

(** X21. When the update resolves, PUT /api/notifications/read-all leaves the
    caller no unread notification. It changes a notification only by
    marking an unread one of the caller read at the time of the request,
    so the notifications of every other user, and the stamps of those
    read before, stay; asked again, it changes nothing. *)
Theorem rest_mark_all_notifications_as_read req req2 w u :
  req_outcome req NotificationUpdateMany = Resolves →
  let w' := (controller_markAllAsRead req w).1 in
  let me := req_user_id req in
  Notification_getUnreadCount me (notifications w') = 0%nat
  ∧ Forall2 (λ n n', n' = n ∨ (recipient n = me ∧ isRead n = false
                               ∧ n' = read_at (req_now req) n))
            (notifications w) (notifications w')
  ∧ (u ≠ me →
     List.filter (λ n, eqs (recipient n) u) (notifications w')
     = List.filter (λ n, eqs (recipient n) u) (notifications w))
  ∧ (req_user_id req2 = me → (controller_markAllAsRead req2 w').1 = w').
Proof.
  intros Ho w' me.
  assert (w' = set_notifications (Notification_markAllAsRead (req_now req) me) w) as ->.
  { subst w'. unfold controller_markAllAsRead. rewrite Ho. reflexivity. }
  cbn [notifications set_notifications].
  split; [|split; [|split]].
  - unfold Notification_getUnreadCount. rewrite markAllAsRead_unread_none. reflexivity.
  - unfold Notification_markAllAsRead.
    apply Forall2_fmap_r, Forall_Forall2_diag, Forall_forall. intros n _.
    unfold compose, unread_for.
    destruct (eqs (recipient n) me) eqn:Hr; cbn [andb]; [|left; reflexivity].
    destruct (isRead n); cbn [negb]; [left; reflexivity|].
    right. apply eqs_eq in Hr. repeat split. exact Hr.
  - intros Hu. unfold Notification_markAllAsRead.
    induction (notifications w) as [|n l IH]; [reflexivity|].
    cbn [map List.filter]. rewrite IH.
    unfold unread_for. destruct (eqs (recipient n) me) eqn:Hr; cbn [andb]; [|reflexivity].
    apply eqs_eq in Hr.
    assert (eqs (recipient n) u = false) as Hne.
    { apply eqs_neq. rewrite Hr. intros H. apply Hu. symmetry. exact H. }
    destruct (isRead n); cbn [negb]; [reflexivity|].
    change (recipient (read_at (req_now req) n)) with (recipient n).
    rewrite Hne. reflexivity.
  - intros Hsame. unfold controller_markAllAsRead.
    destruct (req_outcome req2 NotificationUpdateMany); try reflexivity.
    cbn [fst]. rewrite Hsame. unfold set_notifications. cbn. f_equal.
    unfold Notification_markAllAsRead. rewrite List.map_map.
    apply List.map_ext. intros n.
    destruct (unread_for me n) eqn:E; [|rewrite E; reflexivity].
    unfold unread_for. cbn. rewrite andb_false_r. reflexivity.
Qed.

Lemma rest_mark_all_notifications_as_read_witness :
  let w := Inbox.carol_inbox in
  let w' := (controller_markAllAsRead (Inbox.request "carol" 5000) w).1 in
  Notification_getUnreadCount "carol" (notifications w) = 2%nat
  ∧ Notification_getUnreadCount "carol" (notifications w') = 0%nat
  ∧ (controller_markAllAsRead (Inbox.request "carol" 9000) w').1 = w'.
Proof.
  intros w w'. split; [vm_compute; reflexivity|].
  destruct (rest_mark_all_notifications_as_read (Inbox.request "carol" 5000)
              (Inbox.request "carol" 9000) w "bob") as (Hzero & _ & _ & Hagain);
    [reflexivity|].
  split; [exact Hzero|]. apply Hagain. reflexivity.
Defined.

Lemma delete_first_split {A} (p : A → bool) l x :
  List.find p l = Some x →
  ∃ l1 l2, l = l1 ++ x :: l2 ∧ delete_first p l = l1 ++ l2
           ∧ Forall (λ y, p y = false) l1.
Proof.
  induction l as [|y l IH]; [discriminate|]. cbn. destruct (p y) eqn:Hy.
  - intros [= ->]. exists [], l. repeat split. constructor.
  - intros Hfind. destruct (IH Hfind) as (l1 & l2 & -> & -> & Hl1).
    exists (y :: l1), l2. repeat split. constructor; assumption.
Qed.

Lemma find_nowhere {A} (p : A → bool) l :
  Forall (λ y, p y = false) l → List.find p l = None.
Proof.
  induction 1 as [|y l Hy _ IH]; [reflexivity|]. cbn. rewrite Hy. exact IH.
Qed.

Lemma controller_deleteNotification_answers req id w :
  let res := (controller_deleteNotification req id w).2 in
  (res_status res ≠ 200%nat ∧ (controller_deleteNotification req id w).1 = w)
  ∨ (res_status res = 200%nat
     ∧ ∃ n, Notification_findById id (notifications w) = Some n
            ∧ recipient n = req_user_id req
            ∧ (controller_deleteNotification req id w).1
              = set_notifications (delete_first (λ d, eqs (notification_id d) id)) w).
Proof.
  unfold controller_deleteNotification, awaiting.
  destruct (req_outcome req NotificationFindById);
    [|left; split; [discriminate|reflexivity]..].
  destruct (Notification_findById id (notifications w)) as [n|] eqn:Hn;
    [|left; split; [discriminate|reflexivity]].
  destruct (eqs (recipient n) (req_user_id req)) eqn:Hr; cbn [negb];
    [|left; split; [discriminate|reflexivity]].
  apply eqs_eq in Hr.
  destruct (req_outcome req NotificationFindByIdAndDelete);
    [|left; split; [discriminate|reflexivity]..].
  right. split; [reflexivity|]. exists n. repeat split. exact Hr.
Qed.

(** X22. DELETE /api/notifications/:id changes the state only when it answers
    200, and then exactly one notification is gone: the first with that
    id, which was the caller's. The notifications of every other user are
    as before. *)
Theorem rest_delete_notification req id w u :
  let w' := (controller_deleteNotification req id w).1 in
  let res := (controller_deleteNotification req id w).2 in
  let me := req_user_id req in
  (res_status res ≠ 200%nat → w' = w)
  ∧ (res_status res = 200%nat →
     ∃ n before after,
       Notification_findById id (notifications w) = Some n
       ∧ recipient n = me
       ∧ notifications w = before ++ n :: after
       ∧ notifications w' = before ++ after)
  ∧ (u ≠ me →
     List.filter (λ n, eqs (recipient n) u) (notifications w')
     = List.filter (λ n, eqs (recipient n) u) (notifications w)).
Proof.
  intros w' res me.
  destruct (controller_deleteNotification_answers req id w)
    as [[Hs Hw]|(Hs & n & Hn & Hr & Hw)]; fold res in Hs; fold w' in Hw.
  { split; [intros _; exact Hw|]. split; [intros H; contradiction|].
    intros _. rewrite Hw. reflexivity. }
  split; [intros H; contradiction|].
  destruct (delete_first_split _ _ _ Hn) as (before & after & Hl & Hd & _).
  assert (notifications w' = before ++ after) as Hw'.
  { rewrite Hw. cbn [notifications set_notifications]. exact Hd. }
  split.
  - intros _. exists n, before, after. repeat split; assumption.
  - intros Hu. rewrite Hw', Hl, !List.filter_app. cbn [List.filter].
    replace (eqs (recipient n) u) with false; [reflexivity|].
    symmetry. apply eqs_neq. rewrite Hr. intros H. apply Hu. symmetry. exact H.
Qed.

(** X23. With unique notification ids, once DELETE /api/notifications/:id has
    answered 200 the notification cannot be found any more: the same
    request, by anyone, is answered 404 and changes nothing. *)
Theorem rest_delete_notification_twice req req2 id w :
  NoDup (map notification_id (notifications w)) →
  res_status (controller_deleteNotification req id w).2 = 200%nat →
  req_outcome req2 NotificationFindById = Resolves →
  let w' := (controller_deleteNotification req id w).1 in
  Notification_findById id (notifications w') = None
  ∧ controller_deleteNotification req2 id w' = (w', failure 404 "Notification not found").
Proof.
  intros Hnd Hs Ho2 w'.
  destruct (controller_deleteNotification_answers req id w)
    as [[Hs' _]|(_ & n & Hn & Hr & Hw)]; [contradiction|]. fold w' in Hw.
  assert (Notification_findById id (notifications w') = None) as Hgone.
  { rewrite Hw. cbn [notifications set_notifications].
    destruct (delete_first_split _ _ _ Hn) as (before & after & Hl & -> & Hb).
    apply find_nowhere, Forall_app. split; [exact Hb|].
    apply find_some in Hn as [_ Hid]. apply eqs_eq in Hid.
    rewrite Hl, map_app in Hnd. cbn [map] in Hnd.
    apply NoDup_app in Hnd as (_ & _ & Hnd). apply NoDup_cons in Hnd as [Hnot _].
    apply Forall_forall. intros d Hd. apply eqs_neq. intros E. apply Hnot.
    rewrite Hid, <- E. apply list_elem_of_fmap. exists d. split; [reflexivity|exact Hd]. }
  split; [exact Hgone|].
  unfold controller_deleteNotification, awaiting. rewrite Ho2, Hgone. reflexivity.
Qed.

Lemma rest_delete_notification_twice_witness :
  let w := Inbox.carol_inbox in
  let w' := (controller_deleteNotification (Inbox.request "carol" 5000) "notif0" w).1 in
  (notification_id <$> notifications w) = [ "notif0"; "later0" ]
  ∧ (notification_id <$> notifications w') = [ "later0" ]
  ∧ Notification_findById "notif0" (notifications w') = None
  ∧ controller_deleteNotification (Inbox.request "bob" 9000) "notif0" w'
    = (w', failure 404 "Notification not found").
Proof.
  intros w w'. split; [vm_compute; reflexivity|]. split; [vm_compute; reflexivity|].
  apply (rest_delete_notification_twice (Inbox.request "carol" 5000)
           (Inbox.request "bob" 9000) "notif0" w); try reflexivity.
  apply (bool_decide_unpack _). vm_compute. reflexivity.
Defined.

Lemma has_access_granted req kind chat w o :
  has_access req kind chat w = (o, true) →
  o = Resolves
  ∧ ((kind = "Chat"
      ∧ ∃ c, Chat_findById chat (chats w) = Some c
             ∧ hasParticipant c (req_user_id req) = true)
     ∨ (kind = "GroupChat"
        ∧ ∃ g, GroupChat_findById chat (groups w) = Some g
               ∧ hasMember g (req_user_id req) = true)).
Proof.
  unfold has_access. destruct (eqs kind "Chat") eqn:Hc.
  - apply eqs_eq in Hc. destruct (req_outcome req RestChatFindById); try discriminate.
    destruct (Chat_findById chat (chats w)) as [c|]; [|discriminate].
    intros [= <- H]. split; [reflexivity|]. left. split; [exact Hc|].
    exists c. split; [reflexivity|exact H].
  - destruct (eqs kind "GroupChat") eqn:Hg; [|discriminate].
    apply eqs_eq in Hg. destruct (req_outcome req RestGroupChatFindById); try discriminate.
    destruct (GroupChat_findById chat (groups w)) as [g|]; [|discriminate].
    intros [= <- H]. split; [reflexivity|]. right. split; [exact Hg|].
    exists g. split; [reflexivity|exact H].
Qed.

(** X25. PUT /api/messages/:id/read changes the state only when it answers
    200. It answers 200 only for a message of a chat the caller takes
    part in or of a group the caller is a member of, and then it leaves
    the state that the mark-as-read socket event of the same user at the
    same time leaves. *)
Theorem rest_mark_message_as_read env req socket id w :
  socket_user_id socket = req_user_id req →
  now env = req_now req →
  rejects env MessageFindById = false →
  rejects env MessageSave = false →
  let w' := (controller_markMessageAsRead req id w).1 in
  let res := (controller_markMessageAsRead req id w).2 in
  let me := req_user_id req in
  (res_status res ≠ 200%nat → w' = w)
  ∧ (res_status res = 200%nat →
     w' = (step env socket (MarkAsRead id) w).1
     ∧ ∃ m, Message_findById id (messages w) = Some m
            ∧ ((chatType m = "Chat"
                ∧ ∃ c, Chat_findById (chatId m) (chats w) = Some c
                       ∧ hasParticipant c me = true)
               ∨ (chatType m = "GroupChat"
                  ∧ ∃ g, GroupChat_findById (chatId m) (groups w) = Some g
                         ∧ hasMember g me = true))).
Proof.
  intros Hme Hnow H1 H2 w' res me. subst w' res.
  unfold controller_markMessageAsRead, awaiting.
  destruct (req_outcome req RestMessageFindById);
    [|split; [reflexivity|discriminate]..].
  destruct (Message_findById id (messages w)) as [m|] eqn:Hm;
    [|split; [reflexivity|discriminate]].
  destruct (has_access req (chatType m) (chatId m) w) as [o granted] eqn:Ha.
  destruct o; [|split; [reflexivity|discriminate]..].
  destruct granted; [|split; [reflexivity|discriminate]].
  apply has_access_granted in Ha as [_ Ha]. fold me in Ha.
  destruct (isReadBy m (req_user_id req)) eqn:Hr.
  - split; [reflexivity|]. intros _. split; [|exists m; split; [reflexivity|exact Ha]].
    rewrite (mark_as_read_again env socket w id m Hm) by (rewrite Hme; exact Hr).
    reflexivity.
  - destruct (req_outcome req RestMessageSave);
      [|split; [reflexivity|discriminate]..].
    split; [intros H; contradiction|]. intros _.
    split; [|exists m; split; [reflexivity|exact Ha]].
    destruct (mark_as_read_run env socket w id m H1 H2 Hm) as (es & -> & _);
      [rewrite Hme; exact Hr|].
    rewrite Hme, Hnow. reflexivity.
Qed.

Lemma rest_mark_message_as_read_witness :
  let env := Scenario.at_time 3000 (λ _, false) in
  let w := Inbox.two_messages in
  let member := controller_markMessageAsRead (Inbox.request "bob" 3000) "msg1" w in
  let stranger := controller_markMessageAsRead (Inbox.request "carol" 3000) "msg1" w in
  (res_status member.2 = 200%nat
   ∧ member.1 = (step env Scenario.bob_socket (MarkAsRead "msg1") w).1)
  ∧ (res_status stranger.2 = 403%nat ∧ stranger.1 = w
     ∧ (step env Scenario.carol_socket (MarkAsRead "msg1") w).1 ≠ w).
Proof.
  intros env w member stranger.
  destruct (rest_mark_message_as_read env (Inbox.request "bob" 3000) Scenario.bob_socket
              "msg1" w) as [_ Hok]; try reflexivity.
  destruct (rest_mark_message_as_read env (Inbox.request "carol" 3000)
              Scenario.carol_socket "msg1" w) as [Hno _]; try reflexivity.
  split; [split; [reflexivity|apply Hok; reflexivity]|].
  split; [reflexivity|]. split; [apply Hno; vm_compute; discriminate|].
  vm_compute. discriminate.
Defined.

(** ** What a request reaches *)

Ltac route_cbn :=
  cbn [dispatch notificationRoute messageRoute method_eqb route_method route_path
       route_handler match_path fmap option_fmap option_map].

Ltac route_param seg Hseg :=
  route_cbn;
  let E := fresh "E" in
  destruct (eqs seg "") eqn:E; [apply eqs_eq in E; contradiction|];
  try reflexivity.

(** X24. DELETE /api/notifications/read never reaches
    [deleteReadNotifications]: no request does, since the route
    [delete('/:id')] is declared first and takes every path of one
    segment. The request runs [deleteNotification] with the id "read",
    and is answered 404 with the state unchanged when the lookup of that
    id rejects as a cast error does. The routes declared before are
    reached: PUT /:id/read runs [markAsRead], and PUT /read-all runs
    [markAllAsRead]. *)
Theorem delete_read_route_is_shadowed req w :
  (∀ method path params,
     dispatch notificationRoute method path ≠ Some (ctl_deleteReadNotifications, params))
  ∧ (∀ seg, seg ≠ "" →
       dispatch notificationRoute DELETE [ seg ]
       = Some (ctl_deleteNotification, [ ("id", seg) ]))
  ∧ dispatch notificationRoute DELETE [ "read" ]
    = Some (ctl_deleteNotification, [ ("id", "read") ])
  ∧ (req_outcome req NotificationFindById = RejectsObjectId →
     controller_deleteNotification req "read" w
     = (w, failure 404 "Notification not found"))
  ∧ (∀ seg, seg ≠ "" →
       dispatch notificationRoute PUT [ seg; "read" ]
       = Some (ctl_markAsRead, [ ("id", seg) ]))
  ∧ dispatch notificationRoute PUT [ "read-all" ] = Some (ctl_markAllAsRead, []).
Proof.
  split; [|split; [|split; [|split; [|split]]]].
  - intros method path params.
    destruct method; destruct path as [|seg [|seg2 [|seg3 path]]]; route_cbn;
      try discriminate;
      try (destruct (eqs seg "") eqn:E;
           [apply eqs_eq in E; subst seg; vm_compute; discriminate|]);
      repeat match goal with
             | |- context [if ?b then _ else _] => destruct b
             end;
      discriminate.
  - intros seg Hseg. route_param seg Hseg.
  - reflexivity.
  - intros Ho. unfold controller_deleteNotification, awaiting. rewrite Ho. reflexivity.
  - intros seg Hseg. route_param seg Hseg.
  - reflexivity.
Qed.

(** X26. PUT /api/messages/read-all never reaches
    [markAllMessagesAsRead]: no request does, since the route
    [put('/:id')] is declared first and takes every path of one segment.
    The request runs [updateMessage] with the id "read-all". The other
    routes are reached: PUT /:id/read runs [markMessageAsRead], GET /:id
    [getMessageById], DELETE /:id [deleteMessage], and GET
    /:id/read-receipts [getReadReceipts]. *)
Theorem read_all_route_is_shadowed :
  (∀ method path params,
     dispatch messageRoute method path ≠ Some (ctl_markAllMessagesAsRead, params))
  ∧ dispatch messageRoute PUT [ "read-all" ]
    = Some (ctl_updateMessage, [ ("id", "read-all") ])
  ∧ (∀ seg, seg ≠ "" →
       dispatch messageRoute PUT [ seg ] = Some (ctl_updateMessage, [ ("id", seg) ])
       ∧ dispatch messageRoute GET [ seg ] = Some (ctl_getMessageById, [ ("id", seg) ])
       ∧ dispatch messageRoute DELETE [ seg ] = Some (ctl_deleteMessage, [ ("id", seg) ])
       ∧ dispatch messageRoute PUT [ seg; "read" ]
         = Some (ctl_markMessageAsRead, [ ("id", seg) ])
       ∧ dispatch messageRoute GET [ seg; "read-receipts" ]
         = Some (ctl_getReadReceipts, [ ("id", seg) ])).
Proof.
  split; [|split].
  - intros method path params.
    destruct method; destruct path as [|seg [|seg2 [|seg3 path]]]; route_cbn;
      try discriminate;
      try (destruct (eqs seg "") eqn:E;
           [apply eqs_eq in E; subst seg; vm_compute; discriminate|]);
      repeat match goal with
             | |- context [if ?b then _ else _] => destruct b
             end;
      discriminate.
  - reflexivity.
  - intros seg Hseg. repeat split; route_param seg Hseg.
Qed.

(** ** All thirteen handlers *)

(** X1. Of the thirteen handlers, only connection and disconnect change
    [activeUsers]; only they and join-group and leave-group change the
    room subscriptions. Every other handler, typing-end, mark-all-as-read
    and friend-request-accepted included, leaves both as they were,
    whatever the database does. *)
Theorem presence_changes_only_at_lifecycle env batch socket ev w :
  let w' := (react env batch socket ev w).1 in
  match ev with
  | Client Connection | Client Disconnect => True
  | Client (JoinGroup _) | Client (LeaveGroup _) => activeUsers w' = activeUsers w
  | _ => activeUsers w' = activeUsers w ∧ rooms w' = rooms w
  end.
Proof.
  cbn zeta. destruct ev as [ev|chat kind|chat kind|friendId]; cbn [react fst].
  - destruct ev; try exact I; try split;
      try (apply step_keeps_activeUsers; discriminate);
      unfold step; apply run_keeps; keeps_handler.
  - split; reflexivity.
  - rewrite mark_all_state. destruct (find_rejects batch); split; reflexivity.
  - split; reflexivity.
Qed.

(** X2. Which collection a handler may write, over all thirteen
    handlers: the friendships never, the chats only in
    send-private-message, the groups only in send-group-message, the
    messages only in the two send handlers, mark-as-read and
    mark-all-as-read, the notifications only in the two send handlers and
    notification-read, the users only at connection, disconnect and
    set-status. *)
Theorem handlers_write_their_collections env batch socket ev w :
  let w' := (react env batch socket ev w).1 in
  friendships w' = friendships w
  ∧ match ev with
    | Client (SendPrivateMessage _ _ _ _) => True
    | _ => chats w' = chats w
    end
  ∧ match ev with
    | Client (SendGroupMessage _ _ _ _) => True
    | _ => groups w' = groups w
    end
  ∧ match ev with
    | Client (SendPrivateMessage _ _ _ _) | Client (SendGroupMessage _ _ _ _)
    | Client (MarkAsRead _) | MarkAllAsRead _ _ => True
    | _ => messages w' = messages w
    end
  ∧ match ev with
    | Client (SendPrivateMessage _ _ _ _) | Client (SendGroupMessage _ _ _ _)
    | Client (NotificationRead _) => True
    | _ => notifications w' = notifications w
    end
  ∧ match ev with
    | Client Connection | Client Disconnect | Client (SetStatus _) => True
    | _ => users w' = users w
    end.
Proof.
  cbn zeta. destruct ev as [ev|chat kind|chat kind|friendId]; cbn [react fst].
  - unfold step. destruct ev; repeat split; try exact I; apply run_keeps; keeps_handler.
  - repeat split.
  - rewrite mark_all_state. destruct (find_rejects batch); repeat split.
  - repeat split.
Qed.

Lemma react_handles_truthy env batch socket ev w :
  socket_id socket ≠ "" → handles_truthy w →
  handles_truthy (react env batch socket ev w).1.
Proof.
  intros Hs Hw. destruct ev as [ev|chat kind|chat kind|friendId]; cbn [react fst].
  - apply step_handles_truthy; assumption.
  - exact Hw.
  - rewrite mark_all_state. destruct (find_rejects batch); exact Hw.
  - exact Hw.
Qed.

(** X6. Along any sequence of events of the thirteen handlers on sockets
    with non-empty ids, every handle in [activeUsers] stays a non-empty
    string; so the truthiness test of a looked-up handle, as the private
    handler and the status loops make it, says exactly whether the user
    has an entry, as the group handler asks with [has]. *)
Theorem handles_stay_truthy trace w userId :
  Forall (λ x : Env * BatchEnv * Socket * SocketEvent, socket_id x.1.2 ≠ "") trace →
  handles_truthy w →
  handles_truthy (reacts trace w)
  ∧ truthy (activeUsers (reacts trace w) !! userId)
    = bool_decide (is_Some (activeUsers (reacts trace w) !! userId)).
Proof.
  intros Htrace Hw.
  assert (handles_truthy (reacts trace w)) as Hinv.
  { revert w Hw.
    induction Htrace as [|[[[env batch] socket] ev] trace Hs _ IH]; intros w Hw;
      [exact Hw|].
    cbn [reacts]. apply IH, react_handles_truthy; assumption. }
  split; [exact Hinv|].
  destruct (activeUsers (reacts trace w) !! userId) as [s|] eqn:E; [|reflexivity].
  rewrite bool_decide_eq_true_2 by eauto. cbn.
  apply negb_true_iff, String.eqb_neq. exact (Hinv _ _ E).
Qed.

Lemma handles_stay_truthy_witness :
  let q := Scenario.quiet in
  let b := Inbox.smooth in
  let trace := [ (q, b, Scenario.alice_socket, Client Connection);
                 (q, b, Scenario.bob_socket, Client Connection);
                 (q, b, Scenario.alice_socket,
                  Client (SendPrivateMessage "bob" (Some "hello") None None));
                 (q, b, Scenario.bob_socket, TypingEnd "chat1" "Chat");
                 (q, b, Scenario.bob_socket, MarkAllAsRead "chat1" "Chat");
                 (q, b, Scenario.bob_socket, FriendRequestAccepted "alice");
                 (q, b, Scenario.bob_socket, Client (SetStatus "away"));
                 (q, b, Scenario.alice_socket, Client Disconnect) ] in
  handles_truthy Scenario.initial
  ∧ handles_truthy (reacts trace Scenario.initial)
  ∧ truthy (activeUsers (reacts trace Scenario.initial) !! "bob")
    = bool_decide (is_Some (activeUsers (reacts trace Scenario.initial) !! "bob")).
Proof.
  intros q b trace.
  assert (handles_truthy Scenario.initial) as Hinit.
  { intros userId s H. vm_compute in H. discriminate H. }
  split; [exact Hinit|].
  apply (handles_stay_truthy trace Scenario.initial "bob"); [|exact Hinit].
  repeat constructor; discriminate.
Defined.
